(** * files_archiver: the task service, its registry and its pipeline

    A shallow embedding of [internal/repository] (the in-memory task
    registry) and [internal/service] (the task orchestrator with its
    download, archive and cleanup stages), followed by the properties the
    specification states about them.

    Modelling choices.
    - [int64] values are [Z]; [atomic.AddInt64] wraps around ([wrap64]).
    - Go maps are [gmap]s; reading a missing key of [urlsByTask] gives the
      nil slice, written [default [] (m !! k)].
    - The service is modelled sequentially: one call runs to its end before
      the next one starts.  The locks of the source therefore do not appear.
    - The outside world is explicit: a file system (paths to contents), the
      list of HTTP requests sent so far, and the records the logger
      received.  What the network answers and which file-system calls fail
      is given by an oracle ([Env]) that the service cannot inspect.
    - An archive is kept as the list of its entries; the byte format of
      [archive/zip] is not part of this repository.  Creating, opening,
      inspecting and removing files can fail, and so can creating an entry
      in an open archive and copying a file into it; what an archive file
      holds after its writing broke off is given by the oracle.  Closing
      files and the archive writer, whose results the source drops, is
      taken to succeed.
    - A request is what the service hands to [http.DefaultClient.Do]; the
      redirects the client follows on its own are part of that one call. *)

From Stdlib Require Import ZArith Lia Bool Ascii String List.
From stdpp Require Import base gmap strings list fin_maps pretty.

Open Scope string_scope.
Open Scope list_scope.
Open Scope Z_scope.

(** ** Go runtime pieces used by the service *)

Definition int64_min : Z := - 2 ^ 63.
Definition int64_max : Z := 2 ^ 63 - 1.

(** Two's-complement wrap-around of a 64-bit signed integer. *)
Definition wrap64 (z : Z) : Z := (z + 2 ^ 63) mod 2 ^ 64 - 2 ^ 63.

(** [atomic.AddInt64(&c, d)]: the new value of the counter. *)
Definition AddInt64 (c d : Z) : Z := wrap64 (c + d).

(** [strconv.FormatInt(n, 10)], also [strconv.Itoa] and the verb [%d]. *)
Definition FormatInt (n : Z) : string := pretty n.

Definition slash : ascii := "/"%char.
Definition dot : ascii := "."%char.

(** [filepath.Ext]: scanning from the end, the suffix that starts at the
    last dot of the last path element; empty when that element has no dot. *)
Fixpoint ext_scan (r acc : list ascii) : list ascii :=
  match r with
  | [] => []
  | c :: r' =>
      if Ascii.eqb c slash then []
      else if Ascii.eqb c dot then c :: acc
      else ext_scan r' (c :: acc)
  end.

Definition Ext (path : string) : string :=
  string_of_list_ascii (ext_scan (rev (list_ascii_of_string path)) []).

(** [filepath.Base]: trailing slashes are stripped, then the last element is
    kept; the empty path gives ".", a path of slashes only gives "/". *)
Fixpoint strip_slashes (r : list ascii) : list ascii :=
  match r with
  | c :: r' => if Ascii.eqb c slash then strip_slashes r' else r
  | [] => []
  end.

Fixpoint last_element (r acc : list ascii) : list ascii :=
  match r with
  | [] => acc
  | c :: r' => if Ascii.eqb c slash then acc else last_element r' (c :: acc)
  end.

Definition Base (path : string) : string :=
  match path with
  | EmptyString => "."
  | _ =>
      match last_element (strip_slashes (rev (list_ascii_of_string path))) [] with
      | [] => "/"
      | l => string_of_list_ascii l
      end
  end.

(** [strings.Contains s sub]: [sub] is a prefix of some suffix of [s]. *)
Fixpoint Contains (s sub : string) : bool :=
  String.prefix sub s ||
  match s with
  | EmptyString => false
  | String _ s' => Contains s' sub
  end.

(** ** Errors *)

(** The calls that touch local storage: [os.MkdirAll], [os.Create],
    [os.Open], [os.Stat], [os.Remove], and on an open archive
    [zip.Writer.Create] and the [io.Copy] of a file into the new entry. *)
Inductive fsop :=
  OpMkdirAll | OpCreate | OpOpen | OpStat | OpRemove | OpZipCreate | OpCopy.

Inductive error :=
| ErrTaskNotFound
| ErrTooManyLinks
| ErrInvalidFile
| ErrFileTooLarge
| ErrServerBusy
| ErrNewRequest              (* http.NewRequest refused the URL *)
| ErrTransport               (* http.DefaultClient.Do failed *)
| ErrBody                    (* io.Copy: the response body broke off *)
| ErrFS (op : fsop)          (* a file-system call failed *)
| ErrRepo.                   (* the registry's own "not found" *)

Inductive result (A : Type) :=
| Ok (a : A)
| Err (e : error).
Arguments Ok {A} a.
Arguments Err {A} e.

(** ** internal/repository *)

Module repository.

Record Task := mkTask {
  ID : Z;
  Status : string;
  URLs : list string;
  ArchivePath : string
}.

(** The zero value [Task{}]. *)
Definition zeroTask : Task := mkTask 0 "" [] "".

(** [SaveTask]: [r.Tasks[task.ID] = task; return nil]. *)
Definition SaveTask (Tasks : gmap Z Task) (task : Task) : gmap Z Task * option error :=
  (<[ID task := task]> Tasks, None).

(** [GetTask]: the stored task, or an error when the ID is not a key. *)
Definition GetTask (Tasks : gmap Z Task) (id : Z) : result Task :=
  match Tasks !! id with
  | Some task => Ok task
  | None => Err ErrRepo
  end.

End repository.
Import repository.

(** ** internal/config *)

Record Config := mkConfig {
  ServerPort : Z;
  FileMaxSize : Z;
  FileAllowedExtensions : list string
}.

(** ** internal/service: constants and state *)

Definition zipPath : string := "../archives".
Definition folderPath : string := "archives/".
Definition folderPathImg : string := "../downloads".

Definition StatusCreated : string := "создали".
Definition StatusInProgress : string := "в процессе".
Definition StatusFailed : string := "неуспешно".
Definition StatusCompleted : string := "завершена".

Record TaskService := mkService {
  repo : gmap Z Task;
  cfg : Config;
  taskCounter : Z;
  activeTasksCounter : Z;
  filesCounter : Z;
  urlsByTask : gmap Z (list string)
}.

Definition NewTaskService (c : Config) : TaskService :=
  mkService ∅ c 0 0 0 ∅.

Definition set_repo (r : gmap Z Task) (s : TaskService) : TaskService :=
  mkService r (cfg s) (taskCounter s) (activeTasksCounter s) (filesCounter s) (urlsByTask s).
Definition set_taskCounter (n : Z) (s : TaskService) : TaskService :=
  mkService (repo s) (cfg s) n (activeTasksCounter s) (filesCounter s) (urlsByTask s).
Definition set_activeTasksCounter (n : Z) (s : TaskService) : TaskService :=
  mkService (repo s) (cfg s) (taskCounter s) n (filesCounter s) (urlsByTask s).
Definition set_filesCounter (n : Z) (s : TaskService) : TaskService :=
  mkService (repo s) (cfg s) (taskCounter s) (activeTasksCounter s) n (urlsByTask s).
Definition set_urlsByTask (m : gmap Z (list string)) (s : TaskService) : TaskService :=
  mkService (repo s) (cfg s) (taskCounter s) (activeTasksCounter s) (filesCounter s) m.

(** The ledger of a task as Go reads it: a missing key is the nil slice. *)
Definition ledger (s : TaskService) (taskID : Z) : list string :=
  default [] (urlsByTask s !! taskID).

(** The archive base name: "Task_0<id>" below 10, "Task_<id>" from 10 on. *)
Definition zipName (taskID : Z) : string :=
  if (taskID <? 10)%Z then "Task_" +:+ "0" +:+ FormatInt taskID
  else "Task_" +:+ FormatInt taskID.

(** [task.Status = st] and [task.ArchivePath = p] on a local copy. *)
Definition with_Status (st : string) (task : Task) : Task :=
  mkTask (ID task) st (URLs task) (ArchivePath task).
Definition with_ArchivePath (p : string) (task : Task) : Task :=
  mkTask (ID task) (Status task) (URLs task) p.

(** ** CreateTask *)

Definition CreateTask (s : TaskService) : result Z * TaskService :=
  if (3 <=? activeTasksCounter s)%Z then (Err ErrServerBusy, s)
  else
    let s := set_activeTasksCounter (AddInt64 (activeTasksCounter s) 1) s in
    let taskID := AddInt64 (taskCounter s) 1 in
    let s := set_taskCounter taskID s in
    let archivePath := zipPath +:+ "/" +:+ zipName taskID in
    let task := mkTask taskID StatusCreated [] archivePath in
    match SaveTask (repo s) task with
    | (r, Some err) => (Err err, set_repo r s)
    | (r, None) =>
        let s := set_repo r s in
        (Ok taskID, set_urlsByTask (<[taskID := []]> (urlsByTask s)) s)
    end.

(** ** AddLinks *)

Definition AddLinks (s : TaskService) (taskID : Z) (urls : list string)
  : option error * TaskService :=
  match GetTask (repo s) taskID with
  | Err _ => (Some ErrTaskNotFound, s)
  | Ok task =>
      let currentURLs := ledger s taskID in
      if (3 <=? Z.of_nat (length currentURLs))%Z then (Some ErrTooManyLinks, s)
      else if (3 <? Z.of_nat (length currentURLs) + Z.of_nat (length urls))%Z
      then (Some ErrTooManyLinks, s)
      else
        let s := set_urlsByTask (<[taskID := ledger s taskID ++ urls]> (urlsByTask s)) s in
        let task := with_Status StatusInProgress task in
        match SaveTask (repo s) task with
        | (r, Some err) => (Some err, set_repo r s)
        | (r, None) => (None, set_repo r s)
        end
  end.

(** ** The world outside the service *)

(** What a file holds: raw bytes, or a zip container with its entries in
    the order they were added (the name of an entry and what was copied
    into it). *)
#[warnings="-register-all"]
Inductive FileData :=
| Raw (bytes : list Byte.byte)
| Zip (entries : list (string * FileData)).

Inductive method := HEAD | GET.
Inductive level := LevelInfo | LevelWarn | LevelError.

Record World := mkWorld {
  disk : gmap string FileData;          (* local storage *)
  requests : list (method * string);    (* requests handed to the HTTP client,
                                           oldest first *)
  logs : list (level * string)          (* log records, oldest first *)
}.

Definition emptyWorld : World := mkWorld ∅ [] [].

Definition logmsg (l : level) (msg : string) (w : World) : World :=
  mkWorld (disk w) (requests w) (logs w ++ [(l, msg)]).
Definition send (m : method) (url : string) (w : World) : World :=
  mkWorld (disk w) (requests w ++ [(m, url)]) (logs w).
Definition write_file (path : string) (d : FileData) (w : World) : World :=
  mkWorld (<[path := d]> (disk w)) (requests w) (logs w).
Definition remove_file (path : string) (w : World) : World :=
  mkWorld (delete path (disk w)) (requests w) (logs w).

Record HeadResponse := mkHead { ContentType : string }.

(** A GET response: the declared length (-1 when the server declares none),
    the bytes the body delivers, and whether the body then breaks off with
    a read error instead of ending. *)
Record GetResponse := mkGet {
  ContentLength : Z;
  Body : list Byte.byte;
  BodyErr : bool
}.

(** The environment: which URLs [http.NewRequest] accepts, what the network
    answers to the n-th request of the process ([None]: transport error),
    which file-system calls fail, and what is left in an archive file
    whose writing broke off. *)
Record Env := mkEnv {
  new_request_ok : string → bool;
  head_response : nat → string → option HeadResponse;
  get_response : nat → string → option GetResponse;
  fs_fault : fsop → string → bool;
  torn : string → FileData
}.

Definition msgHeadNew : string := "Ошибка создания HEAD-запроса".
Definition msgHeadDo : string := "Ошибка выполнения HEAD-запроса".
Definition msgHeadDone : string := "HEAD-запрос выполнен".
Definition msgDownload : string := "Ошибка скачивания файла при создании архива".
Definition msgStatusSave : string := "Ошибка обновления статуса задачи".
Definition msgArchive : string := "Ошибка создания архива".
Definition msgDelete : string := "Ошибка удаления файлов".
Definition msgTaskSave : string := "Ошибка обновления задачи".
Definition msgOpen : string := "Ошибка открытия файла для архивации".

Section Service.

(** [strings.ToLower] (Unicode case tables) is taken as a parameter. *)
Variable ToLower : string → string.
Variable env : Env.

(** ** deleteFiles *)

Fixpoint deleteFiles (w : World) (files : list string) : option error * World :=
  match files with
  | [] => (None, w)
  | filePath :: rest =>
      if fs_fault env OpStat filePath then (Some (ErrFS OpStat), w)
      else
        match disk w !! filePath with
        | Some _ =>
            if fs_fault env OpRemove filePath then (Some (ErrFS OpRemove), w)
            else deleteFiles (remove_file filePath w) rest
        | None => deleteFiles w rest
        end
  end.

(** ** downloadFile *)

(** The name under which a download is stored. *)
Definition preffileName (taskID c : Z) : string :=
  if (taskID <? 10)%Z then "Task_" +:+ "0" +:+ FormatInt taskID +:+ "_" +:+ FormatInt c
  else "Task_" +:+ FormatInt taskID +:+ "_" +:+ FormatInt c.

(** Lines 213-249 of the source: the extension taken from the URL is
    compared with the allow-list; only when it is not in the list a HEAD
    request is sent and the content type of the answer is searched for an
    allowed entry, the first one found replacing the extension.  The result
    is the extension to store the file under. *)
Definition ext_allowed (s : TaskService) (url : string) : bool :=
  existsb (fun allowed => String.eqb (ToLower (Ext url)) ("." +:+ allowed))
          (FileAllowedExtensions (cfg s)).

Definition checkType (s : TaskService) (w : World) (url : string)
  : result string * World :=
  let ext := ToLower (Ext url) in
  if ext_allowed s url then (Ok ext, w)
  else if negb (new_request_ok env url)
  then (Err ErrNewRequest, logmsg LevelWarn msgHeadNew w)
  else
    let n := length (requests w) in
    let w := send HEAD url w in
    match head_response env n url with
    | None => (Err ErrTransport, logmsg LevelWarn msgHeadDo w)
    | Some resp =>
        let w := logmsg LevelInfo msgHeadDone w in
        match List.find (fun allowed => Contains (ContentType resp) allowed)
                        (FileAllowedExtensions (cfg s)) with
        | Some allowed => (Ok ("." +:+ allowed), w)
        | None => (Err ErrInvalidFile, w)
        end
    end.

(** Lines 251-290: the GET request, the check of the declared length, the
    file name from the task ID and the file counter, and the copy of the
    body into the file. *)
Definition fetch (s : TaskService) (w : World) (url : string) (taskID : Z) (ext : string)
  : result string * TaskService * World :=
  if negb (new_request_ok env url) then (Err ErrNewRequest, s, w)
  else
    let n := length (requests w) in
    let w := send GET url w in
    match get_response env n url with
    | None => (Err ErrTransport, s, w)
    | Some resp =>
        if (FileMaxSize (cfg s) <? ContentLength resp)%Z
        then (Err ErrFileTooLarge, s, w)
        else
          let c := AddInt64 (filesCounter s) 1 in
          let s := set_filesCounter c s in
          let fileName := folderPathImg +:+ "/" +:+ preffileName taskID c +:+ ext in
          if fs_fault env OpMkdirAll folderPathImg then (Err (ErrFS OpMkdirAll), s, w)
          else if fs_fault env OpCreate fileName then (Err (ErrFS OpCreate), s, w)
          else
            let w := write_file fileName (Raw (Body resp)) w in
            if BodyErr resp then (Err ErrBody, s, w)
            else (Ok fileName, s, w)
    end.

Definition downloadFile (s : TaskService) (w : World) (url : string) (taskID : Z)
  : result string * TaskService * World :=
  match checkType s w url with
  | (Err e, w) => (Err e, s, w)
  | (Ok ext, w) => fetch s w url taskID ext
  end.

(** ** createZipArchive *)

(** The loop over the files: a file that cannot be opened is logged and
    skipped; for every other one an entry named by its base name is created
    in the archive and the file is copied into it.  Either of these two
    steps can fail, and the loop then ends with that error. *)
Fixpoint addFiles (w : World) (files : list string) (entries : list (string * FileData))
  : option error * list (string * FileData) * World :=
  match files with
  | [] => (None, entries, w)
  | filePath :: rest =>
      if fs_fault env OpOpen filePath
      then addFiles (logmsg LevelWarn msgOpen w) rest entries
      else
        match disk w !! filePath with
        | None => addFiles (logmsg LevelWarn msgOpen w) rest entries
        | Some d =>
            if fs_fault env OpZipCreate (Base filePath)
            then (Some (ErrFS OpZipCreate), entries, w)
            else if fs_fault env OpCopy filePath
            then (Some (ErrFS OpCopy), entries, w)
            else addFiles w rest (entries ++ [(Base filePath, d)])
        end
  end.

(** The archive file is created (and emptied) before the loop.  When the
    loop ends without an error the entries reach the file as the writer is
    closed on return; when it ends with an error, that error is returned
    and the file stays behind with what the broken writing left in it. *)
Definition createZipArchive (s : TaskService) (w : World) (taskID : Z) (files : list string)
  : result string * World :=
  let archiveName := ArchivePath (default zeroTask (repo s !! taskID)) +:+ ".zip" in
  if fs_fault env OpMkdirAll zipPath then (Err (ErrFS OpMkdirAll), w)
  else if fs_fault env OpCreate archiveName then (Err (ErrFS OpCreate), w)
  else
    let w := write_file archiveName (Zip []) w in
    match addFiles w files [] with
    | (Some e, _, w) => (Err e, write_file archiveName (torn env archiveName) w)
    | (None, entries, w) =>
        let w := write_file archiveName (Zip entries) w in
        let zipPathEnd := folderPath +:+ zipName taskID +:+ ".zip" in
        (Ok zipPathEnd, w)
    end.

(** ** GetStatus *)

(** The loop over the ledger: a failed download is logged and skipped. *)
Fixpoint downloadAll (s : TaskService) (w : World) (urls : list string) (taskID : Z)
  (files : list string) : list string * TaskService * World :=
  match urls with
  | [] => (files, s, w)
  | u :: rest =>
      match downloadFile s w u taskID with
      | (Err _, s, w) => downloadAll s (logmsg LevelWarn msgDownload w) rest taskID files
      | (Ok filePath, s, w) => downloadAll s w rest taskID (files ++ [filePath])
      end
  end.

(** Saving a task from GetStatus: an error is logged, never returned. *)
Definition saveLogged (msg : string) (task : Task) (s : TaskService) (w : World)
  : TaskService * World :=
  match SaveTask (repo s) task with
  | (r, Some _) => (set_repo r s, logmsg LevelError msg w)
  | (r, None) => (set_repo r s, w)
  end.

Definition archiveURL (port : Z) (path : string) : string :=
  "http://localhost:" +:+ FormatInt port +:+ "/" +:+ path.

Definition GetStatus (s : TaskService) (w : World) (taskID : Z)
  : result (gmap string string) * TaskService * World :=
  match GetTask (repo s) taskID with
  | Err _ => (Err ErrTaskNotFound, s, w)
  | Ok task =>
      let urlCount := length (ledger s taskID) in
      let result : gmap string string := {[ "status" := StatusInProgress ]} in
      if (3 <=? Z.of_nat urlCount)%Z then
        let '(files, s, w) := downloadAll s w (ledger s taskID) taskID [] in
        if (Z.of_nat (length files) =? 0)%Z then
          let task := with_Status StatusFailed task in
          let '(s, w) := saveLogged msgStatusSave task s w in
          (Ok {[ "status" := "failed" ]}, s, w)
        else
          match createZipArchive s w taskID files with
          | (Err _, w) =>
              let w := logmsg LevelError msgArchive w in
              let task := with_Status StatusFailed task in
              let '(s, w) := saveLogged msgStatusSave task s w in
              (Ok {[ "status" := StatusFailed ]}, s, w)
          | (Ok archivePath, w) =>
              let '(err, w) := deleteFiles w files in
              let w := match err with
                       | Some _ => logmsg LevelError msgDelete w
                       | None => w
                       end in
              let task := with_Status StatusCompleted task in
              let s := set_activeTasksCounter (AddInt64 (activeTasksCounter s) (-1)) s in
              let task := with_ArchivePath archivePath task in
              let '(s, w) := saveLogged msgTaskSave task s w in
              let result := <[ "status" := StatusCompleted ]> result in
              let result :=
                <[ "archive_url" := archiveURL (ServerPort (cfg s)) (ArchivePath task) ]> result in
              (Ok result, s, w)
          end
      else (Ok result, s, w)
  end.

End Service.

(** ** Runs of the service

    The three calls a client can make, and the service run on a list of
    them from a given state; [allocated] collects the task IDs that the
    successful creations of a run returned, oldest first. *)

Inductive call :=
| CallCreateTask
| CallAddLinks (taskID : Z) (urls : list string)
| CallGetStatus (taskID : Z).

Section Runs.

Variable ToLower : string → string.
Variable env : Env.

Definition exec (c : call) (st : TaskService * World) : TaskService * World :=
  match c with
  | CallCreateTask => (snd (CreateTask (fst st)), snd st)
  | CallAddLinks taskID urls => (snd (AddLinks (fst st) taskID urls), snd st)
  | CallGetStatus taskID =>
      let '(_, s, w) := GetStatus ToLower env (fst st) (snd st) taskID in (s, w)
  end.

Fixpoint run (calls : list call) (st : TaskService * World) : TaskService * World :=
  match calls with
  | [] => st
  | c :: rest => run rest (exec c st)
  end.

Fixpoint allocated (calls : list call) (st : TaskService * World) : list Z :=
  match calls with
  | [] => []
  | c :: rest =>
      match c, CreateTask (fst st) with
      | CallCreateTask, (Ok taskID, _) => taskID :: allocated rest (exec c st)
      | _, _ => allocated rest (exec c st)
      end
  end.

End Runs.

(** The state a fresh process starts from. *)
Definition initial (c : Config) : TaskService * World := (NewTaskService c, emptyWorld).

(** ASCII lower-casing, the behaviour of [strings.ToLower] on ASCII text;
    used to run the service on concrete inputs. *)
Definition lower_ascii (c : ascii) : ascii :=
  let n := nat_of_ascii c in
  if ((65 <=? n) && (n <=? 90))%nat then ascii_of_nat (n + 32) else c.

Fixpoint asciiToLower (s : string) : string :=
  match s with
  | EmptyString => EmptyString
  | String c s' => String (lower_ascii c) (asciiToLower s')
  end.

(** ** The specification's reading of the archive base name

    "Zero-padded to 2 digits": the decimal form of the ID, with one zero in
    front when it has fewer than two characters. *)
Definition pad2 (n : Z) : string :=
  let d := FormatInt n in
  if (String.length d <? 2)%nat then "0" +:+ d else d.

(** ** Predicates used in the statements *)

(** Downloads touch the file counter and nothing else of the service. *)
Definition same_but_files (s s' : TaskService) : Prop :=
  repo s' = repo s ∧ cfg s' = cfg s ∧ taskCounter s' = taskCounter s ∧
  activeTasksCounter s' = activeTasksCounter s ∧ urlsByTask s' = urlsByTask s.

(** What holds of the service after at most [n] calls: the active counter
    never exceeds the cap and has lost at most one per call, the task counter
    counts the creations, every stored task sits under its own ID, which is
    one that has been handed out, and every ledger belongs to a stored task
    and holds at most three URLs. *)
Definition Inv (n : Z) (s : TaskService) : Prop :=
  - n ≤ activeTasksCounter s ≤ 3 ∧
  0 ≤ taskCounter s ≤ n ∧
  (∀ id task, repo s !! id = Some task → ID task = id ∧ 1 ≤ id ≤ taskCounter s) ∧
  (∀ id l, urlsByTask s !! id = Some l →
           (length l ≤ 3)%nat ∧ is_Some (repo s !! id)).

(** What one GetStatus call can do to the service, file counter apart:
    nothing; or store the polled task as failed; or store it as completed
    with the logical path of its archive and take one off the active
    counter. *)
Definition GetStatus_effect (s : TaskService) (taskID : Z) (s' : TaskService) : Prop :=
  cfg s' = cfg s ∧ taskCounter s' = taskCounter s ∧ urlsByTask s' = urlsByTask s ∧
  ((repo s' = repo s ∧ activeTasksCounter s' = activeTasksCounter s) ∨
   (∃ task, repo s !! taskID = Some task ∧
            repo s' = <[ID task := with_Status StatusFailed task]> (repo s) ∧
            activeTasksCounter s' = activeTasksCounter s) ∨
   (∃ task,
       repo s !! taskID = Some task ∧
       repo s' = <[ID task := with_ArchivePath (folderPath +:+ zipName taskID +:+ ".zip")
                                (with_Status StatusCompleted task)]> (repo s) ∧
       activeTasksCounter s' = AddInt64 (activeTasksCounter s) (-1))).

(** ** Concrete configurations, environments and runs used in the examples *)

Definition cfgImages : Config := mkConfig 8080 10 ["jpg"; "png"].

Definition noFault : fsop → string → bool := fun _ _ => false.

(** What the examples find in an archive file whose writing broke off. *)
Definition noBytes : string → FileData := fun _ => Raw [].

(** A network on which no request gets an answer. *)
Definition envDown : Env :=
  mkEnv (fun _ => true) (fun _ _ => None) (fun _ _ => None) noFault noBytes.

Definition abc : list Byte.byte := [Byte.x61; Byte.x62; Byte.x63].

(** A network that answers every GET with the three bytes "abc", declared
    as such, and every HEAD with the content type image/png. *)
Definition envUp : Env :=
  mkEnv (fun _ => true) (fun _ _ => Some (mkHead "image/png"))
        (fun _ _ => Some (mkGet 3 abc false)) noFault noBytes.

Definition threeLinks : list string :=
  ["http://h/a.jpg"; "http://h/b.png"; "http://h/c.jpg"].

(** One task created and given its three links. *)
Definition oneTaskReady : list call :=
  [CallCreateTask; CallAddLinks 1 threeLinks].



(** A limit of two bytes, and a network whose GET answers declare no length
    (-1) and deliver the three bytes "abc". *)
Definition cfgTiny : Config := mkConfig 8080 2 ["jpg"; "png"].

Definition envNoLength : Env :=
  mkEnv (fun _ => true) (fun _ _ => Some (mkHead "image/png"))
        (fun _ _ => Some (mkGet (-1) abc false)) noFault noBytes.



(** An archive entry made from a file of the given world: its name is the
    base name of the path, its content is what the file holds. *)
Definition entry_of (w : World) (path : string) (e : string * FileData) : Prop :=
  fst e = Base path ∧ disk w !! path = Some (snd e).

(** Paths used by the archive example: two downloads on disk. *)
Definition xyz : list Byte.byte := [Byte.x78; Byte.x79; Byte.x7a].




(** What a poll that ends in completed returns. *)
Definition completedResult (c : Config) (taskID : Z) : gmap string string :=
  <[ "archive_url" := archiveURL (ServerPort c) (folderPath +:+ zipName taskID +:+ ".zip") ]>
    (<[ "status" := StatusCompleted ]> {[ "status" := StatusInProgress ]}).

(** A network that answers the first three requests of the process like
    [envUp] and no request after them. *)
Definition envFlaky : Env :=
  mkEnv (fun _ => true) (fun _ _ => None)
        (fun n _ => if (n <? 3)%nat then Some (mkGet 3 abc false) else None) noFault noBytes.

(** A task created, given three links and polled once. *)
Definition oneTaskPolled : list call := oneTaskReady ++ [CallGetStatus 1].

(** Three tasks, each created, given three links and polled once. *)
Definition threeTasksPolled : list call :=
  [CallCreateTask; CallAddLinks 1 threeLinks; CallGetStatus 1;
   CallCreateTask; CallAddLinks 2 threeLinks; CallGetStatus 2;
   CallCreateTask; CallAddLinks 3 threeLinks; CallGetStatus 3].


(** The service after one creation, and after the three links were added. *)
Definition oneTask : TaskService := snd (CreateTask (NewTaskService cfgImages)).
Definition oneTaskFull : TaskService := snd (AddLinks oneTask 1 threeLinks).

Definition fourLinks : list string := threeLinks ++ ["http://h/d.png"].


(** The two shapes an archive path stored in the registry can have: the
    one set at creation, under [zipPath], and the logical one set at
    completion, under [folderPath]. *)
Definition archive_path_ok (p : string) : Prop :=
  ∃ rest, p = zipPath +:+ "/" +:+ rest ∨ p = folderPath +:+ rest.

Definition PathInv (s : TaskService) : Prop :=
  ∀ id task, repo s !! id = Some task → archive_path_ok (ArchivePath task).

(** A path in the download folder. *)
Definition is_download (p : string) : Prop :=
  ∃ rest, p = folderPathImg +:+ "/" +:+ rest.


(** ** Predicates for the further properties *)

(** The name of a stored download, as downloadFile builds it from the task
    ID, the value of the file counter and the accepted extension. *)
Definition download_name (taskID c : Z) (allowed : string) : string :=
  folderPathImg +:+ "/" +:+ preffileName taskID c +:+ "." +:+ allowed.

(** How the stored status of a task sits with its ledger. *)
Definition status_fits (st : string) (links : list string) : Prop :=
  (st = StatusCreated ∧ links = []) ∨
  (st = StatusInProgress ∧ (length links ≤ 3)%nat) ∨
  ((st = StatusCompleted ∨ st = StatusFailed) ∧ length links = 3%nat).

Definition StatusInv (s : TaskService) : Prop :=
  ∀ id task, repo s !! id = Some task → status_fits (Status task) (ledger s id).

(** Every ID up to the task counter has its task and its ledger. *)
Definition DenseInv (s : TaskService) : Prop :=
  ∀ id, 1 ≤ id ≤ taskCounter s →
        is_Some (repo s !! id) ∧ is_Some (urlsByTask s !! id).

(** [n] creations in a row: the answers, oldest first, and the service
    after them. *)
Fixpoint createMany (n : nat) (s : TaskService) : list (result Z) * TaskService :=
  match n with
  | O => ([], s)
  | S n' =>
      let '(r, s1) := CreateTask s in
      let '(rs, s2) := createMany n' s1 in
      (r :: rs, s2)
  end.


(** What a later state keeps of an earlier one: every stored task is still
    stored under its ID, and every ledger has only grown at its end. *)
Definition persists (s s' : TaskService) : Prop :=
  ∀ id, (is_Some (repo s !! id) → is_Some (repo s' !! id)) ∧
        ledger s id `prefix_of` ledger s' id.



(** An environment in which removing "b" fails. *)
Definition envLockedB : Env :=
  mkEnv (fun _ => true) (fun _ _ => None) (fun _ _ => None)
        (fun op p => match op with OpRemove => String.eqb p "b" | _ => false end) noBytes.

Definition diskABC : World :=
  mkWorld (<["a" := Raw abc]> (<["b" := Raw abc]> (<["c" := Raw xyz]> ∅))) [] [].


(** Whether a character occurs in a string. *)
Fixpoint has_char (c : ascii) (s : string) : bool :=
  match s with
  | EmptyString => false
  | String c' s' => Ascii.eqb c c' || has_char c s'
  end.

(** A file system on which the archive folder cannot be created. *)
Definition envNoArchiveDir : Env :=
  mkEnv (fun _ => true) (fun _ _ => None) (fun _ _ => Some (mkGet 3 abc false))
        (fun op p => match op with OpMkdirAll => String.eqb p zipPath | _ => false end)
        noBytes.


(** The number part of a task's file names: the ID, with a zero in front
    below 10. *)
Definition idPart (taskID : Z) : string :=
  if (taskID <? 10)%Z then "0" +:+ FormatInt taskID else FormatInt taskID.

(** A stored download whose counter value lies in the given range. *)
Definition named_in (taskID lo hi : Z) (p : string) : Prop :=
  ∃ c allowed, lo < c ≤ hi ∧ p = download_name taskID c allowed.


(** ** internal/handlers *)

(** [strconv.ParseInt(s, 10, 64)]: an optional sign, then at least one
    decimal digit and nothing else, and a value that fits 64 bits; [None]
    stands for either of its errors (syntax, range), which the handlers do
    not tell apart. *)
Definition digit_of (c : ascii) : option N :=
  let n := N_of_ascii c in
  if ((48 <=? n) && (n <=? 57))%N then Some (n - 48)%N else None.

Fixpoint parseDigits (s : string) (acc : N) : option N :=
  match s with
  | EmptyString => Some acc
  | String c s' =>
      match digit_of c with
      | Some d => parseDigits s' (10 * acc + d)%N
      | None => None
      end
  end.

Definition ParseUint (s : string) : option N :=
  match s with
  | EmptyString => None
  | _ => parseDigits s 0%N
  end.

Definition ParseInt (s : string) : option Z :=
  match s with
  | EmptyString => None
  | String c rest =>
      let neg := Ascii.eqb c "-" in
      let body := if Ascii.eqb c "+" || Ascii.eqb c "-" then rest else s in
      match ParseUint body with
      | None => None
      | Some un =>
          let cutoff := (2 ^ 63)%Z in
          if negb neg && (cutoff <=? Z.of_N un)%Z then None
          else if neg && (cutoff <? Z.of_N un)%Z then None
          else Some (if neg then - Z.of_N un else Z.of_N un)
      end
  end.

(** [strings.Split(s, sep)] for a separator of one character: the pieces
    between the separators, one more than there are separators. *)
Fixpoint Split (s : string) (sep : ascii) : list string :=
  match s with
  | EmptyString => [EmptyString]
  | String c s' =>
      match Split s' sep with
      | piece :: pieces =>
          if Ascii.eqb c sep then EmptyString :: piece :: pieces
          else String c piece :: pieces
      | [] => []
      end
  end.

(** The texts of the service's and the registry's errors ([err.Error()]);
    the texts of errors that come from the Go runtime are a parameter. *)
Definition ErrorText (runtimeText : error → string) (e : error) : string :=
  match e with
  | ErrTaskNotFound => "задача не найдена"
  | ErrTooManyLinks => "превышено максимальное количество ссылок (максимум 3)"
  | ErrInvalidFile => "недопустимый тип файла"
  | ErrFileTooLarge => "файл слишком большой"
  | ErrServerBusy => "сервер занят: максимум 3 активные задачи"
  | ErrRepo => "задача не найдена"
  | _ => runtimeText e
  end.

(** What a handler writes: the status code and the JSON object, a map from
    strings to strings or to integers. *)
Inductive payload :=
| PayloadStrings (m : gmap string string)
| PayloadInts (m : gmap string Z).

Record Response := mkResponse { StatusCode : Z; Payload : payload }.

Record Request := mkRequest { Path : string; RequestBody : string }.

Definition StatusOK : Z := 200.
Definition StatusCreated201 : Z := 201.
Definition StatusAccepted : Z := 202.
Definition StatusBadRequest : Z := 400.
Definition StatusNotFound : Z := 404.
Definition StatusInternalServerError : Z := 500.
Definition StatusServiceUnavailable : Z := 503.

Module handlers.

Definition respondWithJSON (status : Z) (p : payload) : Response := mkResponse status p.

Definition respondWithError (status : Z) (message : string) : Response :=
  respondWithJSON status (PayloadStrings {[ "error" := message ]}).

Section Handlers.

(** The JSON decoder of the request body (the "urls" field of the object, or
    an error), [url.ParseRequestURI] as a test, the texts of runtime errors,
    and what the service needs. *)
Variable decodeURLs : string → option (list string).
Variable ParseRequestURI : string → bool.
Variable runtimeText : error → string.
Variable ToLower : string → string.
Variable env : Env.

Definition CreateTask (s : TaskService) (w : World) : Response * TaskService * World :=
  match CreateTask s with
  | (Err err, s) =>
      if Contains (ErrorText runtimeText err) "сервер занят"
      then (respondWithError StatusServiceUnavailable (ErrorText runtimeText err), s, w)
      else (respondWithError StatusInternalServerError "Ошибка создания задачи", s,
            logmsg LevelError "Ошибка создания задачи" w)
  | (Ok taskID, s) =>
      (respondWithJSON StatusCreated201 (PayloadInts {[ "Задача номер: " := taskID ]}), s, w)
  end.

(** The first steps of AddLinks and GetStatus: the path is split at the
    slashes and its third piece is read as the task ID. *)
Definition taskIDOfPath (path : string) : Response + Z :=
  let parts := Split path "/" in
  if (length parts <? 3)%nat then inl (respondWithError StatusBadRequest "Неверный формат URL")
  else
    match ParseInt (default EmptyString (parts !! 2%nat)) with
    | None => inl (respondWithError StatusBadRequest "Неверный формат ID задачи")
    | Some taskID => inr taskID
    end.

Definition AddLinks (r : Request) (s : TaskService) (w : World)
  : Response * TaskService * World :=
  match taskIDOfPath (Path r) with
  | inl resp => (resp, s, w)
  | inr taskID =>
      match decodeURLs (RequestBody r) with
      | None => (respondWithError StatusBadRequest "Неверный формат запроса", s, w)
      | Some urls =>
          if negb (forallb ParseRequestURI urls)
          then (respondWithError StatusBadRequest "Неверный формат URL", s, w)
          else
            match AddLinks s taskID urls with
            | (Some err, s) =>
                match err with
                | ErrTaskNotFound =>
                    (respondWithError StatusNotFound "Задача не найдена", s, w)
                | ErrTooManyLinks =>
                    (respondWithError StatusBadRequest "В эту задачу уже добавлено 3 ссылки",
                     s, w)
                | _ =>
                    (respondWithError StatusInternalServerError "Ошибка обработки задачи", s,
                     logmsg LevelError "Ошибка добавления ссылок" w)
                end
            | (None, s) =>
                (respondWithJSON StatusAccepted
                   (PayloadStrings {[ "message" := "Ссылки добавлены, обработка начата" ]}),
                 s, w)
            end
      end
  end.

Definition GetStatus (r : Request) (s : TaskService) (w : World)
  : Response * TaskService * World :=
  match taskIDOfPath (Path r) with
  | inl resp => (resp, s, w)
  | inr taskID =>
      match GetStatus ToLower env s w taskID with
      | (Err err, s, w) =>
          match err with
          | ErrTaskNotFound => (respondWithError StatusNotFound "Задача не найдена", s, w)
          | _ =>
              (respondWithError StatusInternalServerError "Ошибка получения статуса", s,
               logmsg LevelError "Ошибка получения статуса" w)
          end
      | (Ok status, s, w) => (respondWithJSON StatusOK (PayloadStrings status), s, w)
      end
  end.

End Handlers.

End handlers.

(** A decoder and a URL test for the examples: the body is the list of
    URLs separated by commas, and a URL must start with "http". *)
Definition decodeCommas (body : string) : option (list string) :=
  match body with
  | EmptyString => None
  | _ => Some (Split body ",")
  end.

Definition startsHttp (u : string) : bool := String.prefix "http" u.

Definition noText (e : error) : string := "".


(** ** internal/config: Load *)

(** [strings.SplitN(s, sep, 2)] for a separator of one character: the
    string cut at the first separator, or the string alone. *)
Fixpoint cutAt (sep : ascii) (s : string) : option (string * string) :=
  match s with
  | EmptyString => None
  | String c s' =>
      if Ascii.eqb c sep then Some (EmptyString, s')
      else match cutAt sep s' with
           | Some (a, b) => Some (String c a, b)
           | None => None
           end
  end.

Definition SplitN2 (s : string) (sep : ascii) : list string :=
  match cutAt sep s with
  | Some (a, b) => [a; b]
  | None => [s]
  end.

(** [strings.Trim(s, cutset)]: leading and trailing characters of the
    cutset are dropped. *)
Fixpoint trimLeft (cut : ascii → bool) (s : string) : string :=
  match s with
  | EmptyString => EmptyString
  | String c s' => if cut c then trimLeft cut s' else s
  end.

Definition Trim (cut : ascii → bool) (s : string) : string :=
  String.rev (trimLeft cut (String.rev (trimLeft cut s))).

Definition isBracket (c : ascii) : bool := Ascii.eqb c "[" || Ascii.eqb c "]".

Definition newline : ascii := ascii_of_nat 10.

Module config.

(** The configuration as the file declares it; the service reads the
    port, the maximal size and the extensions. *)
Record Config := mkConfig {
  ServerPort : Z;
  ServerTimeout : Z;            (* time.Duration, in nanoseconds *)
  FileMaxSize : Z;
  FileAllowedExtensions : list string
}.

Definition zeroConfig : Config := mkConfig 0 0 0 [].

Inductive LoadError :=
| ErrReadFile
| ErrParsePort | ErrPortNotPositive
| ErrParseTimeout | ErrTimeoutNotPositive
| ErrParseMaxSize | ErrMaxSizeNotPositive
| ErrEmptyExtension | ErrNoExtensions
| ErrPortMissing | ErrTimeoutMissing | ErrMaxSizeMissing | ErrExtensionsMissing.

Section Load.

(** [strings.TrimSpace] (Unicode white space) and [time.ParseDuration] are
    parameters; [strconv.Atoi] on a 64-bit platform reads what
    [strconv.ParseInt(s, 10, 64)] reads. *)
Variable TrimSpace : string → string.
Variable ParseDuration : string → option Z.

(** The loop over the extensions: each is trimmed, an empty one is an
    error. *)
Fixpoint trimExtensions (extensions : list string) : option (list string) :=
  match extensions with
  | [] => Some []
  | ext :: rest =>
      let ext := TrimSpace ext in
      if String.eqb ext "" then None
      else match trimExtensions rest with
           | Some exts => Some (ext :: exts)
           | None => None
           end
  end.

(** The body of the loop over the lines. *)
Definition applyLine (cfg : Config) (line : string) : LoadError + Config :=
  let line := TrimSpace line in
  if String.eqb line "" || String.prefix "#" line then inr cfg
  else
    match SplitN2 line "=" with
    | [k; v] =>
        let key := TrimSpace k in
        let value := TrimSpace v in
        if String.eqb key "SERVER_PORT" then
          match ParseInt value with
          | None => inl ErrParsePort
          | Some port =>
              if (port <=? 0)%Z then inl ErrPortNotPositive
              else inr (mkConfig port (ServerTimeout cfg) (FileMaxSize cfg)
                                 (FileAllowedExtensions cfg))
          end
        else if String.eqb key "SERVER_TIMEOUT" then
          match ParseDuration value with
          | None => inl ErrParseTimeout
          | Some timeout =>
              if (timeout <=? 0)%Z then inl ErrTimeoutNotPositive
              else inr (mkConfig (ServerPort cfg) timeout (FileMaxSize cfg)
                                 (FileAllowedExtensions cfg))
          end
        else if String.eqb key "FILE_MAX_SIZE" then
          match ParseInt value with
          | None => inl ErrParseMaxSize
          | Some maxSize =>
              if (maxSize <=? 0)%Z then inl ErrMaxSizeNotPositive
              else inr (mkConfig (ServerPort cfg) (ServerTimeout cfg) maxSize
                                 (FileAllowedExtensions cfg))
          end
        else if String.eqb key "FILE_ALLOWED_EXTENSIONS" then
          match trimExtensions (Split (Trim isBracket value) ",") with
          | None => inl ErrEmptyExtension
          | Some extensions =>
              if (length extensions =? 0)%nat then inl ErrNoExtensions
              else inr (mkConfig (ServerPort cfg) (ServerTimeout cfg) (FileMaxSize cfg)
                                 extensions)
          end
        else inr cfg
    | _ => inr cfg
    end.

Fixpoint loadLines (cfg : Config) (lines : list string) : LoadError + Config :=
  match lines with
  | [] => inr cfg
  | line :: rest =>
      match applyLine cfg line with
      | inl e => inl e
      | inr cfg => loadLines cfg rest
      end
  end.

(** [Load], given what [os.ReadFile] returned ([None]: an error). *)
Definition Load (data : option string) : LoadError + Config :=
  match data with
  | None => inl ErrReadFile
  | Some data =>
      match loadLines zeroConfig (Split data newline) with
      | inl e => inl e
      | inr cfg =>
          if (ServerPort cfg =? 0)%Z then inl ErrPortMissing
          else if (ServerTimeout cfg =? 0)%Z then inl ErrTimeoutMissing
          else if (FileMaxSize cfg =? 0)%Z then inl ErrMaxSizeMissing
          else if (length (FileAllowedExtensions cfg) =? 0)%nat then inl ErrExtensionsMissing
          else inr cfg
      end
  end.

(** Whether a line of the file assigns the given key. *)
Definition assigns (key line : string) : Prop :=
  ∃ k v, SplitN2 (TrimSpace line) "=" = [k; v] ∧ TrimSpace k = key.

End Load.

End config.

(** What main hands to the service. *)
Definition serviceConfig (c : config.Config) : Config :=
  mkConfig (config.ServerPort c) (config.FileMaxSize c) (config.FileAllowedExtensions c).

(** For the examples: trimming of ASCII blanks, durations written as a
    number of seconds followed by "s", and a small file. *)
Definition isBlank (c : ascii) : bool :=
  let n := nat_of_ascii c in ((9 <=? n) && (n <=? 13))%nat || (n =? 32)%nat.

Definition trimBlanks (s : string) : string := Trim isBlank s.

Definition secondsDuration (s : string) : option Z :=
  match String.rev s with
  | String "s" digits => (fun n => n * 1000000000) <$> ParseInt (String.rev digits)
  | _ => None
  end.

Definition envFile : string :=
  "# server" +:+ String newline
  ("SERVER_PORT = 8080" +:+ String newline
  ("SERVER_TIMEOUT=10s" +:+ String newline
  ("FILE_MAX_SIZE=10485760" +:+ String newline
  ("FILE_ALLOWED_EXTENSIONS=[jpg, png]" +:+ String newline "")))).


(** What holds of the configuration while the lines are read: a field is
    unset (zero, no extensions) or has passed its check. *)
Definition checked (cfg : config.Config) : Prop :=
  0 ≤ config.ServerPort cfg ≤ int64_max ∧
  0 ≤ config.ServerTimeout cfg ∧
  0 ≤ config.FileMaxSize cfg ≤ int64_max ∧
  ∀ ext, ext ∈ config.FileAllowedExtensions cfg → ext ≠ "".



(** ** The specification's reading of the type check and of the archive *)








(** The requests one ledger URL can cause: none, a HEAD, a GET, or a HEAD
    followed by a GET. *)
Definition request_block (u : string) (b : list (method * string)) : Prop :=
  b = [] ∨ b = [(HEAD, u)] ∨ b = [(GET, u)] ∨ b = [(HEAD, u); (GET, u)].



(** * Properties *)

(** ** The runtime pieces on examples *)

Example Ext_url : Ext "http://h/photo.JPG" = ".JPG".
Proof. reflexivity. Qed.

Example Ext_query : Ext "http://h/photo.jpg?size=2" = ".jpg?size=2".
Proof. reflexivity. Qed.

Example Ext_none : Ext "http://h.org/photo" = "".
Proof. reflexivity. Qed.

Example Ext_host_only : Ext "http://h.org" = ".org".
Proof. reflexivity. Qed.

Example Base_download : Base "../downloads/Task_01_1.jpg" = "Task_01_1.jpg".
Proof. reflexivity. Qed.

Example Base_trailing : Base "a/b//" = "b".
Proof. reflexivity. Qed.

Example Base_slashes : Base "///" = "/".
Proof. reflexivity. Qed.

Example Base_empty : Base "" = ".".
Proof. reflexivity. Qed.

Example Contains_png : Contains "image/png; charset=binary" "png" = true.
Proof. reflexivity. Qed.

Example Contains_not : Contains "text/html" "png" = false.
Proof. reflexivity. Qed.

Example zipName_1 : zipName 1 = "Task_01".
Proof. reflexivity. Qed.

Example zipName_12 : zipName 12 = "Task_12".
Proof. reflexivity. Qed.

Example zipName_123 : zipName 123 = "Task_123".
Proof. reflexivity. Qed.

Example wrap64_top : wrap64 (int64_max + 1) = int64_min.
Proof. reflexivity. Qed.

(** ** Arithmetic of the counters *)

Lemma wrap64_id (z : Z) : int64_min ≤ z ≤ int64_max → wrap64 z = z.
Proof.
  unfold int64_min, int64_max, wrap64. intros Hz.
  rewrite Z.mod_small; lia.
Qed.

Lemma AddInt64_exact (c d : Z) :
  int64_min ≤ c + d ≤ int64_max → AddInt64 c d = c + d.
Proof. apply wrap64_id. Qed.

(** ** Decimal forms *)

Lemma pretty_N_go_length (x : N) (s : string) :
  (String.length s ≤ String.length (pretty_N_go x s))%nat.
Proof.
  revert s. induction (N.lt_wf_0 x) as [x _ IH]. intros s.
  destruct (decide (x = 0%N)) as [->|Hx].
  - rewrite pretty_N_go_0. lia.
  - rewrite pretty_N_go_step by lia.
    etrans; [|apply IH; apply N.div_lt; lia]. simpl. lia.
Qed.

Lemma FormatInt_length_small (n : Z) :
  0 ≤ n < 10 → String.length (FormatInt n) = 1%nat.
Proof.
  intros Hn.
  assert (n = 0 ∨ n = 1 ∨ n = 2 ∨ n = 3 ∨ n = 4 ∨ n = 5 ∨ n = 6 ∨ n = 7
          ∨ n = 8 ∨ n = 9) as Hc by lia.
  repeat (destruct Hc as [->|Hc]; [reflexivity|]). subst n. reflexivity.
Qed.

Lemma FormatInt_length_large (n : Z) :
  10 ≤ n → (2 ≤ String.length (FormatInt n))%nat.
Proof.
  intros Hn. destruct n as [|p|p]; try lia.
  unfold FormatInt, pretty, pretty_Z, pretty, pretty_positive, pretty, pretty_N.
  destruct (decide (N.pos p = 0%N)) as [|_]; [lia|].
  assert (10 ≤ N.pos p)%N as Hp by lia.
  assert (0 < N.pos p `div` 10)%N as Hq.
  { apply N.div_str_pos. lia. }
  rewrite pretty_N_go_step by lia.
  rewrite pretty_N_go_step by exact Hq.
  etrans; [|apply pretty_N_go_length]. simpl. lia.
Qed.

(** The base name the code builds is the specification's zero-padded one. *)
Lemma zipName_pad2 (n : Z) : 0 ≤ n → zipName n = "Task_" +:+ pad2 n.
Proof.
  intros Hn. unfold zipName, pad2.
  destruct (Z.ltb_spec n 10) as [Hlt|Hge].
  - rewrite FormatInt_length_small by lia. reflexivity.
  - pose proof (FormatInt_length_large n Hge) as Hl.
    destruct (Nat.ltb_spec (String.length (FormatInt n)) 2); [lia|reflexivity].
Qed.

(** ** The registry *)

Lemma SaveTask_eq (Tasks : gmap Z Task) (task : Task) :
  SaveTask Tasks task = (<[ID task := task]> Tasks, None).
Proof. reflexivity. Qed.

Lemma GetTask_Some (Tasks : gmap Z Task) (id : Z) (task : Task) :
  Tasks !! id = Some task → GetTask Tasks id = Ok task.
Proof. intros H. unfold GetTask. by rewrite H. Qed.

Lemma GetTask_None (Tasks : gmap Z Task) (id : Z) :
  Tasks !! id = None → GetTask Tasks id = Err ErrRepo.
Proof. intros H. unfold GetTask. by rewrite H. Qed.

(** ** CreateTask and AddLinks, one call at a time *)

Lemma CreateTask_busy (s : TaskService) :
  3 ≤ activeTasksCounter s → CreateTask s = (Err ErrServerBusy, s).
Proof.
  intros H. unfold CreateTask.
  destruct (Z.leb_spec 3 (activeTasksCounter s)); [reflexivity|lia].
Qed.

Lemma CreateTask_free (s : TaskService) :
  activeTasksCounter s < 3 →
  CreateTask s =
    (Ok (AddInt64 (taskCounter s) 1),
     mkService
       (<[AddInt64 (taskCounter s) 1 :=
            mkTask (AddInt64 (taskCounter s) 1) StatusCreated []
                   (zipPath +:+ "/" +:+ zipName (AddInt64 (taskCounter s) 1))]> (repo s))
       (cfg s) (AddInt64 (taskCounter s) 1) (AddInt64 (activeTasksCounter s) 1)
       (filesCounter s) (<[AddInt64 (taskCounter s) 1 := []]> (urlsByTask s))).
Proof.
  intros H. unfold CreateTask.
  destruct (Z.leb_spec 3 (activeTasksCounter s)); [lia|reflexivity].
Qed.

Lemma AddLinks_not_found (s : TaskService) (taskID : Z) (urls : list string) :
  repo s !! taskID = None → AddLinks s taskID urls = (Some ErrTaskNotFound, s).
Proof. intros H. unfold AddLinks. by rewrite (GetTask_None _ _ H). Qed.

Lemma AddLinks_too_many (s : TaskService) (taskID : Z) (urls : list string) (task : Task) :
  repo s !! taskID = Some task →
  (3 ≤ length (ledger s taskID) ∨ 3 < length (ledger s taskID) + length urls)%nat →
  AddLinks s taskID urls = (Some ErrTooManyLinks, s).
Proof.
  intros H Hlen. unfold AddLinks. rewrite (GetTask_Some _ _ _ H).
  destruct (Z.leb_spec 3 (Z.of_nat (length (ledger s taskID)))); [reflexivity|].
  destruct (Z.ltb_spec 3 (Z.of_nat (length (ledger s taskID)) + Z.of_nat (length urls)));
    [reflexivity|lia].
Qed.

Lemma AddLinks_accepted (s : TaskService) (taskID : Z) (urls : list string) (task : Task) :
  repo s !! taskID = Some task →
  (length (ledger s taskID) < 3)%nat →
  (length (ledger s taskID) + length urls ≤ 3)%nat →
  AddLinks s taskID urls =
    (None,
     mkService (<[ID task := with_Status StatusInProgress task]> (repo s))
       (cfg s) (taskCounter s) (activeTasksCounter s) (filesCounter s)
       (<[taskID := ledger s taskID ++ urls]> (urlsByTask s))).
Proof.
  intros H Hlt Hle. unfold AddLinks. rewrite (GetTask_Some _ _ _ H).
  destruct (Z.leb_spec 3 (Z.of_nat (length (ledger s taskID)))); [lia|].
  destruct (Z.ltb_spec 3 (Z.of_nat (length (ledger s taskID)) + Z.of_nat (length urls)));
    [lia|reflexivity].
Qed.

(** AddLinks only ever answers with one of its two own errors, and then
    leaves the service as it was. *)
Lemma AddLinks_outcomes (s : TaskService) (taskID : Z) (urls : list string) :
  fst (AddLinks s taskID urls) = None ∨
  ((fst (AddLinks s taskID urls) = Some ErrTaskNotFound ∨
    fst (AddLinks s taskID urls) = Some ErrTooManyLinks) ∧
   snd (AddLinks s taskID urls) = s).
Proof.
  unfold AddLinks. destruct (GetTask (repo s) taskID); simpl; [|by auto].
  repeat case_match; simpl; auto.
Qed.

(** C10. The registry's SaveTask is total and never returns an error: it
    always answers nil and stores the task under its ID.  Hence the
    save-failure branches of CreateTask and AddLinks are dead: CreateTask
    either refuses with ServerBusy and changes nothing, or returns an ID
    whose task is stored and whose counter increment is matched by that
    task (no increment without a saved task); AddLinks either succeeds or
    answers TaskNotFound or TooManyLinks with the service unchanged. *)
Theorem SaveTask_never_fails :
  (∀ (Tasks : gmap Z Task) (task : Task),
      snd (SaveTask Tasks task) = None ∧
      fst (SaveTask Tasks task) !! ID task = Some task) ∧
  (∀ s : TaskService,
      CreateTask s = (Err ErrServerBusy, s) ∨
      ∃ taskID,
        fst (CreateTask s) = Ok taskID ∧
        is_Some (repo (snd (CreateTask s)) !! taskID) ∧
        activeTasksCounter (snd (CreateTask s)) = AddInt64 (activeTasksCounter s) 1) ∧
  (∀ (s : TaskService) (taskID : Z) (urls : list string),
      fst (AddLinks s taskID urls) = None ∨
      ((fst (AddLinks s taskID urls) = Some ErrTaskNotFound ∨
        fst (AddLinks s taskID urls) = Some ErrTooManyLinks) ∧
       snd (AddLinks s taskID urls) = s)).
Proof.
  split; [|split].
  - intros Tasks task. rewrite SaveTask_eq. simpl. split; [reflexivity|].
    apply lookup_insert_eq.
  - intros s. destruct (Z.le_gt_cases 3 (activeTasksCounter s)) as [Hb|Hf].
    + left. by apply CreateTask_busy.
    + right. rewrite CreateTask_free by lia. eexists. simpl.
      split; [reflexivity|]. split; [|reflexivity].
      rewrite lookup_insert_eq. by eexists.
  - apply AddLinks_outcomes.
Qed.

(** C4. AddLinks answers TaskNotFound for an ID that was never saved; for a
    saved task it answers TooManyLinks when the ledger already holds three or
    more URLs or when the new URLs would bring it above three; in each of
    these cases the service (ledger and stored task included) is unchanged.
    Otherwise it succeeds: the URLs are appended to the ledger in the order
    given, the stored task gets the status in_progress, and nothing else
    changes. *)
Theorem AddLinks_spec (s : TaskService) (taskID : Z) (urls : list string) :
  (repo s !! taskID = None →
     AddLinks s taskID urls = (Some ErrTaskNotFound, s)) ∧
  (∀ task, repo s !! taskID = Some task →
     (3 ≤ length (ledger s taskID) ∨ 3 < length (ledger s taskID) + length urls)%nat →
     AddLinks s taskID urls = (Some ErrTooManyLinks, s)) ∧
  (∀ task, repo s !! taskID = Some task → ID task = taskID →
     (length (ledger s taskID) < 3)%nat →
     (length (ledger s taskID) + length urls ≤ 3)%nat →
     ∃ s', AddLinks s taskID urls = (None, s') ∧
           ledger s' taskID = ledger s taskID ++ urls ∧
           repo s' !! taskID = Some (with_Status StatusInProgress task) ∧
           (∀ other, other ≠ taskID →
              repo s' !! other = repo s !! other ∧ ledger s' other = ledger s other) ∧
           taskCounter s' = taskCounter s ∧
           activeTasksCounter s' = activeTasksCounter s ∧
           filesCounter s' = filesCounter s).
Proof.
  split; [|split].
  - apply AddLinks_not_found.
  - intros task. apply AddLinks_too_many.
  - intros task Ht Hid Hlt Hle. eexists. split.
    + by apply (AddLinks_accepted s taskID urls task).
    + unfold ledger at 1. simpl. rewrite Hid.
      rewrite !lookup_insert_eq. simpl. repeat split; try reflexivity.
      * by rewrite lookup_insert_ne.
      * unfold ledger. simpl. by rewrite lookup_insert_ne.
Qed.

(** ** What the pipeline stages leave alone *)

Section Frames.

Variable ToLower : string → string.
Variable env : Env.

Lemma same_but_files_refl (s : TaskService) : same_but_files s s.
Proof. by repeat split. Qed.

Lemma same_but_files_trans (s1 s2 s3 : TaskService) :
  same_but_files s1 s2 → same_but_files s2 s3 → same_but_files s1 s3.
Proof.
  unfold same_but_files. intros (?&?&?&?&?) (?&?&?&?&?).
  repeat split; congruence.
Qed.

Lemma downloadFile_frame (s s' : TaskService) (w w' : World) (url : string) (taskID : Z)
  (r : result string) :
  downloadFile ToLower env s w url taskID = (r, s', w') → same_but_files s s'.
Proof.
  unfold downloadFile, fetch. intros H.
  repeat case_match; simplify_eq; by repeat split.
Qed.

Lemma downloadAll_frame (urls : list string) :
  ∀ (s s' : TaskService) (w w' : World) (taskID : Z) (files files' : list string),
    downloadAll ToLower env s w urls taskID files = (files', s', w') →
    same_but_files s s'.
Proof.
  induction urls as [|u rest IH]; intros s s' w w' taskID files files' H; simpl in H.
  - simplify_eq. apply same_but_files_refl.
  - destruct (downloadFile ToLower env s w u taskID) as [[r s1] w1] eqn:Hd.
    apply downloadFile_frame in Hd.
    destruct r; apply IH in H; by eapply same_but_files_trans.
Qed.

Lemma GetStatus_few_links (s : TaskService) (w : World) (taskID : Z) (task : Task) :
  repo s !! taskID = Some task →
  (length (ledger s taskID) < 3)%nat →
  GetStatus ToLower env s w taskID = (Ok {[ "status" := StatusInProgress ]}, s, w).
Proof.
  intros Ht Hlen. unfold GetStatus. rewrite (GetTask_Some _ _ _ Ht).
  destruct (Z.leb_spec 3 (Z.of_nat (length (ledger s taskID)))); [lia|reflexivity].
Qed.

(** C5. For every stored task whose ledger holds fewer than three URLs,
    GetStatus answers in_progress and changes nothing: the service (registry,
    ledger and the three counters) and the world (local storage, requests
    sent, log) are those from before the call. *)
Theorem GetStatus_polling_pure (s : TaskService) (w : World) (taskID : Z) (task : Task) :
  repo s !! taskID = Some task →
  (length (ledger s taskID) < 3)%nat →
  ∃ r s' w',
    GetStatus ToLower env s w taskID = (Ok r, s', w') ∧
    r = {[ "status" := StatusInProgress ]} ∧
    repo s' = repo s ∧ urlsByTask s' = urlsByTask s ∧
    taskCounter s' = taskCounter s ∧
    activeTasksCounter s' = activeTasksCounter s ∧
    filesCounter s' = filesCounter s ∧
    s' = s ∧
    disk w' = disk w ∧ requests w' = requests w ∧ logs w' = logs w.
Proof.
  intros Ht Hlen. exists {[ "status" := StatusInProgress ]}, s, w.
  rewrite (GetStatus_few_links s w taskID task Ht Hlen). by split_and!.
Qed.

Lemma GetStatus_not_found (s : TaskService) (w : World) (taskID : Z) :
  repo s !! taskID = None →
  GetStatus ToLower env s w taskID = (Err ErrTaskNotFound, s, w).
Proof. intros H. unfold GetStatus. by rewrite (GetTask_None _ _ H). Qed.

(** The three ways the pipeline can end, for a stored task with a full
    ledger. *)
Lemma GetStatus_pipeline (s : TaskService) (w : World) (taskID : Z) (task : Task) :
  repo s !! taskID = Some task →
  (3 ≤ length (ledger s taskID))%nat →
  ∀ files s1 w1,
    downloadAll ToLower env s w (ledger s taskID) taskID [] = (files, s1, w1) →
    GetStatus ToLower env s w taskID =
      if (Z.of_nat (length files) =? 0)%Z then
        (Ok {[ "status" := "failed" ]},
         set_repo (<[ID task := with_Status StatusFailed task]> (repo s1)) s1, w1)
      else
        match createZipArchive env s1 w1 taskID files with
        | (Err _, w2) =>
            (Ok {[ "status" := StatusFailed ]},
             set_repo (<[ID task := with_Status StatusFailed task]> (repo s1)) s1,
             logmsg LevelError msgArchive w2)
        | (Ok archivePath, w2) =>
            let w3 := match fst (deleteFiles env w2 files) with
                      | Some _ => logmsg LevelError msgDelete (snd (deleteFiles env w2 files))
                      | None => snd (deleteFiles env w2 files)
                      end in
            let s2 := set_activeTasksCounter (AddInt64 (activeTasksCounter s1) (-1)) s1 in
            (Ok (<[ "archive_url" := archiveURL (ServerPort (cfg s1)) archivePath ]>
                   (<[ "status" := StatusCompleted ]> {[ "status" := StatusInProgress ]})),
             set_repo (<[ID task :=
                           with_ArchivePath archivePath (with_Status StatusCompleted task)]>
                         (repo s2)) s2,
             w3)
        end.
Proof.
  intros Ht Hlen files s1 w1 Hd. unfold GetStatus. rewrite (GetTask_Some _ _ _ Ht).
  destruct (Z.leb_spec 3 (Z.of_nat (length (ledger s taskID)))); [|lia].
  rewrite Hd. destruct (Z.of_nat (length files) =? 0)%Z; [reflexivity|].
  destruct (createZipArchive env s1 w1 taskID files) as [[ap|e] w2]; [|reflexivity].
  destruct (deleteFiles env w2 files) as [[e|] w3]; reflexivity.
Qed.

End Frames.

(** ** Runs: what every reachable state satisfies *)

Section RunInvariants.

Variable ToLower : string → string.
Variable env : Env.

Lemma createZipArchive_Ok (s : TaskService) (w w' : World) (taskID : Z)
  (files : list string) (archivePath : string) :
  createZipArchive env s w taskID files = (Ok archivePath, w') →
  archivePath = folderPath +:+ zipName taskID +:+ ".zip".
Proof.
  unfold createZipArchive. intros H.
  destruct (fs_fault env OpMkdirAll zipPath); [done|].
  destruct (fs_fault env OpCreate _); [done|].
  destruct (addFiles env _ files []) as [[[e|] es] w2]; by simplify_eq.
Qed.

Lemma GetStatus_service (s s' : TaskService) (w w' : World) (taskID : Z)
  (r : result (gmap string string)) :
  GetStatus ToLower env s w taskID = (r, s', w') → GetStatus_effect s taskID s'.
Proof.
  intros H. unfold GetStatus_effect.
  destruct (repo s !! taskID) as [task|] eqn:Ht.
  2:{ rewrite GetStatus_not_found in H by done. simplify_eq. by auto 10. }
  destruct (le_lt_dec 3 (length (ledger s taskID))) as [Hfull|Hfew].
  2:{ rewrite (GetStatus_few_links _ _ _ _ _ task) in H by (done || lia).
      simplify_eq. by auto 10. }
  destruct (downloadAll ToLower env s w (ledger s taskID) taskID [])
    as [[files s1] w1] eqn:Hd.
  rewrite (GetStatus_pipeline _ _ _ _ _ task Ht Hfull files s1 w1 Hd) in H.
  apply downloadAll_frame in Hd as (Hr & Hc & Htc & Ha & Hu).
  destruct s1 as [r1 c1 tc1 a1 f1 u1]. simpl in Hr, Hc, Htc, Ha, Hu. subst r1 c1 tc1 a1 u1.
  destruct (Z.of_nat (length files) =? 0)%Z.
  { simplify_eq. simpl. repeat split; try done.
    right; left. by exists task. }
  match type of H with context [createZipArchive ?e ?a ?b ?c ?d] =>
    destruct (createZipArchive e a b c d) as [[ap|e'] w2] eqn:Hz end.
  - apply createZipArchive_Ok in Hz as ->.
    cbv zeta in H. simplify_eq. simpl. repeat split; try done.
    right; right. by exists task.
  - simplify_eq. simpl. repeat split; try done.
    right; left. by exists task.
Qed.

Lemma Inv_weaken (n m : Z) (s : TaskService) : Inv n s → n ≤ m → Inv m s.
Proof.
  intros (Ha & Htc & Hrepo & Hled) Hnm. unfold Inv. split_and!; try lia; done.
Qed.

Lemma Inv_initial (c : Config) : Inv 0 (NewTaskService c).
Proof.
  unfold Inv. simpl. split_and!; try lia.
  - intros id task H. by rewrite lookup_empty in H.
  - intros id l H. by rewrite lookup_empty in H.
Qed.

Lemma Inv_CreateTask (n : Z) (s : TaskService) :
  Inv n s → 0 ≤ n < int64_max → Inv (n + 1) (snd (CreateTask s)).
Proof.
  intros HI Hn. unfold int64_max in Hn.
  destruct (Z.le_gt_cases 3 (activeTasksCounter s)) as [Hb|Hf].
  { rewrite CreateTask_busy by done. simpl. apply (Inv_weaken n); [done|lia]. }
  destruct HI as (Ha & Htc & Hrepo & Hled).
  rewrite CreateTask_free by lia. simpl.
  rewrite !AddInt64_exact by (unfold int64_min, int64_max; lia).
  unfold Inv. simpl. split_and!; try lia.
  - intros id task H.
    destruct (decide (taskCounter s + 1 = id)) as [<-|Hne].
    + rewrite lookup_insert_eq in H. simplify_eq. simpl. lia.
    + rewrite lookup_insert_ne in H by done. apply Hrepo in H. lia.
  - intros id l H.
    destruct (decide (taskCounter s + 1 = id)) as [<-|Hne].
    + rewrite !lookup_insert_eq in *. simplify_eq. simpl. split; [lia|by eexists].
    + rewrite lookup_insert_ne in H by done. rewrite lookup_insert_ne by done.
      by apply Hled in H.
Qed.

Lemma Inv_AddLinks (n : Z) (s : TaskService) (taskID : Z) (urls : list string) :
  Inv n s → Inv n (snd (AddLinks s taskID urls)).
Proof.
  intros HI.
  destruct (repo s !! taskID) as [task|] eqn:Ht.
  2:{ by rewrite AddLinks_not_found. }
  destruct (le_lt_dec 3 (length (ledger s taskID))) as [Hfull|Hfew].
  { rewrite (AddLinks_too_many _ _ _ task) by (done || lia). done. }
  destruct (le_lt_dec (length (ledger s taskID) + length urls) 3) as [Hfit|Hover].
  2:{ rewrite (AddLinks_too_many _ _ _ task) by (done || lia). done. }
  rewrite (AddLinks_accepted _ _ _ task) by (done || lia). simpl.
  destruct HI as (Ha & Htc & Hrepo & Hled).
  destruct (Hrepo _ _ Ht) as [Hid Hrange].
  unfold Inv. simpl. rewrite Hid. split_and!; try lia.
  - intros id t H.
    destruct (decide (taskID = id)) as [<-|Hne].
    + rewrite lookup_insert_eq in H. simplify_eq. simpl. lia.
    + rewrite lookup_insert_ne in H by done. by apply Hrepo in H.
  - intros id l H.
    destruct (decide (taskID = id)) as [<-|Hne].
    + rewrite !lookup_insert_eq in *. simplify_eq.
      split; [|by eexists]. rewrite length_app. lia.
    + rewrite lookup_insert_ne in H by done. rewrite lookup_insert_ne by done.
      by apply Hled in H.
Qed.

Lemma Inv_GetStatus (n : Z) (s s' : TaskService) (taskID : Z) :
  Inv n s → 0 ≤ n < int64_max → GetStatus_effect s taskID s' → Inv (n + 1) s'.
Proof.
  intros (Ha & Htc & Hrepo & Hled) Hn (Hc & Hct & Hu & Hcases).
  unfold int64_max in Hn.
  assert (∀ task st ap,
    repo s !! taskID = Some task →
    (∀ id t, <[ID task := mkTask (ID task) st (URLs task) ap]> (repo s) !! id = Some t →
             ID t = id ∧ 1 ≤ id ≤ taskCounter s) ∧
    (∀ id l, urlsByTask s !! id = Some l →
             (length l ≤ 3)%nat ∧
             is_Some (<[ID task := mkTask (ID task) st (URLs task) ap]> (repo s) !! id)))
    as Hins.
  { intros task st ap Ht. destruct (Hrepo _ _ Ht) as [Hid Hrange]. rewrite Hid. split.
    - intros id t H. destruct (decide (taskID = id)) as [<-|Hne].
      + rewrite lookup_insert_eq in H. simplify_eq. simpl. lia.
      + rewrite lookup_insert_ne in H by done. by apply Hrepo in H.
    - intros id l H. destruct (Hled _ _ H) as [Hl Hs]. split; [done|].
      destruct (decide (taskID = id)) as [<-|Hne].
      + rewrite lookup_insert_eq. by eexists.
      + by rewrite lookup_insert_ne. }
  unfold Inv. rewrite Hct, Hu.
  destruct Hcases as [[Hr Hact]|[(task & Ht & Hr & Hact)|(task & Ht & Hr & Hact)]];
    rewrite Hr, Hact.
  - split_and!; try lia; done.
  - destruct (Hins task StatusFailed (ArchivePath task) Ht) as [H1 H2].
    split_and!; try lia; done.
  - destruct (Hins task StatusCompleted (folderPath +:+ zipName taskID +:+ ".zip") Ht)
      as [H1 H2].
    rewrite AddInt64_exact by (unfold int64_min, int64_max; lia).
    split_and!; try lia; done.
Qed.

Lemma Inv_exec (n : Z) (c : call) (s : TaskService) (w : World) :
  Inv n s → 0 ≤ n < int64_max → Inv (n + 1) (fst (exec ToLower env c (s, w))).
Proof.
  intros HI Hn. destruct c as [|taskID urls|taskID]; simpl.
  - by apply Inv_CreateTask.
  - apply (Inv_weaken n); [by apply Inv_AddLinks|lia].
  - destruct (GetStatus ToLower env s w taskID) as [[r s'] w'] eqn:Hg. simpl.
    apply GetStatus_service in Hg. by eapply Inv_GetStatus.
Qed.

Lemma Inv_run (calls : list call) :
  ∀ (n : Z) (s : TaskService) (w : World),
    Inv n s → 0 ≤ n → n + Z.of_nat (length calls) ≤ int64_max →
    Inv (n + Z.of_nat (length calls)) (fst (run ToLower env calls (s, w))).
Proof.
  induction calls as [|c rest IH]; intros n s w HI Hn Hlen.
  - simpl. by rewrite Z.add_0_r.
  - cbn [run]. destruct (exec ToLower env c (s, w)) as [s1 w1] eqn:He.
    assert (n + Z.of_nat (length (c :: rest)) = (n + 1) + Z.of_nat (length rest))
      as Heq by (cbn [length]; lia).
    rewrite Heq in *. apply IH; [|lia|lia].
    replace s1 with (fst (exec ToLower env c (s, w))) by (by rewrite He).
    apply Inv_exec; [done|lia].
Qed.

(** Every state a fresh process reaches within [int64_max] calls. *)
Lemma Inv_reachable (c : Config) (calls : list call) :
  Z.of_nat (length calls) ≤ int64_max →
  Inv (Z.of_nat (length calls)) (fst (run ToLower env calls (initial c))).
Proof.
  intros Hlen. apply (Inv_run calls 0); [apply Inv_initial|lia|lia].
Qed.

Lemma AddLinks_taskCounter (s : TaskService) (taskID : Z) (urls : list string) :
  taskCounter (snd (AddLinks s taskID urls)) = taskCounter s.
Proof.
  unfold AddLinks. destruct (GetTask (repo s) taskID); [|done].
  repeat case_match; done.
Qed.

(** One call either hands out the next ID, or leaves the task counter. *)
Lemma exec_taskCounter (n : Z) (c : call) (s s1 : TaskService) (w w1 : World) :
  Inv n s → 0 ≤ n < int64_max → exec ToLower env c (s, w) = (s1, w1) →
  (c = CallCreateTask ∧ CreateTask s = (Ok (taskCounter s + 1), s1) ∧
   taskCounter s1 = taskCounter s + 1) ∨
  (taskCounter s1 = taskCounter s ∧
   (c = CallCreateTask → CreateTask s = (Err ErrServerBusy, s))).
Proof.
  intros (Ha & Htc & _) Hn He. unfold int64_max in Hn.
  destruct c as [|taskID urls|taskID]; simpl in He.
  - destruct (Z.le_gt_cases 3 (activeTasksCounter s)) as [Hb|Hf].
    + right. rewrite CreateTask_busy in * by done. by simplify_eq.
    + left. rewrite CreateTask_free in * by lia. simpl in He.
      rewrite !AddInt64_exact in * by (unfold int64_min, int64_max; lia).
      by simplify_eq.
  - right. simplify_eq. split; [apply AddLinks_taskCounter|done].
  - right. destruct (GetStatus ToLower env s w taskID) as [[r s'] w'] eqn:Hg.
    simplify_eq. apply GetStatus_service in Hg as (_ & Ht & _). done.
Qed.

(** The IDs handed out during a run lie above the task counter the run
    started from and at most at the one it ends with. *)
Lemma allocated_bounds (calls : list call) :
  ∀ (n : Z) (s : TaskService) (w : World),
    Inv n s → 0 ≤ n → n + Z.of_nat (length calls) ≤ int64_max →
    taskCounter s ≤ taskCounter (fst (run ToLower env calls (s, w))) ∧
    ∀ id, id ∈ allocated ToLower env calls (s, w) →
          taskCounter s < id ≤ taskCounter (fst (run ToLower env calls (s, w))).
Proof.
  induction calls as [|c rest IH]; intros n s w HI Hn Hlen.
  - simpl. split; [lia|]. intros id H. by apply elem_of_nil in H.
  - assert (n + 1 + Z.of_nat (length rest) ≤ int64_max) as Hlen'
      by (cbn [length] in Hlen; lia).
    assert (0 ≤ n < int64_max) as Hn' by lia.
    cbn [run allocated]. destruct (exec ToLower env c (s, w)) as [s1 w1] eqn:He.
    assert (Inv (n + 1) s1) as HI1.
    { replace s1 with (fst (exec ToLower env c (s, w))) by (by rewrite He).
      by apply Inv_exec. }
    destruct (IH (n + 1) s1 w1 HI1 ltac:(lia) Hlen') as [Hmono Hall].
    destruct (exec_taskCounter n c s s1 w w1 HI Hn' He)
      as [(-> & Hc & Hs1)|[Hs1 Hbusy]].
    + simpl. rewrite Hc. split; [lia|]. intros id Hin.
      apply elem_of_cons in Hin as [->|Hin]; [lia|].
      apply Hall in Hin. lia.
    + split; [lia|]. intros id Hin.
      assert (id ∈ allocated ToLower env rest (s1, w1)) as Hin'.
      { destruct c; try done. simpl in Hin. by rewrite (Hbusy eq_refl) in Hin. }
      apply Hall in Hin'. lia.
Qed.

(** C3 (amended). In every state a fresh process reaches, CreateTask answers
    ServerBusy exactly when the active-task counter is at the cap of 3, and
    then changes nothing.  Otherwise it hands out the ID one above the task
    counter, which is above every ID handed out before and above every ID
    stored; it stores under that ID a task with status created and with
    ArchivePath already set to "../archives/Task_" followed by the ID
    zero-padded to 2 digits; it gives the ID an empty ledger, adds one to the
    active-task counter and leaves everything else as it was. *)
Theorem CreateTask_spec (c : Config) (calls : list call) :
  Z.of_nat (length calls) < int64_max →
  let s := fst (run ToLower env calls (initial c)) in
  (activeTasksCounter s = 3 → CreateTask s = (Err ErrServerBusy, s)) ∧
  (fst (CreateTask s) = Err ErrServerBusy → activeTasksCounter s = 3) ∧
  (activeTasksCounter s ≠ 3 →
     let taskID := taskCounter s + 1 in
     CreateTask s =
       (Ok taskID,
        mkService
          (<[taskID := mkTask taskID StatusCreated []
                              (zipPath +:+ "/" +:+ "Task_" +:+ pad2 taskID)]> (repo s))
          (cfg s) taskID (activeTasksCounter s + 1) (filesCounter s)
          (<[taskID := []]> (urlsByTask s))) ∧
     (∀ id, id ∈ allocated ToLower env calls (initial c) → id < taskID) ∧
     (∀ id, is_Some (repo s !! id) → id < taskID)).
Proof.
  intros Hlen s.
  pose proof (Inv_reachable c calls ltac:(lia)) as HI. fold s in HI.
  destruct (allocated_bounds calls 0 (NewTaskService c) emptyWorld (Inv_initial c)
              ltac:(lia) ltac:(lia)) as [_ Hall].
  fold (initial c) in Hall. fold s in Hall.
  destruct HI as (Ha & Htc & Hrepo & Hled). unfold int64_max in *.
  split_and!.
  - intros H3. apply CreateTask_busy. lia.
  - intros Hbusy. destruct (Z.le_gt_cases 3 (activeTasksCounter s)) as [Hb|Hf]; [lia|].
    rewrite CreateTask_free in Hbusy by lia. done.
  - intros Hne. split_and!.
    + rewrite CreateTask_free by lia.
      rewrite !AddInt64_exact by (unfold int64_min, int64_max; lia).
      rewrite (zipName_pad2 (taskCounter s + 1)) by lia. reflexivity.
    + intros id Hin. apply Hall in Hin. lia.
    + intros id [task Ht]. apply Hrepo in Ht. lia.
Qed.

End RunInvariants.

(** ** CreateTask on concrete states *)

(** C3, as the claim words it, fails on the very first creation: the stored
    task has status created and its ArchivePath is not empty. *)
Lemma CreateTask_ArchivePath_not_empty :
  fst (CreateTask (NewTaskService cfgImages)) = Ok 1 ∧
  ∃ task, repo (snd (CreateTask (NewTaskService cfgImages))) !! 1 = Some task ∧
          Status task = StatusCreated ∧
          ArchivePath task = "../archives/Task_01" ∧
          ArchivePath task ≠ "".
Proof.
  split; [reflexivity|]. eexists. split; [vm_compute; reflexivity|].
  simpl. split_and!; [reflexivity|reflexivity|discriminate].
Qed.

Lemma CreateTask_spec_witness :
  CreateTask (NewTaskService cfgImages) =
    (Ok 1,
     mkService (<[1 := mkTask 1 StatusCreated [] "../archives/Task_01"]> ∅)
               cfgImages 1 1 0 (<[1 := []]> ∅)) ∧
  (fst (CreateTask (NewTaskService cfgImages)) = Err ErrServerBusy →
   activeTasksCounter (NewTaskService cfgImages) = 3).
Proof.
  destruct (CreateTask_spec asciiToLower envDown cfgImages [] eq_refl) as (_ & H2 & H3).
  split; [|exact H2].
  destruct (H3 ltac:(discriminate)) as (H & _). exact H.
Defined.

(** ** The download stage *)






Lemma find_existsb_true {A} (f : A → bool) (l : list A) :
  existsb f l = true → ∃ x, List.find f l = Some x ∧ x ∈ l ∧ f x = true.
Proof.
  induction l as [|a l IH]; simpl; [done|].
  destruct (f a) eqn:Hf; simpl.
  - intros _. exists a. split_and!; [done|by left|done].
  - intros H. destruct (IH H) as (x & ? & ? & ?). exists x. split_and!; [done|by right|done].
Qed.


Section Download.

Variable ToLower : string → string.
Variable env : Env.








(** C8 (amended). Once the type check has passed and the GET has been
    answered, downloadFile fails with FileTooLarge when the declared content
    length exceeds the configured maximum, and then stores nothing.  In
    every other case (a length declared as unknown, -1, is one of them) the
    size is not looked at again: unless creating the file fails, the body is
    written to the file in full, whatever its length. *)
Theorem downloadFile_size_check (s : TaskService) (w w1 : World) (url : string)
  (taskID : Z) (ext : string) (resp : GetResponse) :
  checkType ToLower env s w url = (Ok ext, w1) →
  new_request_ok env url = true →
  get_response env (length (requests w1)) url = Some resp →
  (FileMaxSize (cfg s) < ContentLength resp →
     downloadFile ToLower env s w url taskID = (Err ErrFileTooLarge, s, send GET url w1)) ∧
  (ContentLength resp ≤ FileMaxSize (cfg s) →
     let c := AddInt64 (filesCounter s) 1 in
     let fileName := folderPathImg +:+ "/" +:+ preffileName taskID c +:+ ext in
     fs_fault env OpMkdirAll folderPathImg = false →
     fs_fault env OpCreate fileName = false →
     downloadFile ToLower env s w url taskID =
       (if BodyErr resp then Err ErrBody else Ok fileName,
        set_filesCounter c s,
        write_file fileName (Raw (Body resp)) (send GET url w1))).
Proof.
  intros Hcheck Hok Hresp. unfold downloadFile. rewrite Hcheck. unfold fetch.
  rewrite Hok. simpl. rewrite Hresp. split.
  - intros Hbig.
    destruct (Z.ltb_spec (FileMaxSize (cfg s)) (ContentLength resp)); [done|lia].
  - intros Hfit. cbv zeta. intros Hmk Hcr.
    destruct (Z.ltb_spec (FileMaxSize (cfg s)) (ContentLength resp)); [lia|].
    simpl. rewrite Hmk, Hcr. by destruct (BodyErr resp).
Qed.

End Download.

(** ** The archive stage and the cleanup *)








Section Archive.

Variable ToLower : string → string.
Variable env : Env.

Lemma addFiles_all (files : list string) :
  ∀ (w : World) (entries : list (string * FileData)),
    (∀ p, p ∈ files → is_Some (disk w !! p) ∧ fs_fault env OpOpen p = false) →
    (∀ p, p ∈ files → fs_fault env OpZipCreate (Base p) = false ∧
                      fs_fault env OpCopy p = false) →
    ∃ es, addFiles env w files entries = (None, entries ++ es, w) ∧
          Forall2 (entry_of w) files es.
Proof.
  induction files as [|p rest IH]; intros w entries Hall Hadd; simpl.
  - exists []. by rewrite app_nil_r.
  - destruct (Hall p ltac:(by left)) as [[d Hd] Hopen]. rewrite Hopen, Hd.
    destruct (Hadd p ltac:(by left)) as [Hzc Hcp]. rewrite Hzc, Hcp.
    destruct (IH w (entries ++ [(Base p, d)])) as (es & Heq & Hes).
    { intros q Hq. apply Hall. by right. }
    { intros q Hq. apply Hadd. by right. }
    exists ((Base p, d) :: es). rewrite Heq, <- app_assoc. split; [done|].
    by constructor.
Qed.

Lemma entry_of_frame (w w1 : World) (files : list string) (es : list (string * FileData)) :
  (∀ p, p ∈ files → disk w1 !! p = disk w !! p) →
  Forall2 (entry_of w1) files es → Forall2 (entry_of w) files es.
Proof.
  intros Hsame H. induction H as [|p e files es [Hn Hc] H IH]; [constructor|].
  constructor.
  - split; [done|]. rewrite <- Hsame; [done|by left].
  - apply IH. intros q Hq. apply Hsame. by right.
Qed.


Lemma deleteFiles_all (files : list string) :
  ∀ w : World,
    (∀ p, p ∈ files → fs_fault env OpStat p = false ∧ fs_fault env OpRemove p = false) →
    ∃ w', deleteFiles env w files = (None, w') ∧
          (∀ p, p ∈ files → disk w' !! p = None) ∧
          (∀ p, p ∉ files → disk w' !! p = disk w !! p) ∧
          requests w' = requests w ∧ logs w' = logs w.
Proof.
  induction files as [|p rest IH]; intros w Hall; simpl.
  - exists w. split_and!; try done. intros p Hp. by apply elem_of_nil in Hp.
  - destruct (Hall p ltac:(by left)) as [Hstat Hrm]. rewrite Hstat.
    assert (∀ q, q ∈ rest → fs_fault env OpStat q = false ∧ fs_fault env OpRemove q = false)
      as Hrest by (intros q Hq; apply Hall; by right).
    destruct (disk w !! p) as [d|] eqn:Hd.
    + rewrite Hrm. destruct (IH (remove_file p w) Hrest) as (w' & Heq & Hgone & Hkeep & Hr & Hl).
      exists w'. split_and!; try done.
      * intros q Hq. destruct (decide (q ∈ rest)) as [Hin|Hnin]; [by apply Hgone|].
        apply elem_of_cons in Hq as [->|Hq]; [|done].
        rewrite Hkeep by done. simpl. apply lookup_delete_eq.
      * intros q Hq. apply not_elem_of_cons in Hq as [Hne Hnin].
        rewrite Hkeep by done. simpl. by rewrite lookup_delete_ne.
    + destruct (IH w Hrest) as (w' & Heq & Hgone & Hkeep & Hr & Hl).
      exists w'. split_and!; try done.
      * intros q Hq. destruct (decide (q ∈ rest)) as [Hin|Hnin]; [by apply Hgone|].
        apply elem_of_cons in Hq as [->|Hq]; [|done]. by rewrite Hkeep.
      * intros q Hq. apply not_elem_of_cons in Hq as [Hne Hnin]. by apply Hkeep.
Qed.

(** With its files on local storage, the archive file creatable and not
    among them, and every entry creatable and every copy unbroken,
    createZipArchive succeeds and the archive holds one entry per file. *)
Lemma createZipArchive_entries (s : TaskService) (w : World) (taskID : Z)
  (files : list string) :
  let archiveName := ArchivePath (default zeroTask (repo s !! taskID)) +:+ ".zip" in
  fs_fault env OpMkdirAll zipPath = false →
  fs_fault env OpCreate archiveName = false →
  archiveName ∉ files →
  (∀ p, p ∈ files → is_Some (disk w !! p) ∧ fs_fault env OpOpen p = false) →
  (∀ p, p ∈ files → fs_fault env OpZipCreate (Base p) = false ∧
                    fs_fault env OpCopy p = false) →
  ∃ es,
    createZipArchive env s w taskID files =
      (Ok (folderPath +:+ zipName taskID +:+ ".zip"),
       write_file archiveName (Zip es) (write_file archiveName (Zip []) w)) ∧
    Forall2 (entry_of w) files es.
Proof.
  intros archiveName Hmk Hcr Hnotin Hfiles Hadd.
  unfold createZipArchive. fold archiveName. rewrite Hmk, Hcr.
  destruct (addFiles_all files (write_file archiveName (Zip []) w) []) as (es & Heq & Hes).
  { intros p Hp. destruct (Hfiles p Hp) as [Hsome Hopen]. split; [|done].
    simpl. rewrite lookup_insert_ne; [done|]. intros ->. done. }
  { exact Hadd. }
  rewrite Heq. simpl. exists es. split; [reflexivity|].
  eapply entry_of_frame; [|exact Hes]. intros p Hp. simpl.
  rewrite lookup_insert_ne; [done|]. intros ->. done.
Qed.


End Archive.

(** ** Polling a task whose ledger is full *)

Section Polling.

Variable ToLower : string → string.
Variable env : Env.

(** The download stage never reads the registry. *)
Lemma downloadFile_set_repo (r : gmap Z Task) (s : TaskService) (w : World)
  (url : string) (taskID : Z) :
  downloadFile ToLower env (set_repo r s) w url taskID =
    let '(x, s', w') := downloadFile ToLower env s w url taskID in (x, set_repo r s', w').
Proof.
  unfold downloadFile.
  change (checkType ToLower env (set_repo r s) w url) with (checkType ToLower env s w url).
  destruct (checkType ToLower env s w url) as [[ext|e] w1]; [|reflexivity].
  unfold fetch. simpl.
  repeat case_match; simplify_eq; reflexivity.
Qed.

Lemma downloadAll_set_repo (r : gmap Z Task) (urls : list string) :
  ∀ (s : TaskService) (w : World) (taskID : Z) (files : list string),
    downloadAll ToLower env (set_repo r s) w urls taskID files =
      let '(fs, s', w') := downloadAll ToLower env s w urls taskID files in
      (fs, set_repo r s', w').
Proof.
  induction urls as [|u rest IH]; intros s w taskID files; simpl; [reflexivity|].
  rewrite downloadFile_set_repo.
  destruct (downloadFile ToLower env s w u taskID) as [[[p|e] s1] w1]; apply IH.
Qed.

Lemma checkType_disk (s : TaskService) (w w1 : World) (url : string) (r : result string) :
  checkType ToLower env s w url = (r, w1) → disk w1 = disk w.
Proof.
  unfold checkType. intros H. repeat case_match; by simplify_eq.
Qed.

Lemma is_Some_insert_mono (m : gmap string FileData) (k p : string) (d : FileData) :
  is_Some (m !! p) → is_Some (<[k := d]> m !! p).
Proof.
  intros H. destruct (decide (k = p)) as [->|Hne].
  - rewrite lookup_insert_eq. by eexists.
  - by rewrite lookup_insert_ne.
Qed.

Lemma fetch_on_disk (s s' : TaskService) (w w' : World) (url : string) (taskID : Z)
  (ext : string) (r : result string) :
  fetch env s w url taskID ext = (r, s', w') →
  (∀ p, is_Some (disk w !! p) → is_Some (disk w' !! p)) ∧
  (∀ p, r = Ok p → is_Some (disk w' !! p)).
Proof.
  unfold fetch. intros H.
  destruct (negb (new_request_ok env url)); [by simplify_eq|].
  destruct (get_response env (length (requests w)) url) as [resp|]; [|by simplify_eq].
  destruct (FileMaxSize (cfg s) <? ContentLength resp)%Z; [by simplify_eq|].
  cbv zeta in H.
  destruct (fs_fault env OpMkdirAll folderPathImg); [by simplify_eq|].
  destruct (fs_fault env OpCreate _); [by simplify_eq|].
  destruct (BodyErr resp); simplify_eq; simpl; split.
  - intros p. apply is_Some_insert_mono.
  - done.
  - intros p. apply is_Some_insert_mono.
  - intros p [= <-]. rewrite lookup_insert_eq. by eexists.
Qed.

(** Files that the download loop reports are on local storage afterwards. *)
Lemma downloadFile_on_disk (s s' : TaskService) (w w' : World) (url : string) (taskID : Z)
  (r : result string) :
  downloadFile ToLower env s w url taskID = (r, s', w') →
  (∀ p, is_Some (disk w !! p) → is_Some (disk w' !! p)) ∧
  (∀ p, r = Ok p → is_Some (disk w' !! p)).
Proof.
  unfold downloadFile. intros H.
  destruct (checkType ToLower env s w url) as [[ext|e] w1] eqn:Hc;
    apply checkType_disk in Hc.
  - apply fetch_on_disk in H. by rewrite Hc in H.
  - simplify_eq. by rewrite Hc.
Qed.

Lemma downloadAll_on_disk (urls : list string) :
  ∀ (s s' : TaskService) (w w' : World) (taskID : Z) (files files' : list string),
    downloadAll ToLower env s w urls taskID files = (files', s', w') →
    (∀ p, p ∈ files → is_Some (disk w !! p)) →
    ∀ p, p ∈ files' → is_Some (disk w' !! p).
Proof.
  induction urls as [|u rest IH]; intros s s' w w' taskID files files' H Hold; simpl in H.
  - by simplify_eq.
  - destruct (downloadFile ToLower env s w u taskID) as [[r s1] w1] eqn:Hd.
    apply downloadFile_on_disk in Hd as [Hkeep Hnew].
    destruct r as [filePath|e]; eapply IH; try exact H.
    + intros p Hp. apply elem_of_app in Hp as [Hp|Hp].
      * by apply Hkeep, Hold.
      * apply list_elem_of_singleton in Hp as ->. by apply Hnew.
    + intros p Hp. simpl. by apply Hkeep, Hold.
Qed.

Lemma createZipArchive_set_repo (r : gmap Z Task) (s : TaskService) (w : World)
  (taskID : Z) (files : list string) :
  ArchivePath (default zeroTask (r !! taskID)) =
    ArchivePath (default zeroTask (repo s !! taskID)) →
  createZipArchive env (set_repo r s) w taskID files = createZipArchive env s w taskID files.
Proof. intros H. unfold createZipArchive. simpl. by rewrite H. Qed.

(** C2 (amended). GetStatus never reads the stored status.  For a stored
    task whose ledger holds three URLs, a call does exactly what it would do
    had the task any other status: a completed or failed task is put
    through the whole pipeline again.  What repeated polls share is only
    this: every poll that answers completed returns the same map (status
    completed and the URL of the task's archive), and each such poll takes
    one more off the active-task counter and stores the task as completed. *)
Theorem GetStatus_ignores_status (s : TaskService) (w : World) (taskID : Z) (task : Task) :
  repo s !! taskID = Some task →
  ID task = taskID →
  (3 ≤ length (ledger s taskID))%nat →
  (∀ st,
     GetStatus ToLower env (set_repo (<[taskID := with_Status st task]> (repo s)) s) w taskID =
     GetStatus ToLower env s w taskID) ∧
  (∀ r s' w',
     GetStatus ToLower env s w taskID = (Ok r, s', w') →
     r !! "status" = Some StatusCompleted →
     r = completedResult (cfg s) taskID ∧
     activeTasksCounter s' = AddInt64 (activeTasksCounter s) (-1) ∧
     ∃ task', repo s' !! taskID = Some task' ∧ Status task' = StatusCompleted).
Proof.
  intros Ht Hid Hfull.
  destruct (downloadAll ToLower env s w (ledger s taskID) taskID [])
    as [[files s1] w1] eqn:Hd.
  pose proof (downloadAll_frame _ _ _ _ _ _ _ _ _ _ Hd) as (Hr & Hc & Htc & Ha & Hu).
  split.
  - intros st.
    set (r := <[taskID := with_Status st task]> (repo s)).
    assert (repo (set_repo r s) !! taskID = Some (with_Status st task)) as Ht'
      by apply lookup_insert_eq.
    assert (downloadAll ToLower env (set_repo r s) w (ledger (set_repo r s) taskID) taskID []
            = (files, set_repo r s1, w1)) as Hd'.
    { change (ledger (set_repo r s) taskID) with (ledger s taskID).
      by rewrite downloadAll_set_repo, Hd. }
    rewrite (GetStatus_pipeline _ _ _ _ _ _ Ht' Hfull _ _ _ Hd').
    rewrite (GetStatus_pipeline _ _ _ _ _ _ Ht Hfull _ _ _ Hd).
    rewrite createZipArchive_set_repo.
    2:{ rewrite Hr, Ht. unfold r. by rewrite lookup_insert_eq. }
    assert (∀ x : Task, <[ID (with_Status st task) := x]> r = <[ID task := x]> (repo s1))
      as Hins.
    { intros x. simpl. rewrite Hid, Hr. unfold r. apply insert_insert_eq. }
    destruct (Z.of_nat (length files) =? 0)%Z.
    { simpl. by rewrite Hins. }
    destruct (createZipArchive env s1 w1 taskID files) as [[ap|e] w2].
    + cbv zeta. simpl. by rewrite Hins.
    + simpl. by rewrite Hins.
  - intros res s' w' Hg Hstatus.
    rewrite (GetStatus_pipeline _ _ _ _ _ _ Ht Hfull _ _ _ Hd) in Hg.
    destruct (Z.of_nat (length files) =? 0)%Z.
    { by (simplify_eq; try rewrite lookup_singleton_eq in Hstatus). }
    destruct (createZipArchive env s1 w1 taskID files) as [[ap|e] w2] eqn:Hz.
    2:{ by (simplify_eq; try rewrite lookup_singleton_eq in Hstatus). }
    apply createZipArchive_Ok in Hz as ->. cbv zeta in Hg.
    simplify_eq. simpl. rewrite Hc, Ha. split_and!; [done|done|].
    eexists. rewrite lookup_insert_eq. by split.
Qed.

End Polling.

(** ** The active-task counter along runs *)

Section Capacity.

Variable ToLower : string → string.
Variable env : Env.

Lemma AddLinks_active (s : TaskService) (taskID : Z) (urls : list string) :
  activeTasksCounter (snd (AddLinks s taskID urls)) = activeTasksCounter s.
Proof.
  unfold AddLinks. destruct (GetTask (repo s) taskID); [|done].
  repeat case_match; done.
Qed.

(** In every state a fresh process reaches, the counter is at most 3, and
    at 3 every creation is refused. *)
Lemma active_at_most_cap (c : Config) (calls : list call) :
  Z.of_nat (length calls) ≤ int64_max →
  activeTasksCounter (fst (run ToLower env calls (initial c))) ≤ 3.
Proof. intros H. destruct (Inv_reachable ToLower env c calls H) as ((_ & Hle) & _). exact Hle. Qed.

(** The counter goes down only in a GetStatus call that stores the polled
    task as completed; a call that stores it as failed leaves the counter. *)
Lemma capacity_restored_only_by_completion (n : Z) (c : call) (s s' : TaskService)
  (w w' : World) :
  Inv n s → 0 ≤ n < int64_max →
  exec ToLower env c (s, w) = (s', w') →
  activeTasksCounter s' < activeTasksCounter s →
  ∃ taskID task,
    c = CallGetStatus taskID ∧ repo s' !! taskID = Some task ∧
    Status task = StatusCompleted ∧ activeTasksCounter s' = activeTasksCounter s - 1.
Proof.
  intros HI Hn He Hlt. pose proof HI as (Ha & Htc & Hrepo & _). unfold int64_max in Hn.
  destruct c as [|taskID urls|taskID]; simpl in He.
  - exfalso. destruct (Z.le_gt_cases 3 (activeTasksCounter s)) as [Hb|Hf].
    + rewrite CreateTask_busy in He by done. simpl in He. simplify_eq. lia.
    + rewrite CreateTask_free in He by lia. simpl in He. simplify_eq. simpl in Hlt.
      rewrite AddInt64_exact in Hlt by (unfold int64_min, int64_max; lia). lia.
  - exfalso. simplify_eq/=. rewrite AddLinks_active in Hlt. lia.
  - destruct (GetStatus ToLower env s w taskID) as [[r s1] w1] eqn:Hg. simplify_eq.
    apply GetStatus_service in Hg as (_ & _ & _ & Hcases).
    destruct Hcases as [[_ Hact]|[(task & _ & _ & Hact)|(task & Ht & Hr & Hact)]];
      try lia.
    destruct (Hrepo _ _ Ht) as [Hid _].
    exists taskID, (with_ArchivePath (folderPath +:+ zipName taskID +:+ ".zip")
                      (with_Status StatusCompleted task)).
    rewrite Hr, Hid, lookup_insert_eq, Hact.
    rewrite AddInt64_exact by (unfold int64_min, int64_max; lia).
    split_and!; (done || lia).
Qed.

End Capacity.

(** ** The pipeline end to end, in reachable states *)

Section Pipeline.

Variable ToLower : string → string.
Variable env : Env.

Lemma PathInv_initial (c : Config) : PathInv (NewTaskService c).
Proof. intros id task H. simpl in H. by rewrite lookup_empty in H. Qed.

Lemma PathInv_insert (s s' : TaskService) (id : Z) (task : Task) :
  repo s' = <[id := task]> (repo s) →
  PathInv s → archive_path_ok (ArchivePath task) → PathInv s'.
Proof.
  intros Hr HP Hok id' task' H. rewrite Hr in H.
  destruct (decide (id = id')) as [<-|Hne].
  - rewrite lookup_insert_eq in H. by simplify_eq.
  - rewrite lookup_insert_ne in H by done. by eapply HP.
Qed.

Lemma PathInv_repo (s s' : TaskService) : repo s' = repo s → PathInv s → PathInv s'.
Proof. intros Hr HP id task H. rewrite Hr in H. by eapply HP. Qed.

Lemma PathInv_exec (c : call) (s : TaskService) (w : World) :
  PathInv s → PathInv (fst (exec ToLower env c (s, w))).
Proof.
  intros HP. destruct c as [|taskID urls|taskID]; simpl.
  - destruct (Z.le_gt_cases 3 (activeTasksCounter s)) as [Hb|Hf].
    + by rewrite CreateTask_busy.
    + rewrite CreateTask_free by lia. simpl.
      eapply PathInv_insert; [reflexivity|done|]. simpl. by eexists; left.
  - destruct (repo s !! taskID) as [task|] eqn:Ht.
    2:{ by rewrite AddLinks_not_found. }
    destruct (le_lt_dec 3 (length (ledger s taskID))) as [Hfull|Hfew].
    { by rewrite (AddLinks_too_many _ _ _ task) by (done || lia). }
    destruct (le_lt_dec (length (ledger s taskID) + length urls) 3) as [Hfit|Hover].
    2:{ by rewrite (AddLinks_too_many _ _ _ task) by (done || lia). }
    rewrite (AddLinks_accepted _ _ _ task) by (done || lia). simpl.
    eapply PathInv_insert; [reflexivity|done|]. simpl. by eapply HP.
  - destruct (GetStatus ToLower env s w taskID) as [[r s'] w'] eqn:Hg. simpl.
    apply GetStatus_service in Hg as (_ & _ & _ & Hcases).
    destruct Hcases as [[Hr _]|[(task & Ht & Hr & _)|(task & Ht & Hr & _)]].
    + by eapply PathInv_repo.
    + eapply PathInv_insert; [exact Hr|done|]. simpl. by eapply HP.
    + eapply PathInv_insert; [exact Hr|done|]. simpl. by eexists; right.
Qed.

Lemma PathInv_run (calls : list call) :
  ∀ (s : TaskService) (w : World),
    PathInv s → PathInv (fst (run ToLower env calls (s, w))).
Proof.
  induction calls as [|c rest IH]; intros s w HP; [done|].
  cbn [run]. pose proof (PathInv_exec c s w HP) as HP1.
  destruct (exec ToLower env c (s, w)) as [s1 w1]. by apply IH.
Qed.

(** The configuration never changes. *)
Lemma cfg_exec (c : call) (s : TaskService) (w : World) :
  cfg (fst (exec ToLower env c (s, w))) = cfg s.
Proof.
  destruct c as [|taskID urls|taskID]; simpl.
  - unfold CreateTask. by destruct (3 <=? activeTasksCounter s)%Z.
  - unfold AddLinks. destruct (GetTask (repo s) taskID); [|done].
    repeat case_match; done.
  - destruct (GetStatus ToLower env s w taskID) as [[r s'] w'] eqn:Hg. simpl.
    by apply GetStatus_service in Hg as (Hc & _).
Qed.

Lemma cfg_run (calls : list call) :
  ∀ (s : TaskService) (w : World), cfg (fst (run ToLower env calls (s, w))) = cfg s.
Proof.
  induction calls as [|c rest IH]; intros s w; [done|].
  cbn [run]. pose proof (cfg_exec c s w) as Hc.
  destruct (exec ToLower env c (s, w)) as [s1 w1]. rewrite IH. exact Hc.
Qed.

(** Downloads are stored in the download folder. *)
Lemma downloadFile_name (s s' : TaskService) (w w' : World) (url : string) (taskID : Z)
  (p : string) :
  downloadFile ToLower env s w url taskID = (Ok p, s', w') → is_download p.
Proof.
  unfold downloadFile, fetch. intros H.
  destruct (checkType ToLower env s w url) as [[ext|e] w1]; [|done].
  repeat case_match; simplify_eq. by eexists.
Qed.

Lemma downloadAll_names (urls : list string) :
  ∀ (s s' : TaskService) (w w' : World) (taskID : Z) (files files' : list string),
    downloadAll ToLower env s w urls taskID files = (files', s', w') →
    (∀ p, p ∈ files → is_download p) →
    ∀ p, p ∈ files' → is_download p.
Proof.
  induction urls as [|u rest IH]; intros s s' w w' taskID files files' H Hold; simpl in H.
  - by simplify_eq.
  - destruct (downloadFile ToLower env s w u taskID) as [[r s1] w1] eqn:Hd.
    destruct r as [filePath|e]; eapply IH; try exact H; [|done].
    apply downloadFile_name in Hd.
    intros p Hp. apply elem_of_app in Hp as [Hp|Hp]; [by apply Hold|].
    by apply list_elem_of_singleton in Hp as ->.
Qed.

(** No archive is written into the download folder. *)
Lemma archive_not_download (ap : string) :
  archive_path_ok ap → ¬ is_download (ap +:+ ".zip").
Proof.
  intros [rest [->| ->]] [rest' H]; vm_compute in H; discriminate H.
Qed.

(** The pipeline in a state a fresh process has reached, on a file system
    without faults: when at least one download succeeds, the poll answers
    completed, the archive named after the stored ArchivePath holds exactly
    the downloaded files, and all of them are gone from local storage. *)
Lemma pipeline_archives_downloads (c : Config) (calls : list call) (taskID : Z)
  (task : Task) (files : list string) (s1 : TaskService) (w1 : World) :
  let st := run ToLower env calls (initial c) in
  (∀ op p, fs_fault env op p = false) →
  repo (fst st) !! taskID = Some task →
  (3 ≤ length (ledger (fst st) taskID))%nat →
  downloadAll ToLower env (fst st) (snd st) (ledger (fst st) taskID) taskID [] = (files, s1, w1) →
  files ≠ [] →
  ∃ s' w' entries,
    GetStatus ToLower env (fst st) (snd st) taskID = (Ok (completedResult c taskID), s', w') ∧
    disk w' !! (ArchivePath task +:+ ".zip") = Some (Zip entries) ∧
    Forall2 (entry_of w1) files entries ∧
    (∀ p, p ∈ files → disk w' !! p = None).
Proof.
  intros st Hnf Ht Hfull Hd Hne.
  assert (PathInv (fst st)) as HP by (apply PathInv_run, PathInv_initial).
  assert (cfg (fst st) = c) as Hcfg by apply cfg_run.
  pose proof (downloadAll_frame _ _ _ _ _ _ _ _ _ _ Hd) as (Hr & Hc & _ & _ & _).
  assert (∀ p, p ∈ files → is_download p) as Hnames.
  { eapply downloadAll_names; [exact Hd|]. intros p Hp. by apply elem_of_nil in Hp. }
  assert (∀ p, p ∈ files → is_Some (disk w1 !! p)) as Hdisk.
  { eapply downloadAll_on_disk; [exact Hd|]. intros p Hp. by apply elem_of_nil in Hp. }
  destruct (createZipArchive_entries env s1 w1 taskID files) as (es & Hz & Hes).
  { apply Hnf. }
  { apply Hnf. }
  { rewrite Hr, Ht. simpl. intros Hin.
    apply (archive_not_download (ArchivePath task)); [by eapply HP|by apply Hnames]. }
  { intros p Hp. split; [by apply Hdisk|apply Hnf]. }
  { intros p Hp. split; apply Hnf. }
  rewrite Hr, Ht in Hz. simpl in Hz.
  rewrite (GetStatus_pipeline _ _ _ _ _ task Ht Hfull files s1 w1 Hd).
  destruct (Z.eqb_spec (Z.of_nat (length files)) 0) as [H0|_].
  { destruct files; [done|simpl in H0; lia]. }
  rewrite Hz. cbv zeta.
  destruct (deleteFiles_all env files
              (write_file (ArchivePath task +:+ ".zip") (Zip es)
                 (write_file (ArchivePath task +:+ ".zip") (Zip []) w1)))
    as (w2 & Hdel & Hgone & Hkeep & _).
  { intros p _. split; apply Hnf. }
  rewrite Hdel. simpl. eexists _, w2, es. split_and!.
  - unfold completedResult. by rewrite Hc, Hcfg.
  - rewrite Hkeep.
    + simpl. apply lookup_insert_eq.
    + intros Hin. apply (archive_not_download (ArchivePath task)); [by eapply HP|].
      by apply Hnames.
  - exact Hes.
  - exact Hgone.
Qed.

End Pipeline.

(** ** The service on concrete runs *)

(** C1. Three tasks are created, given three links each and polled while
    the network is down.  Every one of them ends failed, a terminal state,
    yet none of the three decrements gives its slot back: the counter stays
    at 3 and the next creation is refused with ServerBusy although no task
    is active any more. *)
Theorem failed_tasks_keep_their_slots :
  let s := fst (run asciiToLower envDown threeTasksPolled (initial cfgImages)) in
  (Status <$> repo s !! 1) = Some StatusFailed ∧
  (Status <$> repo s !! 2) = Some StatusFailed ∧
  (Status <$> repo s !! 3) = Some StatusFailed ∧
  activeTasksCounter s = 3 ∧
  CreateTask s = (Err ErrServerBusy, s).
Proof. vm_compute. by split_and!. Qed.

(** The same run on a network that answers: every task completes and the
    counter is back at 0. *)
Example completed_tasks_free_their_slots :
  let s := fst (run asciiToLower envUp threeTasksPolled (initial cfgImages)) in
  (Status <$> repo s !! 1) = Some StatusCompleted ∧
  (Status <$> repo s !! 2) = Some StatusCompleted ∧
  (Status <$> repo s !! 3) = Some StatusCompleted ∧
  activeTasksCounter s = 0.
Proof. vm_compute. by split_and!. Qed.

(** C6. A task with three links is polled while the network is down: no
    download succeeds.  The stored status becomes the failed status of the
    registry, no archive is created (local storage stays empty), but the
    map returned carries the literal "failed", which is not the stored
    status value. *)
Theorem GetStatus_failed_literal_differs :
  let st := run asciiToLower envDown oneTaskReady (initial cfgImages) in
  let '(r, s', w') := GetStatus asciiToLower envDown (fst st) (snd st) 1 in
  r = Ok {[ "status" := "failed" ]} ∧
  (Status <$> repo s' !! 1) = Some StatusFailed ∧
  disk w' = ∅ ∧
  "failed" ≠ StatusFailed.
Proof. vm_compute. by split_and!. Qed.

(** C2, as the claim words it, fails.  A task completed by a first poll is
    polled again on the same network: the three URLs are requested again,
    three more files are counted, a second archive is written and the
    active-task counter drops below zero.  On a network that has gone down
    after the first poll, the second poll turns the completed task into a
    failed one and answers differently from the first. *)
Lemma GetStatus_reruns_completed :
  (let st := run asciiToLower envUp oneTaskPolled (initial cfgImages) in
   let '(r, s', w') := GetStatus asciiToLower envUp (fst st) (snd st) 1 in
   (Status <$> repo (fst st) !! 1) = Some StatusCompleted ∧
   length (requests (snd st)) = 3%nat ∧ length (requests w') = 6%nat ∧
   filesCounter (fst st) = 3 ∧ filesCounter s' = 6 ∧
   activeTasksCounter (fst st) = 0 ∧ activeTasksCounter s' = -1 ∧
   disk (snd st) !! "archives/Task_01.zip.zip" = None ∧
   disk w' !! "archives/Task_01.zip.zip" ≠ None) ∧
  (let st := run asciiToLower envFlaky oneTaskReady (initial cfgImages) in
   let '(r1, s1, w1) := GetStatus asciiToLower envFlaky (fst st) (snd st) 1 in
   let '(r2, s2, w2) := GetStatus asciiToLower envFlaky s1 w1 1 in
   r1 = Ok (completedResult cfgImages 1) ∧
   (Status <$> repo s1 !! 1) = Some StatusCompleted ∧
   r2 = Ok {[ "status" := "failed" ]} ∧
   (Status <$> repo s2 !! 1) = Some StatusFailed ∧
   r1 ≠ r2).
Proof. vm_compute. by split_and!. Qed.

(** C8, as the claim words it, fails.  With a limit of two bytes and an
    answer that declares no length, the three-byte body is stored in full:
    a file larger than the configured maximum is persisted. *)
Lemma downloadFile_unknown_length_unbounded :
  let s := NewTaskService cfgTiny in
  let '(r, s', w') := downloadFile asciiToLower envNoLength s emptyWorld "http://h/a.jpg" 1 in
  r = Ok "../downloads/Task_01_1.jpg" ∧
  disk w' !! "../downloads/Task_01_1.jpg" = Some (Raw abc) ∧
  FileMaxSize (cfg s) < Z.of_nat (length abc).
Proof. vm_compute. by split_and!. Qed.

(** ** The general statements at concrete inputs *)

Lemma AddLinks_spec_witness :
  AddLinks oneTask 7 threeLinks = (Some ErrTaskNotFound, oneTask) ∧
  AddLinks oneTask 1 fourLinks = (Some ErrTooManyLinks, oneTask) ∧
  ∃ s', AddLinks oneTask 1 threeLinks = (None, s') ∧
        ledger s' 1 = threeLinks ∧
        (Status <$> repo s' !! 1) = Some StatusInProgress.
Proof.
  split_and!.
  - apply (proj1 (AddLinks_spec oneTask 7 threeLinks)). vm_compute. reflexivity.
  - apply (proj1 (proj2 (AddLinks_spec oneTask 1 fourLinks))
             (mkTask 1 StatusCreated [] "../archives/Task_01")).
    + vm_compute. reflexivity.
    + right. vm_compute. lia.
  - destruct (proj2 (proj2 (AddLinks_spec oneTask 1 threeLinks))
                (mkTask 1 StatusCreated [] "../archives/Task_01"))
      as (s' & Heq & Hled & Hrepo & _).
    + vm_compute. reflexivity.
    + reflexivity.
    + vm_compute. lia.
    + vm_compute. lia.
    + exists s'. split_and!; [exact Heq|exact Hled|by rewrite Hrepo].
Defined.

Lemma GetStatus_polling_pure_witness :
  ∃ r s' w',
    GetStatus asciiToLower envUp oneTask emptyWorld 1 = (Ok r, s', w') ∧
    r = {[ "status" := StatusInProgress ]} ∧ s' = oneTask ∧ disk w' = ∅.
Proof.
  destruct (GetStatus_polling_pure asciiToLower envUp oneTask emptyWorld 1
              (mkTask 1 StatusCreated [] "../archives/Task_01"))
    as (r & s' & w' & Hg & Hr & _ & _ & _ & _ & _ & Hs & Hd & _).
  - vm_compute. reflexivity.
  - vm_compute. lia.
  - exists r, s', w'. by split_and!.
Defined.



Lemma downloadFile_size_check_witness :
  downloadFile asciiToLower envUp (NewTaskService cfgTiny) emptyWorld "http://h/a.jpg" 1 =
    (Err ErrFileTooLarge, NewTaskService cfgTiny, send GET "http://h/a.jpg" emptyWorld) ∧
  downloadFile asciiToLower envNoLength (NewTaskService cfgTiny) emptyWorld
               "http://h/a.jpg" 1 =
    (Ok "../downloads/Task_01_1.jpg",
     set_filesCounter 1 (NewTaskService cfgTiny),
     write_file "../downloads/Task_01_1.jpg" (Raw abc)
                (send GET "http://h/a.jpg" emptyWorld)).
Proof.
  split.
  - apply (proj1 (downloadFile_size_check asciiToLower envUp (NewTaskService cfgTiny)
                    emptyWorld emptyWorld "http://h/a.jpg" 1 ".jpg" (mkGet 3 abc false)
                    eq_refl eq_refl eq_refl)).
    simpl. lia.
  - apply (proj2 (downloadFile_size_check asciiToLower envNoLength (NewTaskService cfgTiny)
                    emptyWorld emptyWorld "http://h/a.jpg" 1 ".jpg" (mkGet (-1) abc false)
                    eq_refl eq_refl eq_refl)).
    + simpl. lia.
    + reflexivity.
    + reflexivity.
Defined.


Lemma GetStatus_ignores_status_witness :
  GetStatus asciiToLower envUp
    (set_repo (<[1 := mkTask 1 StatusCompleted [] "../archives/Task_01"]> (repo oneTaskFull))
              oneTaskFull) emptyWorld 1 =
  GetStatus asciiToLower envUp oneTaskFull emptyWorld 1.
Proof.
  destruct (GetStatus_ignores_status asciiToLower envUp oneTaskFull emptyWorld 1
              (mkTask 1 StatusInProgress [] "../archives/Task_01")) as [H _].
  - vm_compute. reflexivity.
  - reflexivity.
  - vm_compute. lia.
  - exact (H StatusCompleted).
Defined.

(** * Further properties of the code *)

(** ** The registry as a map *)

(** X1. SaveTask followed by GetTask is a round trip: the task saved is the
    task read under its ID, every other ID reads as before, and a second
    save under the same ID replaces the first without adding a record. *)
Theorem SaveTask_GetTask_roundtrip (Tasks : gmap Z Task) (task task' : Task) (id : Z) :
  GetTask (fst (SaveTask Tasks task)) (ID task) = Ok task ∧
  (id ≠ ID task → GetTask (fst (SaveTask Tasks task)) id = GetTask Tasks id) ∧
  (ID task' = ID task →
     fst (SaveTask (fst (SaveTask Tasks task)) task') = fst (SaveTask Tasks task') ∧
     size (fst (SaveTask (fst (SaveTask Tasks task)) task')) = size (fst (SaveTask Tasks task))).
Proof.
  unfold SaveTask, GetTask. simpl. split_and!.
  - by rewrite lookup_insert_eq.
  - intros Hne. by rewrite lookup_insert_ne.
  - intros Hid. rewrite Hid. rewrite insert_insert_eq. split; [done|].
    destruct (Tasks !! ID task) as [old|] eqn:Hold.
    + rewrite !map_size_insert_Some; [done|by eexists|by eexists].
    + by rewrite !map_size_insert_None.
Qed.

Lemma SaveTask_GetTask_roundtrip_witness :
  GetTask (fst (SaveTask (fst (SaveTask ∅ (mkTask 1 StatusCreated [] "a")))
                         (mkTask 2 StatusCreated [] "b"))) 1
  = Ok (mkTask 1 StatusCreated [] "a").
Proof.
  rewrite (proj1 (proj2 (SaveTask_GetTask_roundtrip
                           (fst (SaveTask ∅ (mkTask 1 StatusCreated [] "a")))
                           (mkTask 2 StatusCreated [] "b")
                           (mkTask 2 StatusCreated [] "b") 1))).
  - reflexivity.
  - simpl. lia.
Defined.

(** ** The life of tasks along runs *)

Lemma run_app (ToLower : string → string) (env : Env) (calls1 calls2 : list call) :
  ∀ st, run ToLower env (calls1 ++ calls2) st =
        run ToLower env calls2 (run ToLower env calls1 st).
Proof. induction calls1 as [|c rest IH]; intros st; [done|]. simpl. apply IH. Qed.

Section Lifecycle.

Variable ToLower : string → string.
Variable env : Env.

(** A poll of a task that is unknown or has fewer than three links leaves
    the service as it is. *)
Lemma GetStatus_idle (s s' : TaskService) (w w' : World) (taskID : Z)
  (r : result (gmap string string)) :
  GetStatus ToLower env s w taskID = (r, s', w') →
  (length (ledger s taskID) < 3)%nat → s' = s ∧ w' = w.
Proof.
  intros H Hfew. destruct (repo s !! taskID) as [task|] eqn:Ht.
  - rewrite (GetStatus_few_links _ _ _ _ _ task Ht Hfew) in H. by simplify_eq.
  - rewrite GetStatus_not_found in H by done. by simplify_eq.
Qed.

Lemma ledger_eq (s s' : TaskService) (id : Z) :
  urlsByTask s' = urlsByTask s → ledger s' id = ledger s id.
Proof. unfold ledger. by intros ->. Qed.

Lemma DenseInv_exec (n : Z) (c : call) (s : TaskService) (w : World) :
  Inv n s → 0 ≤ n < int64_max → DenseInv s →
  DenseInv (fst (exec ToLower env c (s, w))).
Proof.
  intros HI Hn HD. pose proof HI as (Ha & Htc & Hrepo & Hled). unfold int64_max in Hn.
  destruct c as [|taskID urls|taskID]; simpl.
  - destruct (Z.le_gt_cases 3 (activeTasksCounter s)) as [Hb|Hf].
    { by rewrite CreateTask_busy. }
    rewrite CreateTask_free by lia. simpl.
    rewrite !AddInt64_exact by (unfold int64_min, int64_max; lia).
    intros id Hid. simpl in *.
    destruct (decide (taskCounter s + 1 = id)) as [<-|Hne].
    + rewrite !lookup_insert_eq. split; by eexists.
    + rewrite !lookup_insert_ne by done. apply HD. lia.
  - destruct (repo s !! taskID) as [task|] eqn:Ht.
    2:{ by rewrite AddLinks_not_found. }
    destruct (le_lt_dec 3 (length (ledger s taskID))) as [Hfull|Hfew].
    { by rewrite (AddLinks_too_many _ _ _ task) by (done || lia). }
    destruct (le_lt_dec (length (ledger s taskID) + length urls) 3) as [Hfit|Hover].
    2:{ by rewrite (AddLinks_too_many _ _ _ task) by (done || lia). }
    rewrite (AddLinks_accepted _ _ _ task) by (done || lia). simpl.
    destruct (Hrepo _ _ Ht) as [Hid _]. rewrite Hid.
    intros id Hrange. simpl in *. destruct (HD id Hrange) as [H1 H2].
    destruct (decide (taskID = id)) as [<-|Hne].
    + rewrite !lookup_insert_eq. split; by eexists.
    + by rewrite !lookup_insert_ne.
  - destruct (GetStatus ToLower env s w taskID) as [[r s'] w'] eqn:Hg. simpl.
    apply GetStatus_service in Hg as (_ & Hct & Hu & Hcases).
    intros id Hrange. rewrite Hct in Hrange. rewrite Hu.
    destruct (HD id Hrange) as [H1 H2]. split; [|done].
    destruct Hcases as [[Hr _]|[(task & Ht & Hr & _)|(task & Ht & Hr & _)]];
      rewrite Hr; [done| |];
      (destruct (decide (ID task = id)) as [<-|Hne];
       [rewrite lookup_insert_eq; by eexists|by rewrite lookup_insert_ne]).
Qed.

Lemma DenseInv_run (calls : list call) :
  ∀ (n : Z) (s : TaskService) (w : World),
    Inv n s → 0 ≤ n → n + Z.of_nat (length calls) ≤ int64_max → DenseInv s →
    DenseInv (fst (run ToLower env calls (s, w))).
Proof.
  induction calls as [|c rest IH]; intros n s w HI Hn Hlen HD; [done|].
  cbn [run length] in *.
  pose proof (Inv_exec ToLower env n c s w HI ltac:(lia)) as HI1.
  pose proof (DenseInv_exec n c s w HI ltac:(lia) HD) as HD1.
  destruct (exec ToLower env c (s, w)) as [s1 w1].
  apply (IH (n + 1)); [done|lia|lia|done].
Qed.

(** X2. Task IDs are handed out densely: in every state a fresh process
    reaches, the IDs that have a stored task are exactly 1, 2, ..., up to
    the task counter, and the IDs that have a ledger are the same ones. *)
Theorem task_ids_dense (c : Config) (calls : list call) (id : Z) :
  Z.of_nat (length calls) ≤ int64_max →
  let s := fst (run ToLower env calls (initial c)) in
  (is_Some (repo s !! id) ↔ 1 ≤ id ≤ taskCounter s) ∧
  (is_Some (urlsByTask s !! id) ↔ 1 ≤ id ≤ taskCounter s).
Proof.
  intros Hlen s.
  pose proof (Inv_reachable ToLower env c calls Hlen) as (_ & _ & Hrepo & Hled).
  assert (DenseInv s) as HD.
  { apply (DenseInv_run calls 0); [apply Inv_initial|lia|lia|].
    intros i Hi. simpl in Hi. lia. }
  fold s in Hrepo, Hled. split; split.
  - intros [task Ht]. by apply Hrepo in Ht as [_ ?].
  - intros Hr. by apply HD.
  - intros [l Hl]. apply Hled in Hl as [_ [task Ht]]. by apply Hrepo in Ht as [_ ?].
  - intros Hr. by apply HD.
Qed.

End Lifecycle.

Lemma task_ids_dense_witness :
  is_Some (repo (fst (run asciiToLower envUp threeTasksPolled (initial cfgImages))) !! 3) ∧
  ¬ is_Some (repo (fst (run asciiToLower envUp threeTasksPolled (initial cfgImages))) !! 4).
Proof.
  assert (Z.of_nat (length threeTasksPolled) ≤ int64_max) as Hlen by (vm_compute; discriminate).
  split.
  - apply (proj1 (task_ids_dense asciiToLower envUp cfgImages threeTasksPolled 3 Hlen)).
    vm_compute. split; discriminate.
  - intros H.
    apply (proj1 (task_ids_dense asciiToLower envUp cfgImages threeTasksPolled 4 Hlen)) in H.
    vm_compute in H. destruct H as [_ H]. by apply H.
Defined.

Section TaskHistory.

Variable ToLower : string → string.
Variable env : Env.

Lemma persists_refl (s : TaskService) : persists s s.
Proof. intros id. split; [done|reflexivity]. Qed.

Lemma persists_trans (s1 s2 s3 : TaskService) :
  persists s1 s2 → persists s2 s3 → persists s1 s3.
Proof.
  intros H12 H23 id. destruct (H12 id) as [Ha Hb]. destruct (H23 id) as [Hc Hd].
  split; [auto|]. by etrans.
Qed.

Lemma persists_exec (n : Z) (c : call) (s : TaskService) (w : World) :
  Inv n s → 0 ≤ n < int64_max → persists s (fst (exec ToLower env c (s, w))).
Proof.
  intros HI Hn. pose proof HI as (Ha & Htc & Hrepo & Hled). unfold int64_max in Hn.
  destruct c as [|taskID urls|taskID]; simpl.
  - destruct (Z.le_gt_cases 3 (activeTasksCounter s)) as [Hb|Hf].
    { rewrite CreateTask_busy by done. apply persists_refl. }
    rewrite CreateTask_free by lia. simpl.
    rewrite !AddInt64_exact by (unfold int64_min, int64_max; lia).
    intros id. unfold ledger. simpl.
    destruct (decide (taskCounter s + 1 = id)) as [<-|Hne].
    + rewrite !lookup_insert_eq. split; [by eexists|].
      destruct (urlsByTask s !! (taskCounter s + 1)) as [l|] eqn:Hl; [|apply prefix_nil].
      apply Hled in Hl as [_ [task Ht]]. apply Hrepo in Ht. lia.
    + rewrite !lookup_insert_ne by done. split; [done|reflexivity].
  - destruct (repo s !! taskID) as [task|] eqn:Ht.
    2:{ rewrite AddLinks_not_found by done. apply persists_refl. }
    destruct (le_lt_dec 3 (length (ledger s taskID))) as [Hfull|Hfew].
    { rewrite (AddLinks_too_many _ _ _ task) by (done || lia). apply persists_refl. }
    destruct (le_lt_dec (length (ledger s taskID) + length urls) 3) as [Hfit|Hover].
    2:{ rewrite (AddLinks_too_many _ _ _ task) by (done || lia). apply persists_refl. }
    rewrite (AddLinks_accepted _ _ _ task) by (done || lia). simpl.
    destruct (Hrepo _ _ Ht) as [Hid _]. rewrite Hid.
    intros id. unfold ledger. simpl.
    destruct (decide (taskID = id)) as [<-|Hne].
    + rewrite !lookup_insert_eq. simpl. split; [by eexists|]. by eexists.
    + rewrite !lookup_insert_ne by done. split; [done|reflexivity].
  - destruct (GetStatus ToLower env s w taskID) as [[r s'] w'] eqn:Hg. simpl.
    apply GetStatus_service in Hg as (_ & _ & Hu & Hcases).
    intros id. rewrite (ledger_eq _ _ _ Hu). split; [|reflexivity].
    destruct Hcases as [[Hr _]|[(task & Ht & Hr & _)|(task & Ht & Hr & _)]];
      rewrite Hr; [done| |];
      (intros Hs; destruct (decide (ID task = id)) as [<-|Hne];
       [rewrite lookup_insert_eq; by eexists|by rewrite lookup_insert_ne]).
Qed.

Lemma persists_run (calls : list call) :
  ∀ (n : Z) (s : TaskService) (w : World),
    Inv n s → 0 ≤ n → n + Z.of_nat (length calls) ≤ int64_max →
    persists s (fst (run ToLower env calls (s, w))).
Proof.
  induction calls as [|c rest IH]; intros n s w HI Hn Hlen; [apply persists_refl|].
  cbn [run length] in *.
  pose proof (Inv_exec ToLower env n c s w HI ltac:(lia)) as HI1.
  pose proof (persists_exec n c s w HI ltac:(lia)) as HP1.
  destruct (exec ToLower env c (s, w)) as [s1 w1].
  eapply persists_trans; [exact HP1|]. apply (IH (n + 1)); [done|lia|lia].
Qed.

(** X3. Nothing is ever taken back.  Between a state a fresh process has
    reached and any state it reaches later, every stored task is still
    stored under its ID and every ledger still begins with the links it
    held: no call deletes a task or drops or reorders an accepted link. *)
Theorem tasks_and_links_persist (c : Config) (calls1 calls2 : list call) (id : Z) :
  Z.of_nat (length (calls1 ++ calls2)) ≤ int64_max →
  let s1 := fst (run ToLower env calls1 (initial c)) in
  let s2 := fst (run ToLower env (calls1 ++ calls2) (initial c)) in
  (is_Some (repo s1 !! id) → is_Some (repo s2 !! id)) ∧
  ledger s1 id `prefix_of` ledger s2 id.
Proof.
  intros Hlen s1 s2. rewrite length_app, Nat2Z.inj_add in Hlen.
  unfold s2. rewrite run_app.
  pose proof (Inv_reachable ToLower env c calls1 ltac:(lia)) as HI. fold s1 in HI.
  destruct (run ToLower env calls1 (initial c)) as [s w] eqn:Hrun. simpl in s1.
  apply (persists_run calls2 (Z.of_nat (length calls1)) s w); [exact HI|lia|lia].
Qed.

Lemma StatusInv_exec (n : Z) (c : call) (s : TaskService) (w : World) :
  Inv n s → 0 ≤ n < int64_max → StatusInv s →
  StatusInv (fst (exec ToLower env c (s, w))).
Proof.
  intros HI Hn HS. pose proof HI as (Ha & Htc & Hrepo & Hled). unfold int64_max in Hn.
  destruct c as [|taskID urls|taskID]; simpl.
  - destruct (Z.le_gt_cases 3 (activeTasksCounter s)) as [Hb|Hf].
    { by rewrite CreateTask_busy. }
    rewrite CreateTask_free by lia. simpl.
    intros id task. unfold ledger. simpl.
    destruct (decide (AddInt64 (taskCounter s) 1 = id)) as [<-|Hne].
    + rewrite !lookup_insert_eq. intros [= <-]. by left.
    + rewrite !lookup_insert_ne by done. apply HS.
  - destruct (repo s !! taskID) as [task|] eqn:Ht.
    2:{ by rewrite AddLinks_not_found. }
    destruct (le_lt_dec 3 (length (ledger s taskID))) as [Hfull|Hfew].
    { by rewrite (AddLinks_too_many _ _ _ task) by (done || lia). }
    destruct (le_lt_dec (length (ledger s taskID) + length urls) 3) as [Hfit|Hover].
    2:{ by rewrite (AddLinks_too_many _ _ _ task) by (done || lia). }
    rewrite (AddLinks_accepted _ _ _ task) by (done || lia). simpl.
    destruct (Hrepo _ _ Ht) as [Hid _]. rewrite Hid.
    intros id t. pose proof (HS id t) as HSid. unfold ledger in *. simpl.
    destruct (decide (taskID = id)) as [<-|Hne].
    + rewrite !lookup_insert_eq. intros [= <-]. right; left. simpl.
      split; [done|]. rewrite length_app. lia.
    + rewrite !lookup_insert_ne by done. exact HSid.
  - destruct (GetStatus ToLower env s w taskID) as [[r s'] w'] eqn:Hg. simpl.
    destruct (le_lt_dec 3 (length (ledger s taskID))) as [Hfull|Hfew].
    2:{ by apply GetStatus_idle in Hg as [-> _]. }
    assert (length (ledger s taskID) = 3%nat) as Hthree.
    { unfold ledger in *. destruct (urlsByTask s !! taskID) as [l|] eqn:Hl; simpl in *; [|lia].
      apply Hled in Hl as [Hl _]. lia. }
    apply GetStatus_service in Hg as (_ & _ & Hu & Hcases).
    intros id t. rewrite (ledger_eq _ _ _ Hu).
    destruct Hcases as [[Hr _]|[(task & Ht & Hr & _)|(task & Ht & Hr & _)]];
      rewrite Hr; [apply HS| |];
      (destruct (Hrepo _ _ Ht) as [Hid _]; rewrite Hid;
       destruct (decide (taskID = id)) as [<-|Hne];
       [rewrite lookup_insert_eq; intros [= <-]; right; right; simpl; auto
       |rewrite lookup_insert_ne by done; apply HS]).
Qed.

Lemma StatusInv_run (calls : list call) :
  ∀ (n : Z) (s : TaskService) (w : World),
    Inv n s → 0 ≤ n → n + Z.of_nat (length calls) ≤ int64_max → StatusInv s →
    StatusInv (fst (run ToLower env calls (s, w))).
Proof.
  induction calls as [|c rest IH]; intros n s w HI Hn Hlen HS; [done|].
  cbn [run length] in *.
  pose proof (Inv_exec ToLower env n c s w HI ltac:(lia)) as HI1.
  pose proof (StatusInv_exec n c s w HI ltac:(lia) HS) as HS1.
  destruct (exec ToLower env c (s, w)) as [s1 w1].
  apply (IH (n + 1)); [done|lia|lia|done].
Qed.

Lemma StatusInv_reachable (c : Config) (calls : list call) :
  Z.of_nat (length calls) ≤ int64_max →
  StatusInv (fst (run ToLower env calls (initial c))).
Proof.
  intros Hlen. apply (StatusInv_run calls 0); [apply Inv_initial|lia|lia|].
  intros id task H. simpl in H. by rewrite lookup_empty in H.
Qed.

(** X4. The stored status always fits the ledger.  In every state a fresh
    process reaches, a stored task is created with an empty ledger, or
    in_progress with at most three links, or completed or failed with
    exactly three links; no other status value is ever stored. *)
Theorem status_fits_ledger (c : Config) (calls : list call) (id : Z) (task : Task) :
  Z.of_nat (length calls) ≤ int64_max →
  repo (fst (run ToLower env calls (initial c))) !! id = Some task →
  (Status task = StatusCreated ∧ ledger (fst (run ToLower env calls (initial c))) id = []) ∨
  (Status task = StatusInProgress ∧
   (length (ledger (fst (run ToLower env calls (initial c))) id) ≤ 3)%nat) ∨
  ((Status task = StatusCompleted ∨ Status task = StatusFailed) ∧
   length (ledger (fst (run ToLower env calls (initial c))) id) = 3%nat).
Proof. intros Hlen Ht. by apply (StatusInv_reachable c calls Hlen). Qed.

(** X5. A terminal task takes no more links.  In every state a fresh
    process reaches, AddLinks on a task stored as completed or failed
    answers TooManyLinks whatever the list (the empty list included) and
    leaves the service unchanged, so AddLinks never moves a terminal task
    back to in_progress. *)
Theorem terminal_task_rejects_links (c : Config) (calls : list call) (id : Z)
  (task : Task) (urls : list string) :
  Z.of_nat (length calls) ≤ int64_max →
  repo (fst (run ToLower env calls (initial c))) !! id = Some task →
  Status task = StatusCompleted ∨ Status task = StatusFailed →
  AddLinks (fst (run ToLower env calls (initial c))) id urls =
    (Some ErrTooManyLinks, fst (run ToLower env calls (initial c))).
Proof.
  intros Hlen Ht Hterm.
  destruct (StatusInv_reachable c calls Hlen id task Ht) as [[Hs _]|[[Hs _]|[_ Hl]]].
  - rewrite Hs in Hterm. by destruct Hterm.
  - rewrite Hs in Hterm. by destruct Hterm.
  - apply (AddLinks_too_many _ _ _ task Ht). left. lia.
Qed.

End TaskHistory.

Lemma tasks_and_links_persist_witness :
  ledger (fst (run asciiToLower envUp [CallCreateTask] (initial cfgImages))) 1
    `prefix_of` ledger (fst (run asciiToLower envUp oneTaskPolled (initial cfgImages))) 1.
Proof.
  refine (proj2 (tasks_and_links_persist asciiToLower envUp cfgImages [CallCreateTask]
                   [CallAddLinks 1 threeLinks; CallGetStatus 1] 1 _)).
  vm_compute. discriminate.
Defined.

Lemma status_fits_ledger_witness :
  length (ledger (fst (run asciiToLower envUp oneTaskPolled (initial cfgImages))) 1) = 3%nat.
Proof.
  destruct (status_fits_ledger asciiToLower envUp cfgImages oneTaskPolled 1
              (mkTask 1 StatusCompleted [] "archives/Task_01.zip"))
    as [[Hs _]|[[Hs _]|[_ Hl]]].
  - vm_compute. discriminate.
  - vm_compute. reflexivity.
  - discriminate Hs.
  - discriminate Hs.
  - exact Hl.
Defined.

Lemma terminal_task_rejects_links_witness :
  AddLinks (fst (run asciiToLower envUp oneTaskPolled (initial cfgImages))) 1 [] =
    (Some ErrTooManyLinks, fst (run asciiToLower envUp oneTaskPolled (initial cfgImages))).
Proof.
  apply (terminal_task_rejects_links asciiToLower envUp cfgImages oneTaskPolled 1
           (mkTask 1 StatusCompleted [] "archives/Task_01.zip") []).
  - vm_compute. discriminate.
  - vm_compute. reflexivity.
  - by left.
Defined.

(** ** Creations in a row *)

Lemma createMany_spec (n : nat) :
  ∀ s : TaskService,
    activeTasksCounter s ≤ 3 → int64_min ≤ activeTasksCounter s →
    int64_min ≤ taskCounter s → taskCounter s + Z.of_nat n ≤ int64_max →
    let k := Z.to_nat (3 - activeTasksCounter s) in
    fst (createMany n s) =
      (Ok <$> seqZ (taskCounter s + 1) (Z.of_nat (n `min` k)))
      ++ replicate (n - k) (Err ErrServerBusy) ∧
    activeTasksCounter (snd (createMany n s)) = activeTasksCounter s + Z.of_nat (n `min` k) ∧
    taskCounter (snd (createMany n s)) = taskCounter s + Z.of_nat (n `min` k).
Proof.
  induction n as [|n IH]; intros s Ha Hamin Htc Hbound k.
  { simpl. split_and!; [done|lia|lia]. }
  cbn [createMany].
  destruct (Z.le_gt_cases 3 (activeTasksCounter s)) as [Hb|Hf].
  - rewrite CreateTask_busy by done.
    destruct (IH s Ha Hamin Htc ltac:(lia)) as (Hl & Hact & Htc').
    destruct (createMany n s) as [rs s2]. cbn [fst snd] in *.
    assert (k = 0%nat) as -> by (unfold k; lia).
    replace (Z.to_nat (3 - activeTasksCounter s)) with 0%nat in * by lia.
    rewrite Nat.min_0_r in *. rewrite Nat.sub_0_r in *.
    rewrite Hl. split_and!; [done|lia|lia].
  - rewrite CreateTask_free by lia.
    set (s1 := mkService _ _ _ _ _ _).
    assert (activeTasksCounter s1 = activeTasksCounter s + 1) as Ha1.
    { unfold s1. cbn [activeTasksCounter]. apply AddInt64_exact.
      unfold int64_min, int64_max in *. lia. }
    assert (taskCounter s1 = taskCounter s + 1) as Htc1.
    { unfold s1. cbn [taskCounter]. apply AddInt64_exact.
      unfold int64_min, int64_max in *. lia. }
    assert (AddInt64 (taskCounter s) 1 = taskCounter s + 1) as Hid.
    { apply AddInt64_exact. unfold int64_min, int64_max in *. lia. }
    destruct (IH s1) as (Hl & Hact & Htc'); try lia.
    destruct (createMany n s1) as [rs s2]. cbn [fst snd] in *.
    assert (k = S (Z.to_nat (3 - activeTasksCounter s1))) as -> by (unfold k; lia).
    rewrite <- Nat.succ_min_distr. cbn [Nat.sub].
    rewrite Hid, Hl, Hact, Htc', Ha1, Htc1.
    rewrite Nat2Z.inj_succ. clear IH Hl Hact Htc'. clearbody s1.
    split_and!; [|lia|lia].
    rewrite (seqZ_cons (taskCounter s + 1)) by lia. cbn [fmap list_fmap app].
    rewrite Z.pred_succ, <- Z.add_1_r. reflexivity.
Qed.

(** X6. Creations in a row succeed exactly as long as the counter is below
    3.  From a service whose active-task counter is [a] (at most 3, possibly
    negative), [n] calls of CreateTask in a row return the next [3 - a] IDs
    in increasing order and then only ServerBusy; the counter ends at
    [a] plus the number of successes. *)
Theorem CreateTask_until_busy (n : nat) (s : TaskService) :
  activeTasksCounter s ≤ 3 → int64_min ≤ activeTasksCounter s →
  int64_min ≤ taskCounter s → taskCounter s + Z.of_nat n ≤ int64_max →
  fst (createMany n s) =
    (Ok <$> seqZ (taskCounter s + 1)
                 (Z.of_nat (n `min` Z.to_nat (3 - activeTasksCounter s))))
    ++ replicate (n - Z.to_nat (3 - activeTasksCounter s)) (Err ErrServerBusy) ∧
  activeTasksCounter (snd (createMany n s)) =
    activeTasksCounter s + Z.of_nat (n `min` Z.to_nat (3 - activeTasksCounter s)).
Proof.
  intros Ha Hamin Htc Hbound.
  destruct (createMany_spec n s Ha Hamin Htc Hbound) as (H1 & H2 & _). by split.
Qed.

Lemma CreateTask_until_busy_witness :
  fst (createMany 5 (set_activeTasksCounter (-1) (NewTaskService cfgImages))) =
    [Ok 1; Ok 2; Ok 3; Ok 4; Err ErrServerBusy].
Proof.
  refine (proj1 (CreateTask_until_busy 5
                   (set_activeTasksCounter (-1) (NewTaskService cfgImages)) _ _ _ _));
    vm_compute; discriminate.
Defined.

(** ** Cleanup and archive stage in general *)

Section FileStages.

Variable env : Env.

(** Whatever deleteFiles answers, a path outside its list is untouched,
    and requests and log are as before. *)
Lemma deleteFiles_frame (files : list string) :
  ∀ (w w' : World) (e : option error),
    deleteFiles env w files = (e, w') →
    (∀ p, p ∉ files → disk w' !! p = disk w !! p) ∧
    (∀ p, is_Some (disk w' !! p) → is_Some (disk w !! p)) ∧
    requests w' = requests w ∧ logs w' = logs w.
Proof.
  induction files as [|f rest IH]; intros w w' e H; simpl in H.
  - by simplify_eq.
  - destruct (fs_fault env OpStat f); [by simplify_eq|].
    destruct (disk w !! f) as [d|] eqn:Hd.
    + destruct (fs_fault env OpRemove f); [by simplify_eq|].
      apply IH in H as (Hkeep & Hsub & Hr & Hl). split_and!; [| |done|done].
      * intros p Hp. apply not_elem_of_cons in Hp as [Hne Hp].
        rewrite Hkeep by done. simpl. by rewrite lookup_delete_ne.
      * intros p Hp. apply Hsub in Hp. simpl in Hp.
        destruct (decide (f = p)) as [->|Hne].
        -- by rewrite lookup_delete_eq in Hp; destruct Hp.
        -- by rewrite lookup_delete_ne in Hp.
    + apply IH in H as (Hkeep & Hsub & Hr & Hl). split_and!; [|done|done|done].
      intros p Hp. apply not_elem_of_cons in Hp as [Hne Hp]. by apply Hkeep.
Qed.

(** X7. deleteFiles stops at the first failure.  If inspecting or removing
    some file of the list fails while all files before it can be inspected
    and removed, the call returns that error: the files before it are gone,
    the failing file and every file after it in the list are left on local
    storage exactly as they were. *)
Theorem deleteFiles_stops_at_first_error (w : World) (pre post : list string) (p : string) :
  (∀ q, q ∈ pre → fs_fault env OpStat q = false ∧ fs_fault env OpRemove q = false) →
  fs_fault env OpStat p = true ∨
  (is_Some (disk w !! p) ∧ fs_fault env OpRemove p = true) →
  ∃ e w',
    deleteFiles env w (pre ++ p :: post) = (Some e, w') ∧
    (∀ q, q ∈ pre → disk w' !! q = None) ∧
    (∀ q, q ∉ pre → disk w' !! q = disk w !! q).
Proof.
  revert w. induction pre as [|a pre IH]; intros w Hpre Hfail.
  - simpl. destruct Hfail as [Hs|[[d Hd] Hr]].
    + rewrite Hs. eexists _, w. split_and!; [done| |done].
      intros q Hq. by apply elem_of_nil in Hq.
    + destruct (fs_fault env OpStat p); rewrite ?Hd, ?Hr;
        (eexists _, w; split_and!; [done| |done]);
        intros q Hq; by apply elem_of_nil in Hq.
  - destruct (Hpre a ltac:(by left)) as [Hsa Hra].
    assert (a ≠ p) as Hap.
    { intros ->. destruct Hfail as [Hs|[_ Hr]]; congruence. }
    assert (∀ q, q ∈ pre → fs_fault env OpStat q = false ∧ fs_fault env OpRemove q = false)
      as Hpre' by (intros q Hq; apply Hpre; by right).
    cbn [app deleteFiles]. rewrite Hsa.
    destruct (disk w !! a) as [d|] eqn:Hd.
    + rewrite Hra. destruct (IH (remove_file a w) Hpre') as (e & w' & Heq & Hgone & Hkeep).
      { destruct Hfail as [Hs|[Hp Hr]]; [by left|right]. split; [|done].
        simpl. by rewrite lookup_delete_ne. }
      exists e, w'. split_and!; [done| |].
      * intros q Hq. destruct (decide (q ∈ pre)) as [Hin|Hnin]; [by apply Hgone|].
        apply elem_of_cons in Hq as [->|Hq]; [|done].
        rewrite Hkeep by done. simpl. apply lookup_delete_eq.
      * intros q Hq. apply not_elem_of_cons in Hq as [Hne Hnin].
        rewrite Hkeep by done. simpl. by rewrite lookup_delete_ne.
    + destruct (IH w Hpre' Hfail) as (e & w' & Heq & Hgone & Hkeep).
      exists e, w'. split_and!; [done| |].
      * intros q Hq. destruct (decide (q ∈ pre)) as [Hin|Hnin]; [by apply Hgone|].
        apply elem_of_cons in Hq as [->|Hq]; [|done]. by rewrite Hkeep.
      * intros q Hq. apply not_elem_of_cons in Hq as [Hne Hnin]. by apply Hkeep.
Qed.

(** The loop touches neither local storage nor the requests. *)
Lemma addFiles_world (files : list string) :
  ∀ (w w' : World) (entries es : list (string * FileData)) (e : option error),
    addFiles env w files entries = (e, es, w') →
    disk w' = disk w ∧ requests w' = requests w.
Proof.
  induction files as [|f rest IH]; intros w w' entries es e H; cbn [addFiles] in H.
  - by simplify_eq.
  - destruct (fs_fault env OpOpen f).
    { by apply IH in H. }
    destruct (disk w !! f) as [d|].
    2:{ by apply IH in H. }
    destruct (fs_fault env OpZipCreate (Base f)); [by simplify_eq|].
    destruct (fs_fault env OpCopy f); [by simplify_eq|].
    by apply IH in H.
Qed.




End FileStages.

Lemma deleteFiles_stops_at_first_error_witness :
  ∃ e w',
    deleteFiles envLockedB diskABC ["a"; "b"; "c"] = (Some e, w') ∧
    disk w' !! "a" = None ∧ disk w' !! "b" = Some (Raw abc) ∧ disk w' !! "c" = Some (Raw xyz).
Proof.
  destruct (deleteFiles_stops_at_first_error envLockedB diskABC ["a"] ["c"] "b")
    as (e & w' & Heq & Hgone & Hkeep).
  - intros q Hq. apply list_elem_of_singleton in Hq as ->. by split.
  - right. split; [eexists; vm_compute; reflexivity|reflexivity].
  - exists e, w'. split_and!.
    + exact Heq.
    + apply Hgone. by left.
    + rewrite Hkeep; [vm_compute; reflexivity|].
      intros Hq. apply list_elem_of_singleton in Hq. discriminate Hq.
    + rewrite Hkeep; [vm_compute; reflexivity|].
      intros Hq. apply list_elem_of_singleton in Hq. discriminate Hq.
Defined.


(** ** Names and contents of downloads *)

Lemma string_app_cons (x : ascii) (a b : string) : String x a +:+ b = String x (a +:+ b).
Proof. reflexivity. Qed.

Lemma string_app_nil (b : string) : "" +:+ b = b.
Proof. reflexivity. Qed.

Lemma has_char_app (c : ascii) (a b : string) :
  has_char c (a +:+ b) = has_char c a || has_char c b.
Proof.
  induction a as [|c' a IH]; [by rewrite string_app_nil|].
  rewrite string_app_cons. simpl. by rewrite IH, orb_assoc.
Qed.

Lemma pretty_N_char_digit (d : N) (c : ascii) :
  c = "_"%char ∨ c = "."%char → pretty_N_char d ≠ c.
Proof. intros [-> | ->]; unfold pretty_N_char; repeat case_match; discriminate. Qed.

Lemma pretty_N_go_no_char (c : ascii) (x : N) :
  c = "_"%char ∨ c = "."%char →
  ∀ s, has_char c s = false → has_char c (pretty_N_go x s) = false.
Proof.
  intros Hc. induction (N.lt_wf_0 x) as [x _ IH]. intros s Hs.
  destruct (decide (x = 0%N)) as [->|Hx]; [by rewrite pretty_N_go_0|].
  rewrite pretty_N_go_step by lia. apply IH; [apply N.div_lt; lia|].
  simpl. rewrite Hs, orb_false_r.
  apply Ascii.eqb_neq. intros Heq. by apply (pretty_N_char_digit (x `mod` 10)%N c Hc).
Qed.

(** A decimal form holds neither an underscore nor a dot. *)
Lemma FormatInt_no_char (c : ascii) (n : Z) :
  c = "_"%char ∨ c = "."%char → has_char c (FormatInt n) = false.
Proof.
  intros Hc. unfold FormatInt, pretty, pretty_Z.
  destruct n as [|p|p].
  - by destruct Hc as [-> | ->].
  - unfold pretty, pretty_positive, pretty, pretty_N.
    destruct (decide (N.pos p = 0%N)); [lia|]. by apply pretty_N_go_no_char.
  - rewrite has_char_app.
    unfold pretty, pretty_positive, pretty, pretty_N.
    destruct (decide (N.pos p = 0%N)); [lia|].
    rewrite pretty_N_go_no_char by done. by destruct Hc as [-> | ->].
Qed.

(** Where a string is cut at the first occurrence of a character is
    determined by the string. *)
Lemma split_unique (c : ascii) (a b x y : string) :
  has_char c a = false → has_char c b = false →
  a +:+ String c x = b +:+ String c y → a = b ∧ x = y.
Proof.
  revert b. induction a as [|ca a IH]; intros [|cb b] Ha Hb H;
    rewrite ?string_app_nil, ?string_app_cons in H; simpl in *.
  - by simplify_eq.
  - simplify_eq. by rewrite Ascii.eqb_refl in Hb.
  - simplify_eq. by rewrite Ascii.eqb_refl in Ha.
  - apply orb_false_iff in Ha as [_ Ha]. apply orb_false_iff in Hb as [_ Hb].
    injection H as -> H. destruct (IH b Ha Hb H) as [-> ->]. done.
Qed.

Lemma string_app_assoc (a b c : string) : (a +:+ b) +:+ c = a +:+ b +:+ c.
Proof.
  induction a as [|x a IH]; [by rewrite !string_app_nil|].
  by rewrite !string_app_cons, IH.
Qed.

Lemma preffileName_idPart (taskID c : Z) :
  preffileName taskID c = "Task_" +:+ idPart taskID +:+ "_" +:+ FormatInt c.
Proof. unfold preffileName, idPart. by destruct (taskID <? 10)%Z. Qed.

Lemma idPart_no_underscore (taskID : Z) : has_char "_" (idPart taskID) = false.
Proof.
  unfold idPart. destruct (taskID <? 10)%Z.
  - rewrite has_char_app, FormatInt_no_char by (by left). done.
  - apply FormatInt_no_char. by left.
Qed.

(** A download's name determines the counter value it was built from. *)
Lemma download_name_inj (taskID taskID' c c' : Z) (a a' : string) :
  download_name taskID c a = download_name taskID' c' a' →
  c = c' ∧ idPart taskID = idPart taskID' ∧ a = a'.
Proof.
  unfold download_name. rewrite !preffileName_idPart.
  rewrite !string_app_assoc. intros H.
  apply (String.app_inj folderPathImg) in H.
  apply (String.app_inj "/") in H.
  apply (String.app_inj "Task_") in H.
  apply (split_unique "_") in H as [Hid H]; [|apply idPart_no_underscore..].
  apply (split_unique ".") in H as [Hc Ha]; [|apply FormatInt_no_char; by right..].
  split_and!; [|done|done]. by apply (inj pretty).
Qed.

Section Downloads.

Variable ToLower : string → string.
Variable env : Env.

Lemma checkType_Ok_inv (s : TaskService) (w w1 : World) (url ext : string) :
  checkType ToLower env s w url = (Ok ext, w1) →
  ∃ allowed, allowed ∈ FileAllowedExtensions (cfg s) ∧ ext = "." +:+ allowed ∧
             (ToLower (Ext url) = "." +:+ allowed ∨
              ext_allowed ToLower s url = false ∧
              ∃ resp, head_response env (length (requests w)) url = Some resp ∧
                      Contains (ContentType resp) allowed = true).
Proof.
  unfold checkType. intros H.
  destruct (ext_allowed ToLower s url) eqn:Hext.
  - simplify_eq. unfold ext_allowed in Hext.
    apply find_existsb_true in Hext as (allowed & _ & Hin & Heq).
    apply String.eqb_eq in Heq. exists allowed. by auto.
  - destruct (negb (new_request_ok env url)); [by simplify_eq|].
    destruct (head_response env (length (requests w)) url) as [resp|] eqn:Hresp;
      [|by simplify_eq].
    cbv zeta in H.
    destruct (List.find _ (FileAllowedExtensions (cfg s))) as [allowed|] eqn:Hfind;
      [|by simplify_eq].
    simplify_eq. apply find_some in Hfind as [Hin Hc].
    exists allowed. split_and!; [by apply list_elem_of_In|done|].
    right. split; [done|]. by exists resp.
Qed.

Lemma downloadFile_Ok_inv (s s' : TaskService) (w w' : World) (url : string) (taskID : Z)
  (p : string) :
  downloadFile ToLower env s w url taskID = (Ok p, s', w') →
  ∃ allowed resp before,
    allowed ∈ FileAllowedExtensions (cfg s) ∧
    p = download_name taskID (AddInt64 (filesCounter s) 1) allowed ∧
    requests w' = before ++ [(GET, url)] ∧
    get_response env (length before) url = Some resp ∧
    disk w' !! p = Some (Raw (Body resp)) ∧
    ContentLength resp ≤ FileMaxSize (cfg s) ∧
    BodyErr resp = false ∧
    filesCounter s' = AddInt64 (filesCounter s) 1.
Proof.
  unfold downloadFile. intros H.
  destruct (checkType ToLower env s w url) as [[ext|e] w1] eqn:Hc; [|done].
  apply checkType_Ok_inv in Hc as (allowed & Hin & -> & _).
  unfold fetch in H.
  destruct (negb (new_request_ok env url)); [done|].
  destruct (get_response env (length (requests w1)) url) as [resp|] eqn:Hresp; [|done].
  destruct (Z.ltb_spec (FileMaxSize (cfg s)) (ContentLength resp)); [done|].
  cbv zeta in H.
  destruct (fs_fault env OpMkdirAll folderPathImg); [done|].
  destruct (fs_fault env OpCreate _); [done|].
  destruct (BodyErr resp) eqn:Hb; [done|].
  simplify_eq. exists allowed, resp, (requests w1). simpl.
  split_and!; try done. apply lookup_insert_eq.
Qed.

Lemma downloadFile_counter (s s' : TaskService) (w w' : World) (url : string) (taskID : Z)
  (r : result string) :
  downloadFile ToLower env s w url taskID = (r, s', w') →
  filesCounter s' = filesCounter s ∨ filesCounter s' = AddInt64 (filesCounter s) 1.
Proof.
  unfold downloadFile, fetch. intros H.
  destruct (checkType ToLower env s w url) as [[ext|e] w1]; [|simplify_eq; by left].
  repeat case_match; simplify_eq; simpl; auto.
Qed.

(** X9. What a successful download leaves.  When downloadFile returns a
    path, the last request it made is the GET for the URL, and the answer
    [resp] the network gave to that request is the one the file is made of:
    the body ended without an error, the declared length was within the
    limit, and the file at the returned path holds exactly that body.  The
    path is "../downloads/Task_<id>_<n>.<ext>" where [n] is the file counter
    after its increment and [ext] is an entry of the configured allow-list,
    and the file counter has gone up by one. *)
Theorem downloadFile_Ok_stored (s s' : TaskService) (w w' : World) (url : string)
  (taskID : Z) (p : string) :
  downloadFile ToLower env s w url taskID = (Ok p, s', w') →
  ∃ allowed resp before,
    allowed ∈ FileAllowedExtensions (cfg s) ∧
    p = download_name taskID (AddInt64 (filesCounter s) 1) allowed ∧
    requests w' = before ++ [(GET, url)] ∧
    get_response env (length before) url = Some resp ∧
    BodyErr resp = false ∧
    ContentLength resp ≤ FileMaxSize (cfg s) ∧
    disk w' !! p = Some (Raw (Body resp)) ∧
    filesCounter s' = AddInt64 (filesCounter s) 1.
Proof.
  intros H.
  apply downloadFile_Ok_inv in H
    as (allowed & resp & before & H1 & H2 & H3 & H4 & H5 & H6 & H7 & H8).
  by exists allowed, resp, before.
Qed.

Lemma downloadAll_names_gen (urls : list string) :
  ∀ (s s' : TaskService) (w w' : World) (taskID lo : Z) (files files' : list string),
    downloadAll ToLower env s w urls taskID files = (files', s', w') →
    lo ≤ filesCounter s → int64_min ≤ filesCounter s →
    filesCounter s + Z.of_nat (length urls) ≤ int64_max →
    NoDup files → (∀ p, p ∈ files → named_in taskID lo (filesCounter s) p) →
    NoDup files' ∧ (∀ p, p ∈ files' → named_in taskID lo (filesCounter s') p) ∧
    filesCounter s ≤ filesCounter s' ≤ filesCounter s + Z.of_nat (length urls).
Proof.
  induction urls as [|u rest IH]; intros s s' w w' taskID lo files files' H Hlo Hmin Hmax Hnd Hold.
  - simpl in H. simplify_eq. split_and!; [done|done|lia|simpl; lia].
  - cbn [downloadAll length] in *.
    destruct (downloadFile ToLower env s w u taskID) as [[r s1] w1] eqn:Hd.
    pose proof (downloadFile_counter _ _ _ _ _ _ _ Hd) as Hcnt.
    assert (AddInt64 (filesCounter s) 1 = filesCounter s + 1) as Hadd.
    { apply AddInt64_exact. unfold int64_min, int64_max in *. lia. }
    rewrite Hadd in Hcnt.
    assert (∀ p, p ∈ files → named_in taskID lo (filesCounter s1) p) as Hold1.
    { intros p Hp. destruct (Hold p Hp) as (c & a & Hc & ->). exists c, a. split; [lia|done]. }
    destruct r as [filePath|e].
    + apply downloadFile_Ok_inv in Hd as (allowed & resp & before & _ & Hp & _ & _ & _ & _ & _ & Hfc).
      rewrite Hadd in Hp, Hfc.
      destruct (IH _ _ _ _ _ lo _ _ H) as (Hnd' & Hnames & Hrange); try lia.
      * apply NoDup_app. split_and!; [done| |apply NoDup_singleton].
        intros q Hq Hq'. apply list_elem_of_singleton in Hq'. subst q.
        destruct (Hold filePath Hq) as (c & a & Hc & Heq). rewrite Hp in Heq.
        apply download_name_inj in Heq as [Heq _]. lia.
      * intros q Hq. apply elem_of_app in Hq as [Hq|Hq]; [by apply Hold1|].
        apply list_elem_of_singleton in Hq as ->. exists (filesCounter s + 1), allowed.
        split; [lia|done].
      * split_and!; try done; lia.
    + destruct (IH _ _ _ _ _ lo _ _ H) as (Hnd' & Hnames & Hrange); try lia; try done.
      split_and!; try done; lia.
Qed.

(** X10. Download names never collide.  As long as the file counter does
    not wrap around, the files one run of the download loop reports are
    pairwise distinct, and each carries in its name a counter value above
    the counter before the loop and at most the counter after it, so a
    later loop cannot produce any of these names again. *)
Theorem download_names_distinct (s s' : TaskService) (w w' : World) (urls : list string)
  (taskID : Z) (files : list string) :
  downloadAll ToLower env s w urls taskID [] = (files, s', w') →
  int64_min ≤ filesCounter s →
  filesCounter s + Z.of_nat (length urls) ≤ int64_max →
  NoDup files ∧
  (∀ p, p ∈ files →
        ∃ c allowed, filesCounter s < c ≤ filesCounter s' ∧
                     p = download_name taskID c allowed) ∧
  (∀ c c' a a', download_name taskID c a = download_name taskID c' a' → c = c').
Proof.
  intros H Hmin Hmax.
  destruct (downloadAll_names_gen urls s s' w w' taskID (filesCounter s) [] files H)
    as (Hnd & Hnames & _); try lia.
  - apply NoDup_nil_2.
  - intros p Hp. by apply elem_of_nil in Hp.
  - split_and!; [done|exact Hnames|].
    intros c c' a a' Heq. by apply download_name_inj in Heq as [? _].
Qed.

End Downloads.

Lemma downloadFile_Ok_stored_witness :
  ∃ s' w',
    downloadFile asciiToLower envUp oneTask emptyWorld "http://h/a.jpg" 1 =
      (Ok "../downloads/Task_01_1.jpg", s', w') ∧
    requests w' = [(GET, "http://h/a.jpg")] ∧
    disk w' !! "../downloads/Task_01_1.jpg" = Some (Raw abc) ∧
    filesCounter s' = 1.
Proof.
  destruct (downloadFile asciiToLower envUp oneTask emptyWorld "http://h/a.jpg" 1)
    as [[r s'] w'] eqn:Hd.
  assert (r = Ok "../downloads/Task_01_1.jpg") as ->.
  { assert (fst (fst (downloadFile asciiToLower envUp oneTask emptyWorld "http://h/a.jpg" 1))
            = Ok "../downloads/Task_01_1.jpg") as Hf by (vm_compute; reflexivity).
    by rewrite Hd in Hf. }
  destruct (downloadFile_Ok_stored asciiToLower envUp oneTask s' emptyWorld w'
              "http://h/a.jpg" 1 "../downloads/Task_01_1.jpg" Hd)
    as (allowed & resp & before & _ & _ & Hreq & Hresp & _ & _ & Hdisk & Hfc).
  simpl in Hresp. injection Hresp as <-.
  assert (length (requests w') = 1%nat) as Hlen.
  { assert (length (requests (snd (downloadFile asciiToLower envUp oneTask emptyWorld
                                     "http://h/a.jpg" 1))) = 1%nat) as Hf
      by (vm_compute; reflexivity).
    by rewrite Hd in Hf. }
  rewrite Hreq, length_app in Hlen. simpl in Hlen.
  destruct before; [|simpl in Hlen; lia].
  exists s', w'. split_and!; [reflexivity|exact Hreq|exact Hdisk|].
  rewrite Hfc. vm_compute. reflexivity.
Defined.

Lemma download_names_distinct_witness :
  NoDup (fst (fst (downloadAll asciiToLower envUp oneTask emptyWorld threeLinks 1 []))).
Proof.
  destruct (downloadAll asciiToLower envUp oneTask emptyWorld threeLinks 1 [])
    as [[files s'] w'] eqn:H.
  simpl. refine (proj1 (download_names_distinct asciiToLower envUp oneTask s' emptyWorld w'
                          threeLinks 1 files H _ _)).
  - vm_compute. discriminate.
  - vm_compute. discriminate.
Defined.

(** ** What a poll touches *)

Section PollEffects.

Variable ToLower : string → string.
Variable env : Env.

Lemma downloadAll_disk_mono (urls : list string) :
  ∀ (s s' : TaskService) (w w' : World) (taskID : Z) (files files' : list string),
    downloadAll ToLower env s w urls taskID files = (files', s', w') →
    ∀ p, is_Some (disk w !! p) → is_Some (disk w' !! p).
Proof.
  induction urls as [|u rest IH]; intros s s' w w' taskID files files' H p Hp; simpl in H.
  - by simplify_eq.
  - destruct (downloadFile ToLower env s w u taskID) as [[r s1] w1] eqn:Hd.
    apply downloadFile_on_disk in Hd as [Hkeep _].
    destruct r; eapply IH; try exact H; by apply Hkeep.
Qed.

Lemma createZipArchive_world (s : TaskService) (w w' : World) (taskID : Z)
  (files : list string) (r : result string) :
  createZipArchive env s w taskID files = (r, w') →
  (∀ p, is_Some (disk w !! p) → is_Some (disk w' !! p)) ∧ requests w' = requests w.
Proof.
  unfold createZipArchive. intros H.
  destruct (fs_fault env OpMkdirAll zipPath); [by simplify_eq|].
  destruct (fs_fault env OpCreate _); [by simplify_eq|].
  match type of H with context [addFiles env ?w0 files []] =>
    destruct (addFiles env w0 files []) as [[e es] w2] eqn:Ha;
    apply addFiles_world in Ha as [Hdisk Hreq] end.
  simpl in Hdisk, Hreq.
  destruct e; simplify_eq; simpl; rewrite Hdisk, Hreq; (split; [|done]);
    intros p Hp; by do 2 apply is_Some_insert_mono.
Qed.

(** X11. A poll removes nothing but its own downloads.  Every file that is
    on local storage before a GetStatus call and is not one of the files
    this call's download loop reports is still on local storage after the
    call: neither an earlier archive, nor the leftovers of a broken
    download, nor any other file is deleted. *)
Theorem GetStatus_keeps_other_files (s s' s1 : TaskService) (w w' w1 : World)
  (taskID : Z) (r : result (gmap string string)) (files : list string) (p : string) :
  GetStatus ToLower env s w taskID = (r, s', w') →
  downloadAll ToLower env s w (ledger s taskID) taskID [] = (files, s1, w1) →
  is_Some (disk w !! p) → p ∉ files → is_Some (disk w' !! p).
Proof.
  intros Hg Hd Hp Hnot.
  destruct (le_lt_dec 3 (length (ledger s taskID))) as [Hfull|Hfew].
  2:{ destruct (repo s !! taskID) as [task|] eqn:Ht.
      - rewrite (GetStatus_few_links _ _ _ _ _ task Ht Hfew) in Hg. by simplify_eq.
      - rewrite GetStatus_not_found in Hg by done. by simplify_eq. }
  destruct (repo s !! taskID) as [task|] eqn:Ht.
  2:{ rewrite GetStatus_not_found in Hg by done. by simplify_eq. }
  rewrite (GetStatus_pipeline _ _ _ _ _ task Ht Hfull files s1 w1 Hd) in Hg.
  pose proof (downloadAll_disk_mono _ _ _ _ _ _ _ _ Hd p Hp) as Hp1.
  destruct (Z.of_nat (length files) =? 0)%Z; [by simplify_eq|].
  destruct (createZipArchive env s1 w1 taskID files) as [[ap|e] w2] eqn:Hz.
  - apply createZipArchive_world in Hz as [Hmono _]. apply Hmono in Hp1.
    cbv zeta in Hg.
    destruct (deleteFiles env w2 files) as [err w3] eqn:Hdel.
    apply deleteFiles_frame in Hdel as (Hkeep & _).
    simpl in Hg. destruct err; simplify_eq; simpl; by rewrite Hkeep.
  - apply createZipArchive_world in Hz as [Hmono _]. apply Hmono in Hp1.
    by simplify_eq.
Qed.

Lemma checkType_requests (s : TaskService) (w w1 : World) (url : string) (r : result string) :
  checkType ToLower env s w url = (r, w1) →
  requests w1 = requests w ∨ requests w1 = requests w ++ [(HEAD, url)].
Proof.
  unfold checkType. intros H. repeat case_match; simplify_eq; simpl; auto.
Qed.

Lemma fetch_requests_gen (s s' : TaskService) (w w' : World) (url : string) (taskID : Z)
  (ext : string) (r : result string) :
  fetch env s w url taskID ext = (r, s', w') →
  requests w' = requests w ∨ requests w' = requests w ++ [(GET, url)].
Proof.
  unfold fetch. intros H. repeat case_match; simplify_eq; simpl; auto.
Qed.

Lemma downloadFile_requests (s s' : TaskService) (w w' : World) (url : string) (taskID : Z)
  (r : result string) :
  downloadFile ToLower env s w url taskID = (r, s', w') →
  ∃ b, requests w' = requests w ++ b ∧ request_block url b.
Proof.
  unfold downloadFile, request_block. intros H.
  destruct (checkType ToLower env s w url) as [[ext|e] w1] eqn:Hc;
    apply checkType_requests in Hc.
  - apply fetch_requests_gen in H.
    destruct Hc as [Hc|Hc], H as [H|H]; rewrite H, Hc.
    + exists []. rewrite app_nil_r. by auto.
    + exists [(GET, url)]. by auto.
    + exists [(HEAD, url)]. by auto.
    + exists [(HEAD, url); (GET, url)]. rewrite <- app_assoc. by auto 10.
  - simplify_eq. destruct Hc as [Hc|Hc]; rewrite Hc.
    + exists []. rewrite app_nil_r. by auto.
    + exists [(HEAD, url)]. by auto.
Qed.

Lemma downloadAll_requests (urls : list string) :
  ∀ (s s' : TaskService) (w w' : World) (taskID : Z) (files files' : list string),
    downloadAll ToLower env s w urls taskID files = (files', s', w') →
    ∃ blocks, requests w' = requests w ++ concat blocks ∧
              Forall2 request_block urls blocks.
Proof.
  induction urls as [|x rest IH]; intros s s' w w' taskID files files' H; simpl in H.
  - simplify_eq. exists []. simpl. rewrite app_nil_r. split; [done|constructor].
  - destruct (downloadFile ToLower env s w x taskID) as [[r s1] w1] eqn:Hd.
    apply downloadFile_requests in Hd as (b & Hr1 & Hb).
    assert (∃ blocks, requests w' = requests w1 ++ concat blocks ∧
                      Forall2 request_block rest blocks) as (blocks & Hr2 & Hbs).
    { destruct r; apply IH in H as (blocks & Hr2 & Hbs); exists blocks; by split. }
    exists (b :: blocks). rewrite Hr2, Hr1, <- app_assoc. split; [done|by constructor].
Qed.

(** X12. A poll only contacts the task's own links, in ledger order.  The
    requests a GetStatus call hands to the HTTP client are appended to
    those made before, and they fall into one block per ledger URL, in the
    order of the ledger: each block is empty, or a HEAD for that URL, or a
    GET for it, or a HEAD followed by a GET.  A task with fewer than three
    links causes no request at all. *)
Theorem GetStatus_requests (s : TaskService) (w : World) (taskID : Z) :
  let '(r, s', w') := GetStatus ToLower env s w taskID in
  (∃ blocks, requests w' = requests w ++ concat blocks ∧
             Forall2 request_block (ledger s taskID) blocks) ∧
  ((length (ledger s taskID) < 3)%nat → requests w' = requests w).
Proof.
  destruct (GetStatus ToLower env s w taskID) as [[r s'] w'] eqn:Hg.
  assert (requests w' = requests w →
          (∃ blocks, requests w' = requests w ++ concat blocks ∧
                     Forall2 request_block (ledger s taskID) blocks) ∧
          ((length (ledger s taskID) < 3)%nat → requests w' = requests w)) as Hnone.
  { intros Heq. split; [|done].
    exists (replicate (length (ledger s taskID)) []). split.
    - rewrite Heq. clear. induction (ledger s taskID) as [|u l IH]; simpl.
      + by rewrite app_nil_r.
      + exact IH.
    - clear. induction (ledger s taskID) as [|u l IH]; simpl; constructor; [by left|done]. }
  destruct (repo s !! taskID) as [task|] eqn:Ht.
  2:{ rewrite GetStatus_not_found in Hg by done. apply Hnone. by simplify_eq. }
  destruct (le_lt_dec 3 (length (ledger s taskID))) as [Hfull|Hfew].
  2:{ rewrite (GetStatus_few_links _ _ _ _ _ task Ht Hfew) in Hg. apply Hnone. by simplify_eq. }
  split; [|lia].
  destruct (downloadAll ToLower env s w (ledger s taskID) taskID [])
    as [[files s1] w1] eqn:Hd.
  rewrite (GetStatus_pipeline _ _ _ _ _ task Ht Hfull files s1 w1 Hd) in Hg.
  apply downloadAll_requests in Hd as (blocks & Hr & Hbs).
  exists blocks. split; [|done]. rewrite <- Hr.
  destruct (Z.of_nat (length files) =? 0)%Z; [by simplify_eq|].
  destruct (createZipArchive env s1 w1 taskID files) as [[ap|e] w2] eqn:Hz;
    apply createZipArchive_world in Hz as [_ Hrz].
  - cbv zeta in Hg. destruct (deleteFiles env w2 files) as [err w3] eqn:Hdel.
    apply deleteFiles_frame in Hdel as (_ & _ & Hrd & _).
    simpl in Hg. destruct err; simplify_eq; simpl; congruence.
  - simplify_eq. simpl. done.
Qed.

(** X13. A poll touches one task.  Provided the polled task is stored under
    its own ID, GetStatus leaves every other task's record, all ledgers, the
    task counter and the configuration as they were, and the polled ID is
    stored after the call exactly when it was stored before. *)
Theorem GetStatus_touches_one_task (s s' : TaskService) (w w' : World) (taskID : Z)
  (r : result (gmap string string)) :
  (∀ task, repo s !! taskID = Some task → ID task = taskID) →
  GetStatus ToLower env s w taskID = (r, s', w') →
  (∀ other, other ≠ taskID → repo s' !! other = repo s !! other) ∧
  (is_Some (repo s' !! taskID) ↔ is_Some (repo s !! taskID)) ∧
  urlsByTask s' = urlsByTask s ∧ taskCounter s' = taskCounter s ∧ cfg s' = cfg s.
Proof.
  intros Hid Hg. apply GetStatus_service in Hg as (Hc & Ht & Hu & Hcases).
  split_and!; try done.
  - intros other Hne.
    destruct Hcases as [[Hr _]|[(task & Htask & Hr & _)|(task & Htask & Hr & _)]];
      rewrite Hr; [done| |]; rewrite (Hid _ Htask); by rewrite lookup_insert_ne.
  - destruct Hcases as [[Hr _]|[(task & Htask & Hr & _)|(task & Htask & Hr & _)]];
      rewrite Hr; [done| |]; rewrite (Hid _ Htask), lookup_insert_eq, Htask;
      split; intros _; by eexists.
Qed.

(** X14. When the archive cannot be created, the downloads stay.  If at
    least one download of a full ledger succeeds but the archive folder or
    the archive file cannot be created, GetStatus answers with the stored
    failed status, stores the task as failed, leaves the active-task counter
    as it was, and returns before the cleanup: every downloaded file is
    still on local storage. *)
Theorem archive_failure_keeps_downloads (s s1 : TaskService) (w w1 : World) (taskID : Z)
  (task : Task) (files : list string) :
  repo s !! taskID = Some task →
  (3 ≤ length (ledger s taskID))%nat →
  downloadAll ToLower env s w (ledger s taskID) taskID [] = (files, s1, w1) →
  files ≠ [] →
  fs_fault env OpMkdirAll zipPath = true ∨
  fs_fault env OpCreate (ArchivePath task +:+ ".zip") = true →
  ∃ s' w',
    GetStatus ToLower env s w taskID = (Ok {[ "status" := StatusFailed ]}, s', w') ∧
    repo s' !! ID task = Some (with_Status StatusFailed task) ∧
    activeTasksCounter s' = activeTasksCounter s ∧
    disk w' = disk w1 ∧
    (∀ p, p ∈ files → is_Some (disk w' !! p)).
Proof.
  intros Ht Hfull Hd Hne Hfault.
  rewrite (GetStatus_pipeline _ _ _ _ _ task Ht Hfull files s1 w1 Hd).
  destruct (Z.eqb_spec (Z.of_nat (length files)) 0) as [H0|_].
  { destruct files; [done|simpl in H0; lia]. }
  pose proof (downloadAll_frame _ _ _ _ _ _ _ _ _ _ Hd) as (Hr & _ & _ & Ha & _).
  assert (createZipArchive env s1 w1 taskID files
          = (Err (ErrFS OpMkdirAll), w1) ∨
          createZipArchive env s1 w1 taskID files = (Err (ErrFS OpCreate), w1)) as Hz.
  { unfold createZipArchive. rewrite Hr, Ht. simpl.
    destruct (fs_fault env OpMkdirAll zipPath); [by left|].
    destruct Hfault as [Hf|Hf]; [done|]. rewrite Hf. by right. }
  assert (∀ p, p ∈ files → is_Some (disk w1 !! p)) as Hdisk.
  { eapply downloadAll_on_disk; [exact Hd|]. intros p Hp. by apply elem_of_nil in Hp. }
  destruct Hz as [Hz|Hz]; rewrite Hz; eexists _, _;
    (split_and!; [reflexivity|simpl; apply lookup_insert_eq|simpl; exact Ha|done|exact Hdisk]).
Qed.

End PollEffects.

Lemma GetStatus_keeps_other_files_witness :
  is_Some (disk (snd (GetStatus asciiToLower envUp
                        (fst (run asciiToLower envUp oneTaskPolled (initial cfgImages)))
                        (snd (run asciiToLower envUp oneTaskPolled (initial cfgImages))) 1))
             !! "../archives/Task_01.zip").
Proof.
  set (st := run asciiToLower envUp oneTaskPolled (initial cfgImages)).
  destruct (GetStatus asciiToLower envUp (fst st) (snd st) 1) as [[r s'] w'] eqn:Hg.
  destruct (downloadAll asciiToLower envUp (fst st) (snd st) (ledger (fst st) 1) 1 [])
    as [[files s1] w1] eqn:Hd.
  simpl.
  apply (GetStatus_keeps_other_files asciiToLower envUp _ _ _ _ _ _ _ _ _ _ Hg Hd).
  - eexists. vm_compute. reflexivity.
  - pose proof (f_equal (fun x => fst (fst x)) Hd) as Hf. vm_compute in Hf. subst files.
    intros H. repeat (apply elem_of_cons in H as [H|H]; [discriminate H|]).
    by apply elem_of_nil in H.
Defined.

Lemma GetStatus_touches_one_task_witness :
  urlsByTask (snd (fst (GetStatus asciiToLower envUp oneTaskFull emptyWorld 1)))
    = urlsByTask oneTaskFull.
Proof.
  destruct (GetStatus asciiToLower envUp oneTaskFull emptyWorld 1) as [[r s'] w'] eqn:Hg.
  simpl.
  refine (proj1 (proj2 (proj2 (GetStatus_touches_one_task asciiToLower envUp oneTaskFull s'
                                 emptyWorld w' 1 r _ Hg)))).
  intros task H. vm_compute in H. injection H as <-. reflexivity.
Defined.

Lemma archive_failure_keeps_downloads_witness :
  ∃ s' w',
    GetStatus asciiToLower envNoArchiveDir oneTaskFull emptyWorld 1 =
      (Ok {[ "status" := StatusFailed ]}, s', w') ∧
    is_Some (disk w' !! "../downloads/Task_01_1.jpg").
Proof.
  destruct (downloadAll asciiToLower envNoArchiveDir oneTaskFull emptyWorld
              (ledger oneTaskFull 1) 1 []) as [[files s1] w1] eqn:Hd.
  pose proof (f_equal (fun x => fst (fst x)) Hd) as Hf. vm_compute in Hf.
  destruct (archive_failure_keeps_downloads asciiToLower envNoArchiveDir oneTaskFull s1
              emptyWorld w1 1 (mkTask 1 StatusInProgress [] "../archives/Task_01") files)
    as (s' & w' & Hg & _ & _ & _ & Hfiles).
  - vm_compute. reflexivity.
  - vm_compute. lia.
  - exact Hd.
  - subst files. discriminate.
  - left. reflexivity.
  - exists s', w'. split; [exact Hg|]. apply Hfiles. subst files. by left.
Defined.

(** ** The HTTP handlers *)

Lemma digit_of_pretty_N_char (d : N) :
  (d < 10)%N → digit_of (pretty_N_char d) = Some d.
Proof.
  intros Hd.
  assert (d = 0 ∨ d = 1 ∨ d = 2 ∨ d = 3 ∨ d = 4 ∨ d = 5 ∨ d = 6 ∨ d = 7 ∨ d = 8 ∨ d = 9)%N
    as Hc by lia.
  repeat (destruct Hc as [->|Hc]; [reflexivity|]). subst d. reflexivity.
Qed.

Lemma pretty_N_char_not_sign (d : N) :
  Ascii.eqb (pretty_N_char d) "-" = false ∧ Ascii.eqb (pretty_N_char d) "+" = false.
Proof. unfold pretty_N_char. repeat case_match; by split. Qed.

Lemma parseDigits_pretty_N_go (x : N) :
  ∀ s, parseDigits (pretty_N_go x s) 0 = parseDigits s x.
Proof.
  induction (N.lt_wf_0 x) as [x _ IH]. intros s.
  destruct (decide (x = 0%N)) as [->|Hx]; [by rewrite pretty_N_go_0|].
  rewrite pretty_N_go_step by lia.
  rewrite IH by (apply N.div_lt; lia). cbn [parseDigits].
  rewrite digit_of_pretty_N_char by (apply N.mod_lt; lia).
  f_equal. pose proof (N.div_mod x 10 ltac:(lia)) as Hdm. lia.
Qed.

Lemma pretty_N_go_head (x : N) :
  (0 < x)%N → ∀ s, ∃ d rest, pretty_N_go x s = String (pretty_N_char d) rest.
Proof.
  induction (N.lt_wf_0 x) as [x _ IH]. intros Hx s.
  rewrite pretty_N_go_step by done.
  destruct (decide (x `div` 10 = 0)%N) as [H0|Hpos].
  - rewrite H0, pretty_N_go_0. by eexists _, _.
  - apply IH; [apply N.div_lt; lia|by apply N.neq_0_lt_0].
Qed.

(** The decimal form of a 64-bit integer parses back to it. *)
Lemma ParseInt_FormatInt (n : Z) :
  int64_min ≤ n ≤ int64_max → ParseInt (FormatInt n) = Some n.
Proof.
  unfold int64_min, int64_max. intros Hn. destruct n as [|p|p]; [reflexivity| |].
  - unfold FormatInt, pretty, pretty_Z, pretty, pretty_positive, pretty, pretty_N.
    destruct (decide (N.pos p = 0%N)); [lia|].
    destruct (pretty_N_go_head (N.pos p) ltac:(lia) "") as (d & rest & Heq).
    pose proof (parseDigits_pretty_N_go (N.pos p) "") as Hp. rewrite Heq in *.
    destruct (pretty_N_char_not_sign d) as [Hm Hpl].
    unfold ParseInt. rewrite Hm, Hpl. cbn [orb negb andb]. unfold ParseUint. rewrite Hp.
    cbn [parseDigits].
    destruct (Z.leb_spec (2 ^ 63) (Z.of_N (N.pos p))); [lia|]. reflexivity.
  - unfold FormatInt, pretty, pretty_Z.
    change ("-" +:+ pretty p) with (String "-" (pretty p)).
    unfold pretty, pretty_positive, pretty, pretty_N.
    destruct (decide (N.pos p = 0%N)); [lia|].
    destruct (pretty_N_go_head (N.pos p) ltac:(lia) "") as (d & rest & Heq).
    pose proof (parseDigits_pretty_N_go (N.pos p) "") as Hp.
    unfold ParseInt. cbn [Ascii.eqb Bool.eqb orb negb andb]. rewrite Heq in *.
    unfold ParseUint. rewrite Hp. cbn [parseDigits].
    destruct (Z.ltb_spec (2 ^ 63) (Z.of_N (N.pos p))); [lia|]. reflexivity.
Qed.

Lemma Split_no_sep (sep : ascii) (a : string) :
  has_char sep a = false → Split a sep = [a].
Proof.
  induction a as [|c a IH]; [done|]. simpl. intros H.
  apply orb_false_iff in H as [Hc Ha]. rewrite (IH Ha).
  rewrite Ascii.eqb_sym in Hc. by rewrite Hc.
Qed.

Lemma Split_nonempty (sep : ascii) (s : string) : Split s sep ≠ [].
Proof.
  induction s as [|c s IH]; [done|]. cbn [Split].
  destruct (Split s sep); [done|]. by destruct (Ascii.eqb c sep).
Qed.

Lemma Split_at_sep (sep : ascii) (a b : string) :
  has_char sep a = false → Split (a +:+ String sep b) sep = a :: Split b sep.
Proof.
  induction a as [|c a IH]; intros H.
  - rewrite string_app_nil. cbn [Split]. rewrite Ascii.eqb_refl.
    pose proof (Split_nonempty sep b). by destruct (Split b sep).
  - rewrite string_app_cons. cbn [Split]. simpl in H.
    apply orb_false_iff in H as [Hc Ha]. rewrite (IH Ha).
    rewrite Ascii.eqb_sym in Hc. by rewrite Hc.
Qed.

Lemma FormatInt_no_slash (n : Z) : has_char "/" (FormatInt n) = false.
Proof.
  assert (∀ x s, has_char "/" s = false → has_char "/" (pretty_N_go x s) = false) as Hgo.
  { intros x. induction (N.lt_wf_0 x) as [x _ IH]. intros s Hs.
    destruct (decide (x = 0%N)) as [->|Hx]; [by rewrite pretty_N_go_0|].
    rewrite pretty_N_go_step by lia. apply IH; [apply N.div_lt; lia|].
    simpl. rewrite Hs, orb_false_r. unfold pretty_N_char. by repeat case_match. }
  unfold FormatInt, pretty, pretty_Z. destruct n as [|p|p]; [done| |].
  - unfold pretty, pretty_positive, pretty, pretty_N.
    destruct (decide (N.pos p = 0%N)); [lia|]. by apply Hgo.
  - rewrite has_char_app. unfold pretty, pretty_positive, pretty, pretty_N.
    destruct (decide (N.pos p = 0%N)); [lia|]. by rewrite Hgo.
Qed.

(** X15. The ID in the path comes back.  For every 64-bit task ID, the
    path "/tasks/<id>/..." with the ID in decimal form, as CreateTask's
    answer reports it, is read by the AddLinks and GetStatus handlers as
    that very ID; a path with fewer than two slashes is answered with 400. *)
Theorem taskIDOfPath_roundtrip (taskID : Z) (rest path : string) :
  (int64_min ≤ taskID ≤ int64_max →
   handlers.taskIDOfPath ("/tasks/" +:+ FormatInt taskID +:+ "/" +:+ rest) = inr taskID) ∧
  ((length (Split path "/") < 3)%nat →
   handlers.taskIDOfPath path =
     inl (handlers.respondWithError StatusBadRequest "Неверный формат URL")).
Proof.
  split.
  - intros Hid. unfold handlers.taskIDOfPath.
    change ("/tasks/" +:+ FormatInt taskID +:+ "/" +:+ rest)
      with ("" +:+ String "/" ("tasks" +:+ String "/" (FormatInt taskID +:+ String "/" rest))).
    rewrite (Split_at_sep "/" "") by done.
    rewrite (Split_at_sep "/" "tasks") by done.
    rewrite (Split_at_sep "/" (FormatInt taskID)) by apply FormatInt_no_slash.
    cbn [length lookup list_lookup default].
    destruct (Nat.ltb_spec (S (S (S (length (Split rest "/"))))) 3); [lia|].
    simpl. by rewrite ParseInt_FormatInt.
  - intros Hlen. unfold handlers.taskIDOfPath.
    by destruct (Nat.ltb_spec (length (Split path "/")) 3); [|lia].
Qed.

Lemma taskIDOfPath_roundtrip_witness :
  handlers.taskIDOfPath "/tasks/12/links" = inr 12 ∧
  handlers.taskIDOfPath "/tasks" =
    inl (handlers.respondWithError StatusBadRequest "Неверный формат URL").
Proof.
  split.
  - apply (proj1 (taskIDOfPath_roundtrip 12 "links" "")). vm_compute. split; discriminate.
  - apply (proj2 (taskIDOfPath_roundtrip 0 "" "/tasks")). vm_compute. lia.
Defined.

Lemma taskIDOfPath_inl (path : string) (resp : Response) :
  handlers.taskIDOfPath path = inl resp → StatusCode resp = StatusBadRequest.
Proof.
  unfold handlers.taskIDOfPath. intros H.
  destruct (length (Split path "/") <? 3)%nat; [by simplify_eq|].
  destruct (ParseInt _); by simplify_eq.
Qed.

Section HandlerProperties.

Variable decodeURLs : string → option (list string).
Variable ParseRequestURI : string → bool.
Variable runtimeText : error → string.
Variable ToLower : string → string.
Variable env : Env.

(** X16. The CreateTask handler answers 201 or 503, never 500.  Below the
    cap it answers 201 with the new task's ID under the key the source uses,
    and the task is stored; at the cap it answers 503 with the text of the
    busy error and changes nothing.  It never writes to the log. *)
Theorem handler_CreateTask_codes (s : TaskService) (w : World) :
  let '(resp, s', w') := handlers.CreateTask runtimeText s w in
  w' = w ∧
  ((activeTasksCounter s < 3 ∧
    resp = mkResponse StatusCreated201
             (PayloadInts {[ "Задача номер: " := AddInt64 (taskCounter s) 1 ]}) ∧
    s' = snd (CreateTask s) ∧
    is_Some (repo s' !! AddInt64 (taskCounter s) 1)) ∨
   (3 ≤ activeTasksCounter s ∧
    resp = mkResponse StatusServiceUnavailable
             (PayloadStrings {[ "error" := "сервер занят: максимум 3 активные задачи" ]}) ∧
    s' = s)).
Proof.
  unfold handlers.CreateTask.
  destruct (Z.le_gt_cases 3 (activeTasksCounter s)) as [Hb|Hf].
  - rewrite CreateTask_busy by done.
    assert (Contains (ErrorText runtimeText ErrServerBusy) "сервер занят" = true) as ->
      by (vm_compute; reflexivity).
    split; [done|]. right. by split_and!.
  - rewrite CreateTask_free by lia. split; [done|]. left.
    split_and!; [lia|done|done|]. simpl. rewrite lookup_insert_eq. by eexists.
Qed.

(** X17. The AddLinks handler is all or nothing.  It answers 202, 400 or
    404, never 500, and never writes to the log; every answer other than
    202 leaves the service unchanged; 202 means the path gave an ID, the
    body decoded, every URL passed the syntax test and the service accepted
    the whole list.  In particular one malformed URL anywhere in the list
    gets the whole request refused with 400 before the service is asked. *)
Theorem handler_AddLinks_all_or_nothing (r : Request) (s : TaskService) (w : World) :
  let '(resp, s', w') := handlers.AddLinks decodeURLs ParseRequestURI r s w in
  w' = w ∧
  (StatusCode resp = StatusAccepted ∨ StatusCode resp = StatusBadRequest ∨
   StatusCode resp = StatusNotFound) ∧
  (StatusCode resp ≠ StatusAccepted → s' = s) ∧
  (StatusCode resp = StatusAccepted →
     ∃ taskID urls,
       handlers.taskIDOfPath (Path r) = inr taskID ∧
       decodeURLs (RequestBody r) = Some urls ∧
       forallb ParseRequestURI urls = true ∧
       AddLinks s taskID urls = (None, s')) ∧
  (∀ taskID urls u,
     handlers.taskIDOfPath (Path r) = inr taskID →
     decodeURLs (RequestBody r) = Some urls →
     u ∈ urls → ParseRequestURI u = false →
     StatusCode resp = StatusBadRequest ∧ s' = s).
Proof.
  unfold handlers.AddLinks.
  destruct (handlers.taskIDOfPath (Path r)) as [resp0|taskID] eqn:Hpath.
  { apply taskIDOfPath_inl in Hpath. rewrite Hpath.
    split_and!; try done; auto. }
  destruct (decodeURLs (RequestBody r)) as [urls|] eqn:Hdec.
  2:{ simpl. split_and!; try done; auto. }
  destruct (forallb ParseRequestURI urls) eqn:Hall; simpl.
  2:{ split_and!; try done; auto. }
  assert (∀ u, u ∈ urls → ParseRequestURI u = false → False) as Hno.
  { intros u Hin Hu. rewrite forallb_forall in Hall.
    apply list_elem_of_In in Hin. apply Hall in Hin. congruence. }
  pose proof (AddLinks_outcomes s taskID urls) as Hout.
  destruct (AddLinks s taskID urls) as [[e|] s1] eqn:Hadd; simpl in Hout.
  - destruct Hout as [Hok|[[He|He] Hs]]; simplify_eq; simpl;
      (split_and!; try done; auto);
      try (intros ? ? u ? ? Hin Hu; simplify_eq; by destruct (Hno u)).
  - simpl. split_and!; try done; auto;
      try (intros _; by exists taskID, urls);
      try (intros ? ? u ? ? Hin Hu; simplify_eq; by destruct (Hno u)).
Qed.

Lemma GetStatus_result (s s' : TaskService) (w w' : World) (taskID : Z)
  (r : result (gmap string string)) :
  GetStatus ToLower env s w taskID = (r, s', w') →
  (repo s !! taskID = None ∧ r = Err ErrTaskNotFound ∧ s' = s ∧ w' = w) ∨
  (is_Some (repo s !! taskID) ∧ ∃ m, r = Ok m ∧ is_Some (m !! "status")).
Proof.
  intros Hg. destruct (repo s !! taskID) as [task|] eqn:Ht.
  2:{ rewrite GetStatus_not_found in Hg by done. left. by simplify_eq. }
  right. split; [by eexists|].
  destruct (le_lt_dec 3 (length (ledger s taskID))) as [Hfull|Hfew].
  2:{ rewrite (GetStatus_few_links _ _ _ _ _ task Ht Hfew) in Hg. simplify_eq.
      eexists. split; [done|]. by rewrite lookup_singleton_eq. }
  destruct (downloadAll ToLower env s w (ledger s taskID) taskID [])
    as [[files s1] w1] eqn:Hd.
  rewrite (GetStatus_pipeline _ _ _ _ _ task Ht Hfull files s1 w1 Hd) in Hg.
  destruct (Z.of_nat (length files) =? 0)%Z.
  { simplify_eq. eexists. split; [done|]. by rewrite lookup_singleton_eq. }
  destruct (createZipArchive env s1 w1 taskID files) as [[ap|e] w2].
  - cbv zeta in Hg. simplify_eq. eexists. split; [done|].
    rewrite lookup_insert_ne by done. by rewrite lookup_insert_eq.
  - simplify_eq. eexists. split; [done|]. by rewrite lookup_singleton_eq.
Qed.

(** X18. The GetStatus handler answers 200, 400 or 404, never 500.  An
    answer of 400 or 404 changes nothing; 404 is given exactly for a path
    whose ID has no stored task; 200 is given exactly for a stored task and
    carries the map the service returned, which always has a "status"
    entry. *)
Theorem handler_GetStatus_codes (r : Request) (s : TaskService) (w : World) :
  let '(resp, s', w') := handlers.GetStatus ToLower env r s w in
  (StatusCode resp = StatusOK ∨ StatusCode resp = StatusBadRequest ∨
   StatusCode resp = StatusNotFound) ∧
  (StatusCode resp ≠ StatusOK → s' = s ∧ w' = w) ∧
  (StatusCode resp = StatusNotFound ↔
     ∃ taskID, handlers.taskIDOfPath (Path r) = inr taskID ∧ repo s !! taskID = None) ∧
  (StatusCode resp = StatusOK ↔
     ∃ taskID, handlers.taskIDOfPath (Path r) = inr taskID ∧ is_Some (repo s !! taskID)) ∧
  (StatusCode resp = StatusOK →
     ∃ taskID m,
       handlers.taskIDOfPath (Path r) = inr taskID ∧
       GetStatus ToLower env s w taskID = (Ok m, s', w') ∧
       Payload resp = PayloadStrings m ∧ is_Some (m !! "status")).
Proof.
  unfold handlers.GetStatus.
  destruct (handlers.taskIDOfPath (Path r)) as [resp0|taskID] eqn:Hpath.
  { apply taskIDOfPath_inl in Hpath. rewrite Hpath.
    split_and!; try done; auto.
    - split; [done|]. by intros (? & ? & _).
    - split; [done|]. by intros (? & ? & _). }
  destruct (GetStatus ToLower env s w taskID) as [[res s1] w1] eqn:Hg.
  destruct (GetStatus_result _ _ _ _ _ _ Hg) as [(Hnone & -> & -> & ->)|(Hsome & m & -> & Hm)];
    simpl.
  - split_and!; try done; auto.
    + split; [|done]. intros _. by exists taskID.
    + split; [done|]. intros (id & [= <-] & Hs). rewrite Hnone in Hs. by destruct Hs.
  - split_and!; try done; auto.
    + split; [done|]. intros (id & [= <-] & Hn). rewrite Hn in Hsome. by destruct Hsome.
    + split; [|done]. intros _. by exists taskID.
    + intros _. by exists taskID, m.
Qed.

End HandlerProperties.

Lemma handler_AddLinks_all_or_nothing_witness :
  StatusCode (fst (fst (handlers.AddLinks decodeCommas startsHttp
                          (mkRequest "/tasks/1/links" "http://a,ftp://b")
                          oneTask emptyWorld))) = StatusBadRequest.
Proof.
  pose proof (handler_AddLinks_all_or_nothing decodeCommas startsHttp
                (mkRequest "/tasks/1/links" "http://a,ftp://b") oneTask emptyWorld) as H.
  destruct (handlers.AddLinks decodeCommas startsHttp
              (mkRequest "/tasks/1/links" "http://a,ftp://b") oneTask emptyWorld)
    as [[resp s'] w'].
  destruct H as (_ & _ & _ & _ & H).
  refine (proj1 (H 1 ["http://a"; "ftp://b"] "ftp://b" eq_refl eq_refl _ eq_refl)).
  right. left.
Defined.

Lemma handler_GetStatus_codes_witness :
  StatusCode (fst (fst (handlers.GetStatus asciiToLower envUp
                          (mkRequest "/tasks/9/status" "") oneTask emptyWorld)))
    = StatusNotFound.
Proof.
  pose proof (handler_GetStatus_codes asciiToLower envUp
                (mkRequest "/tasks/9/status" "") oneTask emptyWorld) as H.
  destruct (handlers.GetStatus asciiToLower envUp
              (mkRequest "/tasks/9/status" "") oneTask emptyWorld) as [[resp s'] w'].
  destruct H as (_ & _ & H & _).
  apply (proj2 H). exists 9. split; [reflexivity|]. vm_compute. reflexivity.
Defined.

(** ** Loading the configuration *)

Lemma ParseInt_range (s : string) (n : Z) :
  ParseInt s = Some n → int64_min ≤ n ≤ int64_max.
Proof.
  unfold ParseInt, int64_min, int64_max. destruct s as [|c rest]; [done|].
  cbv zeta. destruct (ParseUint _) as [un|]; [|done].
  destruct (Ascii.eqb c "-"); cbn [negb andb].
  - destruct (Z.ltb_spec (2 ^ 63) (Z.of_N un)); [done|]. intros [= <-]. lia.
  - destruct (Z.leb_spec (2 ^ 63) (Z.of_N un)); [done|]. intros [= <-]. lia.
Qed.

Section LoadProperties.

Variable TrimSpace : string → string.
Variable ParseDuration : string → option Z.

Lemma trimExtensions_nonempty (extensions exts : list string) :
  config.trimExtensions TrimSpace extensions = Some exts →
  ∀ ext, ext ∈ exts → ext ≠ "".
Proof.
  revert exts. induction extensions as [|e rest IH]; intros exts H; simpl in H.
  - simplify_eq. intros ext Hin. by apply elem_of_nil in Hin.
  - destruct (String.eqb_spec (TrimSpace e) ""); [done|].
    destruct (config.trimExtensions TrimSpace rest) as [exts'|]; [|done].
    simplify_eq. intros ext Hin. apply elem_of_cons in Hin as [->|Hin]; [done|].
    by apply (IH exts').
Qed.

Lemma applyLine_checked (cfg cfg' : config.Config) (line : string) :
  checked cfg →
  config.applyLine TrimSpace ParseDuration cfg line = inr cfg' → checked cfg'.
Proof.
  intros (Hp & Ht & Hm & He). unfold config.applyLine. cbv zeta.
  destruct (_ || _); [by intros [= <-]|].
  destruct (SplitN2 (TrimSpace line) "=") as [|k [|v [|? ?]]]; try by intros [= <-].
  destruct (String.eqb (TrimSpace k) "SERVER_PORT").
  { destruct (ParseInt (TrimSpace v)) as [port|] eqn:Hparse; [|done].
    apply ParseInt_range in Hparse.
    destruct (Z.leb_spec port 0); [done|]. intros [= <-]. unfold checked. simpl.
    split_and!; try lia; done. }
  destruct (String.eqb (TrimSpace k) "SERVER_TIMEOUT").
  { destruct (ParseDuration (TrimSpace v)) as [timeout|]; [|done].
    destruct (Z.leb_spec timeout 0); [done|]. intros [= <-]. unfold checked. simpl.
    split_and!; try lia; done. }
  destruct (String.eqb (TrimSpace k) "FILE_MAX_SIZE").
  { destruct (ParseInt (TrimSpace v)) as [maxSize|] eqn:Hparse; [|done].
    apply ParseInt_range in Hparse.
    destruct (Z.leb_spec maxSize 0); [done|]. intros [= <-]. unfold checked. simpl.
    split_and!; try lia; done. }
  destruct (String.eqb (TrimSpace k) "FILE_ALLOWED_EXTENSIONS"); [|by intros [= <-]].
  destruct (config.trimExtensions TrimSpace _) as [exts|] eqn:Hexts; [|done].
  destruct (length exts =? 0)%nat; [done|]. intros [= <-]. unfold checked. simpl.
  split_and!; try lia. by eapply trimExtensions_nonempty.
Qed.

Lemma loadLines_checked (lines : list string) :
  ∀ cfg cfg', checked cfg →
    config.loadLines TrimSpace ParseDuration cfg lines = inr cfg' → checked cfg'.
Proof.
  induction lines as [|l rest IH]; intros cfg cfg' Hc H; simpl in H.
  - by simplify_eq.
  - destruct (config.applyLine TrimSpace ParseDuration cfg l) as [e|cfg1] eqn:Ha; [done|].
    eapply IH; [|exact H]. by eapply applyLine_checked.
Qed.

Lemma Load_checked (data : option string) (cfg : config.Config) :
  config.Load TrimSpace ParseDuration data = inr cfg →
  checked cfg ∧ config.ServerPort cfg ≠ 0 ∧ config.ServerTimeout cfg ≠ 0 ∧
  config.FileMaxSize cfg ≠ 0 ∧ config.FileAllowedExtensions cfg ≠ [].
Proof.
  unfold config.Load. destruct data as [data|]; [|done].
  destruct (config.loadLines _ _ _ _) as [e|cfg0] eqn:Hl; [done|].
  apply loadLines_checked in Hl.
  2:{ unfold checked, int64_max. simpl. split_and!; try lia.
      intros ext Hin. by apply elem_of_nil in Hin. }
  destruct (Z.eqb_spec (config.ServerPort cfg0) 0); [done|].
  destruct (Z.eqb_spec (config.ServerTimeout cfg0) 0); [done|].
  destruct (Z.eqb_spec (config.FileMaxSize cfg0) 0); [done|].
  destruct (Nat.eqb_spec (length (config.FileAllowedExtensions cfg0)) 0); [done|].
  intros [= <-]. split_and!; try done.
  by destruct (config.FileAllowedExtensions cfg0).
Qed.

(** X19. Load only returns checked configurations.  Whatever the file
    holds, a configuration that Load returns has a positive port, a
    positive timeout and a positive maximal size (port and size within 64
    bits), and a non-empty list of allowed extensions none of which is the
    empty string. *)
Theorem Load_validates (data : option string) (cfg : config.Config) :
  config.Load TrimSpace ParseDuration data = inr cfg →
  0 < config.ServerPort cfg ≤ int64_max ∧
  0 < config.ServerTimeout cfg ∧
  0 < config.FileMaxSize cfg ≤ int64_max ∧
  config.FileAllowedExtensions cfg ≠ [] ∧
  ∀ ext, ext ∈ config.FileAllowedExtensions cfg → ext ≠ "".
Proof.
  intros H. apply Load_checked in H as ((Hp & Ht & Hm & He) & ? & ? & ? & ?).
  split_and!; try done; lia.
Qed.

(** A field that a line has changed is the field of the key the line
    assigns. *)
Lemma applyLine_assigns (cfg cfg' : config.Config) (line : string) :
  config.applyLine TrimSpace ParseDuration cfg line = inr cfg' →
  (config.ServerPort cfg' ≠ config.ServerPort cfg →
     config.assigns TrimSpace "SERVER_PORT" line) ∧
  (config.ServerTimeout cfg' ≠ config.ServerTimeout cfg →
     config.assigns TrimSpace "SERVER_TIMEOUT" line) ∧
  (config.FileMaxSize cfg' ≠ config.FileMaxSize cfg →
     config.assigns TrimSpace "FILE_MAX_SIZE" line) ∧
  (config.FileAllowedExtensions cfg' ≠ config.FileAllowedExtensions cfg →
     config.assigns TrimSpace "FILE_ALLOWED_EXTENSIONS" line).
Proof.
  unfold config.applyLine, config.assigns. cbv zeta.
  destruct (_ || _); [by intros [= <-]|].
  destruct (SplitN2 (TrimSpace line) "=") as [|k [|v [|? ?]]]; try by intros [= <-].
  destruct (String.eqb_spec (TrimSpace k) "SERVER_PORT") as [Hk|_].
  { destruct (ParseInt (TrimSpace v)) as [port|]; [|done].
    destruct (port <=? 0)%Z; [done|]. intros [= <-]. simpl.
    split_and!; try done. intros _. by exists k, v. }
  destruct (String.eqb_spec (TrimSpace k) "SERVER_TIMEOUT") as [Hk|_].
  { destruct (ParseDuration (TrimSpace v)) as [timeout|]; [|done].
    destruct (timeout <=? 0)%Z; [done|]. intros [= <-]. simpl.
    split_and!; try done. intros _. by exists k, v. }
  destruct (String.eqb_spec (TrimSpace k) "FILE_MAX_SIZE") as [Hk|_].
  { destruct (ParseInt (TrimSpace v)) as [maxSize|]; [|done].
    destruct (maxSize <=? 0)%Z; [done|]. intros [= <-]. simpl.
    split_and!; try done. intros _. by exists k, v. }
  destruct (String.eqb_spec (TrimSpace k) "FILE_ALLOWED_EXTENSIONS") as [Hk|_];
    [|by intros [= <-]].
  destruct (config.trimExtensions TrimSpace _) as [exts|]; [|done].
  destruct (length exts =? 0)%nat; [done|]. intros [= <-]. simpl.
  split_and!; try done. intros _. by exists k, v.
Qed.

Lemma loadLines_assigns (lines : list string) :
  ∀ cfg cfg',
    config.loadLines TrimSpace ParseDuration cfg lines = inr cfg' →
    (config.ServerPort cfg' ≠ config.ServerPort cfg →
       ∃ line, line ∈ lines ∧ config.assigns TrimSpace "SERVER_PORT" line) ∧
    (config.ServerTimeout cfg' ≠ config.ServerTimeout cfg →
       ∃ line, line ∈ lines ∧ config.assigns TrimSpace "SERVER_TIMEOUT" line) ∧
    (config.FileMaxSize cfg' ≠ config.FileMaxSize cfg →
       ∃ line, line ∈ lines ∧ config.assigns TrimSpace "FILE_MAX_SIZE" line) ∧
    (config.FileAllowedExtensions cfg' ≠ config.FileAllowedExtensions cfg →
       ∃ line, line ∈ lines ∧ config.assigns TrimSpace "FILE_ALLOWED_EXTENSIONS" line).
Proof.
  induction lines as [|l rest IH]; intros cfg cfg' H; simpl in H.
  - by simplify_eq.
  - destruct (config.applyLine TrimSpace ParseDuration cfg l) as [e|cfg1] eqn:Ha; [done|].
    apply applyLine_assigns in Ha as (A1 & A2 & A3 & A4).
    apply IH in H as (B1 & B2 & B3 & B4).
    split_and!; intros Hne.
    + destruct (decide (config.ServerPort cfg1 = config.ServerPort cfg)) as [Heq|Hd].
      * rewrite <- Heq in Hne. destruct (B1 Hne) as (x & ? & ?). exists x. split; [by right|done].
      * exists l. split; [by left|auto].
    + destruct (decide (config.ServerTimeout cfg1 = config.ServerTimeout cfg)) as [Heq|Hd].
      * rewrite <- Heq in Hne. destruct (B2 Hne) as (x & ? & ?). exists x. split; [by right|done].
      * exists l. split; [by left|auto].
    + destruct (decide (config.FileMaxSize cfg1 = config.FileMaxSize cfg)) as [Heq|Hd].
      * rewrite <- Heq in Hne. destruct (B3 Hne) as (x & ? & ?). exists x. split; [by right|done].
      * exists l. split; [by left|auto].
    + destruct (decide (config.FileAllowedExtensions cfg1 = config.FileAllowedExtensions cfg))
        as [Heq|Hd].
      * rewrite <- Heq in Hne. destruct (B4 Hne) as (x & ? & ?). exists x. split; [by right|done].
      * exists l. split; [by left|auto].
Qed.

(** X20. Load has no defaults.  It fails when the file cannot be read, and
    when it succeeds the file has, for each of the four keys SERVER_PORT,
    SERVER_TIMEOUT, FILE_MAX_SIZE and FILE_ALLOWED_EXTENSIONS, a line that
    assigns that key. *)
Theorem Load_requires_all_keys (data : string) (cfg : config.Config) :
  config.Load TrimSpace ParseDuration None = inl config.ErrReadFile ∧
  (config.Load TrimSpace ParseDuration (Some data) = inr cfg →
   ∀ key, key ∈ ["SERVER_PORT"; "SERVER_TIMEOUT"; "FILE_MAX_SIZE"; "FILE_ALLOWED_EXTENSIONS"] →
          ∃ line, line ∈ Split data newline ∧ config.assigns TrimSpace key line).
Proof.
  split; [done|]. intros H.
  pose proof (Load_checked _ _ H) as (_ & Hp & Ht & Hm & He).
  unfold config.Load in H.
  destruct (config.loadLines _ _ _ _) as [e|cfg0] eqn:Hl; [done|].
  assert (cfg0 = cfg) as -> by (by repeat case_match; simplify_eq).
  apply loadLines_assigns in Hl as (B1 & B2 & B3 & B4). simpl in *.
  intros key Hkey.
  repeat (apply elem_of_cons in Hkey as [->|Hkey]; [by auto|]).
  by apply elem_of_nil in Hkey.
Qed.

(** X21. A loaded configuration never accepts an empty content type.  With
    the configuration Load returned, a URL whose extension is not allowed
    and whose HEAD answer carries no content type is refused with
    InvalidFile: no allowed entry is empty, so none is found in the empty
    header. *)
Theorem loaded_config_rejects_missing_content_type
  (ToLower : string → string) (env : Env) (data : option string) (c : config.Config)
  (s : TaskService) (w : World) (url : string) (taskID : Z) :
  config.Load TrimSpace ParseDuration data = inr c →
  cfg s = serviceConfig c →
  ext_allowed ToLower s url = false →
  new_request_ok env url = true →
  head_response env (length (requests w)) url = Some (mkHead "") →
  fst (fst (downloadFile ToLower env s w url taskID)) = Err ErrInvalidFile.
Proof.
  intros Hload Hcfg Hext Hok Hhead.
  apply Load_checked in Hload as ((_ & _ & _ & Hne) & _).
  unfold downloadFile, checkType. rewrite Hext, Hok, Hhead. simpl.
  rewrite Hcfg. simpl.
  match goal with |- context [List.find ?f ?l] =>
    assert (List.find f l = None) as ->; [|done] end.
  induction (config.FileAllowedExtensions c) as [|a l IH]; [done|]. simpl.
  destruct a as [|ch a]; [by destruct (Hne "" ltac:(by left))|]. simpl.
  apply IH. intros ext Hin. apply Hne. by right.
Qed.

End LoadProperties.

Lemma Load_validates_witness :
  ∃ cfg, config.Load trimBlanks secondsDuration (Some envFile) = inr cfg ∧
         0 < config.FileMaxSize cfg ∧ config.FileAllowedExtensions cfg ≠ [].
Proof.
  exists (config.mkConfig 8080 10000000000 10485760 ["jpg"; "png"]).
  assert (config.Load trimBlanks secondsDuration (Some envFile)
          = inr (config.mkConfig 8080 10000000000 10485760 ["jpg"; "png"])) as H
    by (vm_compute; reflexivity).
  destruct (Load_validates trimBlanks secondsDuration _ _ H) as (_ & _ & [Hm _] & He & _).
  by split_and!.
Defined.

Lemma Load_requires_all_keys_witness :
  ∃ line, line ∈ Split envFile newline ∧ config.assigns trimBlanks "FILE_MAX_SIZE" line.
Proof.
  apply (proj2 (Load_requires_all_keys trimBlanks secondsDuration envFile
                  (config.mkConfig 8080 10000000000 10485760 ["jpg"; "png"]))).
  - vm_compute. reflexivity.
  - right. right. left.
Defined.

Lemma loaded_config_rejects_missing_content_type_witness :
  fst (fst (downloadFile asciiToLower
              (mkEnv (fun _ => true) (fun _ _ => Some (mkHead "")) (fun _ _ => None) noFault noBytes)
              (NewTaskService (serviceConfig
                                 (config.mkConfig 8080 10000000000 10485760 ["jpg"; "png"])))
              emptyWorld "http://h/c" 1)) = Err ErrInvalidFile.
Proof.
  apply (loaded_config_rejects_missing_content_type trimBlanks secondsDuration asciiToLower
           _ (Some envFile) (config.mkConfig 8080 10000000000 10485760 ["jpg"; "png"])).
  - vm_compute. reflexivity.
  - reflexivity.
  - reflexivity.
  - reflexivity.
  - reflexivity.
Defined.

Lemma GetStatus_requests_witness :
  ∃ blocks,
    requests (snd (GetStatus asciiToLower envUp oneTaskFull emptyWorld 1)) = concat blocks ∧
    Forall2 request_block threeLinks blocks.
Proof.
  pose proof (GetStatus_requests asciiToLower envUp oneTaskFull emptyWorld 1) as H.
  destruct (GetStatus asciiToLower envUp oneTaskFull emptyWorld 1) as [[r s'] w'].
  destruct H as [(blocks & Hr & Hbs) _]. exists blocks. split; [exact Hr|exact Hbs].
Defined.

Lemma handler_CreateTask_codes_witness :
  StatusCode (fst (fst (handlers.CreateTask noText (NewTaskService cfgImages) emptyWorld)))
    = StatusCreated201.
Proof.
  pose proof (handler_CreateTask_codes noText (NewTaskService cfgImages) emptyWorld) as H.
  destruct (handlers.CreateTask noText (NewTaskService cfgImages) emptyWorld)
    as [[resp s'] w'].
  destruct H as [_ [(_ & -> & _)|(Hbusy & _)]]; [reflexivity|].
  vm_compute in Hbusy. by destruct Hbusy.
Defined.
